(** * The PS IIC EEPROM polled-mode example, as a state-passing program

    A shallow embedding of [xiicps_eeprom_polled_example.c]: the globals of
    the example ([IicInstance], [WriteBuffer], [ReadBuffer], [EepromSlvAddr],
    [PageSize]) make up a [World]; every C function becomes a computation in
    a small state monad over that world.  The XIicPs driver, the I2C
    controller and whatever sits on the bus are not part of the example: they
    are an interface ([Driver]) the program is parametrised by. *)

From Stdlib Require Import ZArith Lia FunctionalExtensionality.
From stdpp Require Import base list.

Local Open Scope Z_scope.

(** ** Fixed-width integers *)

Definition u8 (x : Z) : Z := x mod 2 ^ 8.
Definition u16 (x : Z) : Z := x mod 2 ^ 16.
Definition u32 (x : Z) : Z := x mod 2 ^ 32.

(** ** Constants of the example (the [#define]s and initialised arrays) *)

Definition IIC_SCLK_RATE : Z := 100000.
Definition SLV_MON_LOOP_COUNT : Z := 0x00FFFFFF.
Definition MUX_ADDR : Z := 0x74.
Definition MAX_CHANNELS : Z := 0x04.

Definition MAX_SIZE : Z := 64.
Definition PAGE_SIZE_16 : Z := 16.
Definition PAGE_SIZE_32 : Z := 32.
Definition PAGE_SIZE_64 : Z := 64.

Definition EEPROM_START_ADDRESS : Z := 0.

(** [typedef u16 AddressType;] *)
Definition sizeof_AddressType : Z := 2.

(** [u8 WriteBuffer[sizeof(AddressType) + MAX_SIZE]] and
    [u8 ReadBuffer[MAX_SIZE]]. *)
Definition WriteBuffer_size : Z := sizeof_AddressType + MAX_SIZE.
Definition ReadBuffer_size : Z := MAX_SIZE.

Definition EepromAddr : list Z := [0x54; 0x55; 0].
Definition MuxAddr : list Z := [0x74; 0].

(** ** The driver interface

    Everything the example calls but does not define.  [HW] is the state of
    the driver instance together with the controller and the devices behind
    it.  Status codes and register layout come from headers outside the
    example ([xstatus.h], [xiicps_hw.h], [xparameters.h]) and are fields of
    the interface as well. *)

Class Driver := {
  HW : Type;
  XST_SUCCESS : Z;
  XST_FAILURE : Z;
  XST_distinct : XST_SUCCESS ≠ XST_FAILURE;
  XPAR_XIICPS_NUM_INSTANCES : Z;
  XIICPS_ISR_OFFSET : Z;
  XIICPS_IXR_SLV_RDY_MASK : Z;
  (** [NULL] or the base address of the configuration found. *)
  XIicPs_LookupConfig : Z → option Z;
  XIicPs_CfgInitialize : Z → HW → Z * HW;
  XIicPs_SetSClk : Z → HW → HW;
  (** bytes to send, slave address *)
  XIicPs_MasterSendPolled : list Z → Z → HW → Z * HW;
  (** byte count, slave address; the bytes the driver put in the buffer *)
  XIicPs_MasterRecvPolled : Z → Z → HW → Z * list Z * HW;
  XIicPs_BusIsBusy : HW → bool * HW;
  XIicPs_EnableSlaveMonitor : Z → HW → HW;
  XIicPs_DisableSlaveMonitor : HW → HW;
  XIicPs_ReadReg : Z → HW → Z * HW;
  XIicPs_WriteReg : Z → Z → HW → HW;
  usleep : Z → HW → HW
}.

(** ** Driver calls made by a run, in order.

    Polls of the interrupt-status register and of the bus-busy flag are not
    recorded (a failed presence probe makes [SLV_MON_LOOP_COUNT] of them). *)

Inductive Event : Type :=
  | EvCfgInitialize (DeviceId : Z) (Status : Z)
  | EvSetSClk (rate : Z)
  | EvSend (bytes : list Z) (slave : Z) (Status : Z)
  | EvRecv (ByteCount : Z) (slave : Z) (Status : Z) (data : list Z)
  | EvEnableSlaveMonitor (addr : Z)
  | EvDisableSlaveMonitor
  | EvWriteReg (offset value : Z)
  | EvUsleep (useconds : Z).

(** ** Outcomes

    A computation either finishes, or it does not: the bus stays busy
    through every poll of a [while (XIicPs_BusIsBusy(...));] spin, or an
    access falls outside an array, which C leaves undefined. *)

Inductive Fault : Type := BusNeverIdle | OutOfBounds.

Inductive Res (A : Type) : Type :=
  | Done (a : A)
  | Stuck (f : Fault).
Arguments Done {A} a.
Arguments Stuck {A} f.

(** A [return] inside a loop body leaves the function; [Fallthrough] goes on
    with the next round. *)
Inductive Flow : Type :=
  | Return (Status : Z)
  | Fallthrough.

Section Program.

Context `{Drv : Driver}.

(** Polls a busy-wait may make before the run counts as hung. *)
Variable spin_fuel : nat.

Record World : Type := mkWorld {
  IicInstance : HW;
  WriteBuffer : list Z;
  ReadBuffer : list Z;
  EepromSlvAddr : Z;
  PageSize : Z;
  trace : list Event
}.

Definition set_IicInstance (hw : HW) (w : World) : World :=
  mkWorld hw (WriteBuffer w) (ReadBuffer w) (EepromSlvAddr w) (PageSize w) (trace w).
Definition set_WriteBuffer (b : list Z) (w : World) : World :=
  mkWorld (IicInstance w) b (ReadBuffer w) (EepromSlvAddr w) (PageSize w) (trace w).
Definition set_ReadBuffer (b : list Z) (w : World) : World :=
  mkWorld (IicInstance w) (WriteBuffer w) b (EepromSlvAddr w) (PageSize w) (trace w).
Definition set_EepromSlvAddr (a : Z) (w : World) : World :=
  mkWorld (IicInstance w) (WriteBuffer w) (ReadBuffer w) a (PageSize w) (trace w).
Definition set_PageSize (p : Z) (w : World) : World :=
  mkWorld (IicInstance w) (WriteBuffer w) (ReadBuffer w) (EepromSlvAddr w) p (trace w).
Definition log (e : Event) (w : World) : World :=
  mkWorld (IicInstance w) (WriteBuffer w) (ReadBuffer w) (EepromSlvAddr w) (PageSize w)
          (trace w ++ [e]).

(** The buffers have their declared sizes. *)
Definition buffers_ok (w : World) : Prop :=
  length (WriteBuffer w) = Z.to_nat WriteBuffer_size ∧
  length (ReadBuffer w) = Z.to_nat ReadBuffer_size.

(** *** The monad *)

Definition M (A : Type) : Type := World → Res A * World.

Definition ret {A} (a : A) : M A := λ w, (Done a, w).

Definition bind {A B} (m : M A) (k : A → M B) : M B :=
  λ w, match m w with
       | (Done a, w') => k a w'
       | (Stuck f, w') => (Stuck f, w')
       end.

Notation "'do' x <- m ; k" := (bind m (λ x, k))
  (at level 10, x name, m at level 100, k at level 200).
Notation "'do' ' p <- m ; k" := (bind m (λ x, match x with p => k end))
  (at level 10, p pattern, m at level 100, k at level 200).
Notation "m ;; k" := (bind m (λ _, k))
  (at level 100, k at level 200, right associativity).

Definition get {A} (f : World → A) : M A := λ w, (Done (f w), w).
Definition modify (f : World → World) : M unit := λ w, (Done tt, f w).
Definition fault {A} (f : Fault) : M A := λ w, (Stuck f, w).

(** [for (Index = lo; Index < lo + n; Index++) body] with no [return] in the
    body. *)
Fixpoint for_count (n : nat) (Index : Z) (body : Z → M unit) : M unit :=
  match n with
  | O => ret tt
  | S n' => body Index ;; for_count n' (Index + 1) body
  end.

(** The same with a body that may [return]. *)
Fixpoint for_count_flow (n : nat) (Index : Z) (body : Z → M Flow) : M Flow :=
  match n with
  | O => ret Fallthrough
  | S n' =>
      do r <- body Index;
      match r with
      | Return s => ret (Return s)
      | Fallthrough => for_count_flow n' (Index + 1) body
      end
  end.

(** [for (Index = 0; arr[Index] != 0; Index++) body(arr[Index])] over a
    zero-terminated array; running off an array with no terminator is an
    out-of-bounds read. *)
Fixpoint for_sentinel (arr : list Z) (body : Z → M Flow) : M Flow :=
  match arr with
  | [] => fault OutOfBounds
  | a :: rest =>
      if a =? 0 then ret Fallthrough
      else do r <- body a;
           match r with
           | Return s => ret (Return s)
           | Fallthrough => for_sentinel rest body
           end
  end.

(** *** Array accesses *)

Definition in_range (i size : Z) : bool := (0 <=? i) && (i <? size).

Definition WriteBuffer_store (i v : Z) : M unit :=
  λ w, if in_range i WriteBuffer_size
       then (Done tt, set_WriteBuffer (<[Z.to_nat i := u8 v]> (WriteBuffer w)) w)
       else (Stuck OutOfBounds, w).

Definition ReadBuffer_store (i v : Z) : M unit :=
  λ w, if in_range i ReadBuffer_size
       then (Done tt, set_ReadBuffer (<[Z.to_nat i := u8 v]> (ReadBuffer w)) w)
       else (Stuck OutOfBounds, w).

Definition ReadBuffer_load (i : Z) : M Z :=
  λ w, if in_range i ReadBuffer_size
       then (Done (default 0 (ReadBuffer w !! Z.to_nat i)), w)
       else (Stuck OutOfBounds, w).

(** *** Driver calls, logged *)

(** [while (XIicPs_BusIsBusy(IicInstance));] *)
Fixpoint spin_while_busy (n : nat) (hw : HW) : option HW :=
  match n with
  | O => None
  | S n' =>
      let '(busy, hw') := XIicPs_BusIsBusy hw in
      if busy then spin_while_busy n' hw' else Some hw'
  end.

Definition wait_bus_idle : M unit :=
  λ w, match spin_while_busy spin_fuel (IicInstance w) with
       | Some hw' => (Done tt, set_IicInstance hw' w)
       | None => (Stuck BusNeverIdle, w)
       end.

Definition MasterSendPolled (bytes : list Z) (slave : Z) : M Z :=
  λ w, let '(Status, hw') := XIicPs_MasterSendPolled bytes slave (IicInstance w) in
       (Done Status, log (EvSend bytes slave Status) (set_IicInstance hw' w)).

Definition MasterRecvPolled (ByteCount slave : Z) : M (Z * list Z) :=
  λ w, let '(Status, data, hw') := XIicPs_MasterRecvPolled ByteCount slave (IicInstance w) in
       let data := u8 <$> take (Z.to_nat ByteCount) data in
       (Done (Status, data), log (EvRecv ByteCount slave Status data) (set_IicInstance hw' w)).

(** A receive into [ReadBuffer]: the driver stores at offsets below
    [ByteCount]. *)
Definition MasterRecvPolled_ReadBuffer (ByteCount slave : Z) : M Z :=
  if negb ((0 <=? ByteCount) && (ByteCount <=? ReadBuffer_size)) then fault OutOfBounds
  else do '(Status, data) <- MasterRecvPolled ByteCount slave;
       modify (λ w, set_ReadBuffer (data ++ drop (length data) (ReadBuffer w)) w) ;;
       ret Status.

(** A send out of [WriteBuffer]: the driver reads offsets below
    [ByteCount]. *)
Definition MasterSendPolled_WriteBuffer (ByteCount slave : Z) : M Z :=
  if negb ((0 <=? ByteCount) && (ByteCount <=? WriteBuffer_size)) then fault OutOfBounds
  else do bytes <- get (λ w, take (Z.to_nat ByteCount) (WriteBuffer w));
       MasterSendPolled bytes slave.

Definition do_usleep (useconds : Z) : M unit :=
  modify (λ w, log (EvUsleep useconds) (set_IicInstance (usleep useconds (IicInstance w)) w)).

Definition EnableSlaveMonitor (addr : Z) : M unit :=
  modify (λ w, log (EvEnableSlaveMonitor addr)
                   (set_IicInstance (XIicPs_EnableSlaveMonitor addr (IicInstance w)) w)).

Definition DisableSlaveMonitor : M unit :=
  modify (λ w, log EvDisableSlaveMonitor
                   (set_IicInstance (XIicPs_DisableSlaveMonitor (IicInstance w)) w)).

(** A register read; the value is a [u32]. *)
Definition ReadReg (offset : Z) : M Z :=
  λ w, let '(v, hw') := XIicPs_ReadReg offset (IicInstance w) in
       (Done (u32 v), set_IicInstance hw' w).

Definition WriteReg (offset value : Z) : M unit :=
  modify (λ w, log (EvWriteReg offset value)
                   (set_IicInstance (XIicPs_WriteReg offset value (IicInstance w)) w)).

(** ** The example's functions *)

(** [static s32 EepromWriteData(XIicPs *IicInstance, u16 ByteCount)] *)
Definition EepromWriteData (ByteCount : Z) : M Z :=
  do slave <- get EepromSlvAddr;
  do Status <- MasterSendPolled_WriteBuffer ByteCount slave;
  if negb (Status =? XST_SUCCESS) then ret XST_FAILURE
  else
    wait_bus_idle ;;
    do_usleep 250000 ;;
    ret XST_SUCCESS.

(** The address pointer at the head of [WriteBuffer]: one byte for 16-byte
    pages, two bytes, high first, otherwise.  Gives [WrBfrOffset]. *)
Definition put_address (size Address : Z) : M Z :=
  if size =? PAGE_SIZE_16 then
    WriteBuffer_store 0 (u8 Address) ;;
    ret 1
  else
    WriteBuffer_store 0 (u8 (Z.shiftr Address 8)) ;;
    WriteBuffer_store 1 (u8 Address) ;;
    ret 2.

(** [static s32 EepromReadData(XIicPs *IicInstance, u8 *BufferPtr,
    u16 ByteCount, u16 Address)], with [BufferPtr = ReadBuffer] as at every
    call. *)
Definition EepromReadData (ByteCount Address : Z) : M Z :=
  do size <- get PageSize;
  do WrBfrOffset <- put_address size Address;
  do Status <- EepromWriteData WrBfrOffset;
  if negb (Status =? XST_SUCCESS) then ret XST_FAILURE
  else
    do slave <- get EepromSlvAddr;
    do Status <- MasterRecvPolled_ReadBuffer ByteCount slave;
    if negb (Status =? XST_SUCCESS) then ret XST_FAILURE
    else
      wait_bus_idle ;;
      ret XST_SUCCESS.

(** [static s32 MuxInitChannel(u16 MuxIicAddr, u8 WriteBuffer)]; the
    read-back byte lands in a local. *)
Definition MuxInitChannel (MuxIicAddr Channel : Z) : M Z :=
  wait_bus_idle ;;
  do Status <- MasterSendPolled [Channel] MuxIicAddr;
  if negb (Status =? XST_SUCCESS) then ret XST_FAILURE
  else
    wait_bus_idle ;;
    do '(Status, _) <- MasterRecvPolled 1 MuxIicAddr;
    if negb (Status =? XST_SUCCESS) then ret XST_FAILURE
    else
      wait_bus_idle ;;
      ret XST_SUCCESS.

(** [static s32 IicPsConfig(u16 DeviceId)] *)
Definition IicPsConfig (DeviceId : Z) : M Z :=
  match XIicPs_LookupConfig DeviceId with
  | None => ret XST_FAILURE
  | Some BaseAddress =>
      do Status <- (λ w, let '(Status, hw') := XIicPs_CfgInitialize BaseAddress (IicInstance w) in
                         (Done Status, log (EvCfgInitialize DeviceId Status) (set_IicInstance hw' w)));
      if negb (Status =? XST_SUCCESS) then ret XST_FAILURE
      else
        modify (λ w, log (EvSetSClk IIC_SCLK_RATE)
                         (set_IicInstance (XIicPs_SetSClk IIC_SCLK_RATE (IicInstance w)) w)) ;;
        ret XST_SUCCESS
  end.

(** The [while (Index < SLV_MON_LOOP_COUNT)] loop, which [FindEepromDevice]
    and [IicPsSlaveMonitor] both spell out, with the statements after it;
    [n] rounds are left. *)
Fixpoint slave_monitor_poll (n : nat) : M Z :=
  match n with
  | O =>
      DisableSlaveMonitor ;;
      ret XST_FAILURE
  | S n' =>
      do IntrStatusReg <- ReadReg XIICPS_ISR_OFFSET;
      if negb (Z.land IntrStatusReg XIICPS_IXR_SLV_RDY_MASK =? 0) then
        DisableSlaveMonitor ;;
        WriteReg XIICPS_ISR_OFFSET IntrStatusReg ;;
        ret XST_SUCCESS
      else slave_monitor_poll n'
  end.

(** [static s32 FindEepromDevice(u16 Address)] *)
Definition FindEepromDevice (Address : Z) : M Z :=
  EnableSlaveMonitor Address ;;
  slave_monitor_poll (Z.to_nat SLV_MON_LOOP_COUNT).

(** [static s32 IicPsSlaveMonitor(u16 Address, u16 DeviceId)] *)
Definition IicPsSlaveMonitor (Address DeviceId : Z) : M Z :=
  do Status <- IicPsConfig DeviceId;
  if negb (Status =? XST_SUCCESS) then ret XST_FAILURE
  else
    EnableSlaveMonitor Address ;;
    slave_monitor_poll (Z.to_nat SLV_MON_LOOP_COUNT).

(** [static s32 IicPsFindDevice(u16 addr, u16 DeviceId)] *)
Definition IicPsFindDevice (addr DeviceId : Z) : M Z :=
  do Status <- IicPsSlaveMonitor addr DeviceId;
  if Status =? XST_SUCCESS then ret XST_SUCCESS else ret XST_FAILURE.

(** *** Page-size detection *)

(** [u32 ps[3] = {64, 32, 16};] *)
Definition ps : list Z := [64; 32; 16].

(** The fill loop of a trial: pattern byte [Index + i] behind the address
    field, and the read buffer cleared. *)
Definition fill_pattern (PageSize_test WrBfrOffset i : Z) : M unit :=
  for_count (Z.to_nat PageSize_test) 0 (λ Index,
    WriteBuffer_store (u32 (WrBfrOffset + Index)) (u32 (Index + i)) ;;
    ReadBuffer_store Index 0).

(** The compare loop of a trial: how many bytes read back as written. *)
Fixpoint count_matches (n : nat) (Index i count : Z) : M Z :=
  match n with
  | O => ret count
  | S n' =>
      do b <- ReadBuffer_load Index;
      count_matches n' (Index + 1) i
        (if b =? u32 (Index + i) then u32 (count + 1) else count)
  end.

(** One round of the [for (i = 0; i < 3; i++)] loop of
    [FindEepromPageSize]: how the body is left, and the local [Status] as it
    leaves it (the body assigns it before it reads it).  [PageSize_ptr] is
    [&PageSize] at the one call there is. *)
Definition page_trial (i : Z) : M (Flow * Z) :=
  let Address := EEPROM_START_ADDRESS in
  let PageSize_test := default 0 (ps !! Z.to_nat i) in
  modify (set_PageSize PageSize_test) ;;
  do WrBfrOffset <- put_address PageSize_test Address;
  fill_pattern PageSize_test WrBfrOffset i ;;
  do Status <- EepromWriteData (u16 (u32 (WrBfrOffset + PageSize_test)));
  if negb (Status =? XST_SUCCESS) then ret (Return XST_FAILURE, Status)
  else
    do Status <- EepromReadData (u16 PageSize_test) Address;
    if negb (Status =? XST_SUCCESS) then ret (Return XST_FAILURE, Status)
    else
      do count <- count_matches (Z.to_nat PageSize_test) 0 i 0;
      if count =? PageSize_test then ret (Return XST_SUCCESS, Status)
      else ret (Fallthrough, Status).

(** The loop with [n] rounds left, and the [return Status;] behind it. *)
Fixpoint FindEepromPageSize_loop (n : nat) (i Status : Z) : M Z :=
  match n with
  | O => ret Status
  | S n' =>
      do '(r, Status) <- page_trial i;
      match r with
      | Return s => ret s
      | Fallthrough => FindEepromPageSize_loop n' (i + 1) Status
      end
  end.

(** [static int FindEepromPageSize(u16 EepromAddr, u32 *PageSize_ptr)] *)
Definition FindEepromPageSize (EepromAddr : Z) : M Z :=
  FindEepromPageSize_loop 3 0 XST_FAILURE.

(** *** Locating the EEPROM *)

(** [for (MuxChannel = start; MuxChannel > 0x0; MuxChannel = MuxChannel >> 1)]
    on a [u8]; a byte is zero after eight shifts, so [bits] counts down from
    8. *)
Fixpoint for_shr (bits : nat) (MuxChannel : Z) (body : Z → M Flow) : M Flow :=
  match bits with
  | O => ret Fallthrough
  | S bits' =>
      if MuxChannel >? 0 then
        do r <- body MuxChannel;
        match r with
        | Return s => ret (Return s)
        | Fallthrough => for_shr bits' (u8 (Z.shiftr MuxChannel 1)) body
        end
      else ret Fallthrough
  end.

(** One round of the channel loop of [IicPsFindEeprom]: select the channel,
    probe the EEPROM address behind it, and on a hit detect the page size.
    [Eeprom_Addr] is [&EepromSlvAddr] at the one call there is. *)
Definition try_channel (mux eeprom MuxChannel : Z) : M Flow :=
  do Status <- MuxInitChannel mux MuxChannel;
  if negb (Status =? XST_SUCCESS) then ret (Return XST_FAILURE)
  else
    do Status <- FindEepromDevice eeprom;
    if Status =? XST_SUCCESS then
      modify (set_EepromSlvAddr eeprom) ;;
      do Status <- FindEepromPageSize eeprom;
      if negb (Status =? XST_SUCCESS) then ret (Return XST_FAILURE)
      else ret (Return XST_SUCCESS)
    else ret Fallthrough.

(** The multiplexer loop of one bus instance. *)
Definition scan_muxes (DeviceId : Z) : M Flow :=
  for_sentinel MuxAddr (λ mux,
    do Status <- IicPsFindDevice mux DeviceId;
    if Status =? XST_SUCCESS then
      for_sentinel EepromAddr (λ eeprom,
        for_shr 8 MAX_CHANNELS (try_channel mux eeprom))
    else ret Fallthrough).

(** The loop over EEPROM addresses on the bus itself that follows it. *)
Definition scan_direct (DeviceId : Z) : M Flow :=
  for_sentinel EepromAddr (λ eeprom,
    do Status <- IicPsFindDevice eeprom DeviceId;
    if Status =? XST_SUCCESS then
      modify (set_EepromSlvAddr eeprom) ;;
      modify (set_PageSize PAGE_SIZE_32) ;;
      ret (Return XST_SUCCESS)
    else ret Fallthrough).

(** The body of the [DeviceId] loop. *)
Definition scan_instance (DeviceId : Z) : M Flow :=
  do r <- scan_muxes DeviceId;
  match r with
  | Return s => ret (Return s)
  | Fallthrough => scan_direct DeviceId
  end.

(** [static s32 IicPsFindEeprom(u16 *Eeprom_Addr, u32 *PageSize)], from
    [DeviceId] on with [n] instances left.  [DeviceId] is a [u16] in the
    source and is counted in [Z] here.  The two agree as long as
    [XPAR_XIICPS_NUM_INSTANCES] is below [2 ^ 16]: every value [DeviceId]
    takes is then its own [u16].  With [2 ^ 16] instances or more the
    counter of the source wraps to 0 before it reaches the bound, and a
    locator that finds nothing never leaves its loop; what is proved of a
    locator that runs through all instances carries the bound. *)
Definition IicPsFindEeprom_from (n : nat) (DeviceId : Z) : M Z :=
  do r <- for_count_flow n DeviceId scan_instance;
  match r with
  | Return s => ret s
  | Fallthrough => ret XST_FAILURE
  end.

Definition IicPsFindEeprom : M Z :=
  IicPsFindEeprom_from (Z.to_nat XPAR_XIICPS_NUM_INSTANCES) 0.

(** *** The self-test *)

(** One round of the first [page_count] loop of [IicPsEepromPolledExample].
    [Address] is the local initialised to [EEPROM_START_ADDRESS] and never
    assigned. *)
Definition write_page (page_count : Z) : M Flow :=
  let Address := EEPROM_START_ADDRESS in
  do size <- get PageSize;
  do WrBfrOffset <-
    (if size =? PAGE_SIZE_16 then
       WriteBuffer_store 0 (u8 Address) ;;
       ret 1
     else
       WriteBuffer_store 0 (Z.land (u8 (Z.shiftr (u32 (page_count * size)) 8)) 0xFF) ;;
       WriteBuffer_store 1 (Z.land (u8 (u32 (page_count * size))) 0xFF) ;;
       ret 2);
  for_count (Z.to_nat size) 0 (λ Index,
    WriteBuffer_store (u32 (WrBfrOffset + Index)) 0xFF ;;
    ReadBuffer_store Index 0) ;;
  do Status <- EepromWriteData (u16 (u32 (WrBfrOffset + size)));
  if negb (Status =? XST_SUCCESS) then ret (Return XST_FAILURE)
  else ret Fallthrough.

(** One round of the second. *)
Definition verify_page (page_count : Z) : M Flow :=
  do size <- get PageSize;
  do Status <- EepromReadData (u16 size) (u16 (u32 (page_count * size)));
  if negb (Status =? XST_SUCCESS) then ret (Return XST_FAILURE)
  else
    for_count_flow (Z.to_nat size) 0 (λ Index,
      do b <- ReadBuffer_load Index;
      if negb (b =? 0xFF) then ret (Return XST_FAILURE) else ret Fallthrough).

(** [s32 IicPsEepromPolledExample()] *)
Definition IicPsEepromPolledExample : M Z :=
  do Status <- IicPsFindEeprom;
  if negb (Status =? XST_SUCCESS) then ret XST_FAILURE
  else
    do r <- for_count_flow 256 0 write_page;
    match r with
    | Return s => ret s
    | Fallthrough =>
        do r <- for_count_flow 256 0 verify_page;
        match r with
        | Return s => ret s
        | Fallthrough => ret XST_SUCCESS
        end
    end.

(** [int main(void)] *)
Definition main : M Z :=
  do Status <- IicPsEepromPolledExample;
  if negb (Status =? XST_SUCCESS) then ret XST_FAILURE
  else ret XST_SUCCESS.

End Program.

Arguments World {Drv}.
Arguments M {Drv} A.

Notation "'do' x <- m ; k" := (bind m (λ x, k))
  (at level 10, x name, m at level 100, k at level 200).
Notation "'do' ' p <- m ; k" := (bind m (λ x, match x with p => k end))
  (at level 10, p pattern, m at level 100, k at level 200).
Notation "m ;; k" := (bind m (λ _, k))
  (at level 100, k at level 200, right associativity).

(** ** A test bench

    A driver instance to run the example on: a controller per bus instance,
    at most one multiplexer, and serial EEPROMs either on a bus itself or
    behind a multiplexer channel.  The bus is never busy and a device that
    is there acknowledges at once. *)

Module Bench.

Record Eeprom : Type := mkEeprom {
  ee_bus : Z;
  ee_addr : Z;
  (** [None]: on the bus itself; [Some c]: behind the channels of mask [c] *)
  ee_channel : option Z;
  (** width of the address pointer, in bytes *)
  ee_addr_bytes : nat;
  ee_page : Z;
  (** write-protected: a page write is acknowledged and dropped *)
  ee_protected : bool;
  ee_mem : list Z;
  ee_ptr : Z
}.

Record Mux : Type := mkMux {
  mux_bus : Z;
  mux_addr : Z;
  (** acknowledges its address but no data byte: every transfer to it fails *)
  mux_broken : bool
}.

Record Board : Type := mkBoard {
  mux : option Mux;
  eeproms : list Eeprom;
  cur_bus : Z;
  mux_reg : Z;
  monitor : option Z
}.

Definition mux_at (b : Board) (a : Z) : bool :=
  match mux b with
  | Some m => (mux_bus m =? cur_bus b) && (mux_addr m =? a)
  | None => false
  end.

Definition mux_on_bus (b : Board) : bool :=
  match mux b with
  | Some m => mux_bus m =? cur_bus b
  | None => false
  end.

Definition mux_fails (b : Board) : bool :=
  match mux b with
  | Some m => mux_broken m
  | None => false
  end.

Definition reachable (b : Board) (a : Z) (e : Eeprom) : bool :=
  (ee_addr e =? a) && (ee_bus e =? cur_bus b) &&
  match ee_channel e with
  | None => true
  | Some c => mux_on_bus b && negb (Z.land (mux_reg b) c =? 0)
  end.

Definition acks (b : Board) (a : Z) : bool :=
  mux_at b a || existsb (reachable b a) (eeproms b).

Definition next_in_page (page ptr : Z) : Z :=
  (ptr / page) * page + (ptr + 1) mod page.

Definition big_endian (bytes : list Z) : Z :=
  foldl (λ acc v, acc * 256 + v) 0 bytes.

Definition eeprom_write (bytes : list Z) (e : Eeprom) : Eeprom :=
  if (length bytes <? ee_addr_bytes e)%nat then e
  else
    let size := Z.of_nat (length (ee_mem e)) in
    let start := big_endian (take (ee_addr_bytes e) bytes) mod size in
    let '(mem, ptr) :=
      foldl (λ '(mem, ptr) v,
               ((if ee_protected e then mem else <[Z.to_nat ptr := v]> mem),
                next_in_page (ee_page e) ptr))
            (ee_mem e, start) (drop (ee_addr_bytes e) bytes) in
    mkEeprom (ee_bus e) (ee_addr e) (ee_channel e) (ee_addr_bytes e) (ee_page e)
             (ee_protected e) mem ptr.

Definition eeprom_read (n : Z) (e : Eeprom) : list Z * Eeprom :=
  let size := Z.of_nat (length (ee_mem e)) in
  ((λ k, default 0 (ee_mem e !! Z.to_nat ((ee_ptr e + Z.of_nat k) mod size))) <$> seq 0 (Z.to_nat n),
   mkEeprom (ee_bus e) (ee_addr e) (ee_channel e) (ee_addr_bytes e) (ee_page e)
            (ee_protected e) (ee_mem e) ((ee_ptr e + n) mod size)).

(** Apply [f] to the first element that satisfies [p]. *)
Fixpoint on_first {A B} (p : A → bool) (f : A → B * A) (l : list A) : option (B * list A) :=
  match l with
  | [] => None
  | x :: rest =>
      if p x then let '(r, x') := f x in Some (r, x' :: rest)
      else match on_first p f rest with
           | Some (r, rest') => Some (r, x :: rest')
           | None => None
           end
  end.

Definition set_eeproms (l : list Eeprom) (b : Board) : Board :=
  mkBoard (mux b) l (cur_bus b) (mux_reg b) (monitor b).
Definition set_cur_bus (d : Z) (b : Board) : Board :=
  mkBoard (mux b) (eeproms b) d (mux_reg b) (monitor b).
Definition set_mux_reg (v : Z) (b : Board) : Board :=
  mkBoard (mux b) (eeproms b) (cur_bus b) v (monitor b).
Definition set_monitor (m : option Z) (b : Board) : Board :=
  mkBoard (mux b) (eeproms b) (cur_bus b) (mux_reg b) m.

Definition send (bytes : list Z) (a : Z) (b : Board) : Z * Board :=
  if mux_at b a then
    if mux_fails b then (1, b) else (0, set_mux_reg (hd 0 bytes) b)
  else match on_first (reachable b a) (λ e, (tt, eeprom_write bytes e)) (eeproms b) with
       | Some (_, l) => (0, set_eeproms l b)
       | None => (1, b)
       end.

Definition recv (n a : Z) (b : Board) : Z * list Z * Board :=
  if mux_at b a then
    if mux_fails b then (1, [], b) else (0, [mux_reg b], b)
  else match on_first (reachable b a) (eeprom_read n) (eeproms b) with
       | Some (data, l) => (0, data, set_eeproms l b)
       | None => (1, [], b)
       end.

Definition read_reg (offset : Z) (b : Board) : Z * Board :=
  (match monitor b with
   | Some a => if (offset =? 0x10) && acks b a then 0x10 else 0
   | None => 0
   end, b).

(** The driver of a chip with [instances] controllers. *)
#[local] Instance driver (instances : Z) : Driver := {|
  HW := Board;
  XST_SUCCESS := 0;
  XST_FAILURE := 1;
  XST_distinct := ltac:(discriminate);
  XPAR_XIICPS_NUM_INSTANCES := instances;
  XIICPS_ISR_OFFSET := 0x10;
  XIICPS_IXR_SLV_RDY_MASK := 0x10;
  XIicPs_LookupConfig := λ d, if (0 <=? d) && (d <? instances) then Some d else None;
  XIicPs_CfgInitialize := λ base b, (0, set_monitor None (set_cur_bus base b));
  XIicPs_SetSClk := λ _ b, b;
  XIicPs_MasterSendPolled := send;
  XIicPs_MasterRecvPolled := recv;
  XIicPs_BusIsBusy := λ b, (false, b);
  XIicPs_EnableSlaveMonitor := λ a b, set_monitor (Some a) b;
  XIicPs_DisableSlaveMonitor := λ b, set_monitor None b;
  XIicPs_ReadReg := read_reg;
  XIicPs_WriteReg := λ _ _ b, b;
  usleep := λ _ b, b
|}.

(** The chip of the bench: two controllers. *)
Definition chip : Driver := driver 2.

(** The state the example starts in: zeroed globals, no call made yet. *)
Definition boot (b : Board) : World (Drv := chip) :=
  mkWorld (Drv := chip) b
          (replicate (Z.to_nat WriteBuffer_size) 0) (replicate (Z.to_nat ReadBuffer_size) 0) 0 0 [].

Definition blank (n : Z) : list Z := replicate (Z.to_nat n) 0xFF.

(** A 24C02-like part: 256 bytes, one address byte, 16-byte pages. *)
Definition small_eeprom (bus addr : Z) (channel : option Z) : Eeprom :=
  mkEeprom bus addr channel 1 16 false (blank 256) 0.

(** A 24C32-like part: 4 KiB, two address bytes, 32-byte pages. *)
Definition medium_eeprom (bus addr : Z) (channel : option Z) : Eeprom :=
  mkEeprom bus addr channel 2 32 false (blank 4096) 0.

(** A 24C128-like part: 16 KiB, two address bytes, 64-byte pages. *)
Definition large_eeprom (bus addr : Z) (channel : option Z) : Eeprom :=
  mkEeprom bus addr channel 2 64 false (blank 16384) 0.

(** The same with its write-protect pin high. *)
Definition protected_eeprom (bus addr : Z) (channel : option Z) : Eeprom :=
  mkEeprom bus addr channel 2 64 true (blank 16384) 0.

(** A 24C01-like part: 128 bytes, one address byte, 8-byte pages. *)
Definition tiny_eeprom (bus addr : Z) (channel : option Z) : Eeprom :=
  mkEeprom bus addr channel 1 8 false (blank 128) 0.

(** A 24C02-like part that has been written before (all zero). *)
Definition used_eeprom (bus addr : Z) (channel : option Z) : Eeprom :=
  mkEeprom bus addr channel 1 16 false (replicate 256 0) 0.

Definition board (m : option Mux) (l : list Eeprom) : Board :=
  mkBoard m l 0 0 None.

Definition good_mux : Mux := mkMux 0 0x74 false.
Definition bad_mux : Mux := mkMux 0 0x74 true.

(** The scenario of the specification: multiplexer at 0x74, EEPROM at 0x55
    behind its channel 2. *)
Definition scenario_board : Board :=
  board (Some good_mux) [large_eeprom 0 0x55 (Some 2)].

(** A write-protected EEPROM behind channel 4. *)
Definition protected_board : Board :=
  board (Some good_mux) [protected_eeprom 0 0x54 (Some 4)].

(** An EEPROM with 8-byte pages behind channel 4. *)
Definition tiny_board : Board :=
  board (Some good_mux) [tiny_eeprom 0 0x54 (Some 4)].

(** EEPROMs with 16-byte pages behind channel 4, blank and used. *)
Definition small_board : Board :=
  board (Some good_mux) [small_eeprom 0 0x54 (Some 4)].
Definition used_board : Board :=
  board (Some good_mux) [used_eeprom 0 0x54 (Some 4)].

(** A multiplexer that fails every transfer, and an EEPROM on the bus
    itself. *)
Definition bad_mux_board : Board :=
  board (Some bad_mux) [medium_eeprom 0 0x54 None].

(** An EEPROM on the bus itself and another behind channel 2. *)
Definition both_board : Board :=
  board (Some good_mux) [small_eeprom 0 0x54 None; large_eeprom 0 0x55 (Some 2)].


(** No multiplexer, an EEPROM at 0x55 on the bus itself. *)
Definition direct_board : Board :=
  board None [medium_eeprom 0 0x55 None].

(** Nothing on the bus. *)
Definition empty_board : Board := board None [].


(** The world in which the locator calls the detector on a board whose
    EEPROM answers at 0x54 behind channel 4 of the multiplexer on bus 0:
    multiplexer found, channel 4 selected, EEPROM found. *)
Definition detector_entry (b : Board) : World (Drv := chip) :=
  set_EepromSlvAddr 0x54
    (snd (FindEepromDevice 0x54
       (snd (MuxInitChannel 1 0x74 4
          (snd (IicPsFindDevice 0x74 0 (boot b))))))).

(** The world in which the detector is called for an EEPROM that sits at
    0x54 on the bus itself. *)
Definition direct_entry (b : Board) : World (Drv := chip) :=
  set_EepromSlvAddr 0x54 (boot b).

(** EEPROMs at 0x54 on the bus itself: one with 64-byte pages, and one
    with its write-protect pin high. *)
Definition large_direct_board : Board :=
  board None [large_eeprom 0 0x54 None].
Definition protected_direct_board : Board :=
  board None [protected_eeprom 0 0x54 None].

(** A chip on whose buses no slave ever answers: the interrupt-status
    register never shows the ready bit and every transfer fails. *)
Definition unanswered : Driver := {|
  HW := unit;
  XST_SUCCESS := 0;
  XST_FAILURE := 1;
  XST_distinct := ltac:(discriminate);
  XPAR_XIICPS_NUM_INSTANCES := 2;
  XIICPS_ISR_OFFSET := 0x10;
  XIICPS_IXR_SLV_RDY_MASK := 0x10;
  XIicPs_LookupConfig := λ d, if (0 <=? d) && (d <? 2) then Some d else None;
  XIicPs_CfgInitialize := λ _ hw, (0, hw);
  XIicPs_SetSClk := λ _ hw, hw;
  XIicPs_MasterSendPolled := λ _ _ hw, (1, hw);
  XIicPs_MasterRecvPolled := λ _ _ hw, (1, [], hw);
  XIicPs_BusIsBusy := λ hw, (false, hw);
  XIicPs_EnableSlaveMonitor := λ _ hw, hw;
  XIicPs_DisableSlaveMonitor := λ hw, hw;
  XIicPs_ReadReg := λ _ hw, (0, hw);
  XIicPs_WriteReg := λ _ _ hw, hw;
  usleep := λ _ hw, hw
|}.

Definition unanswered_boot : World (Drv := unanswered) :=
  mkWorld (Drv := unanswered) tt
          (replicate (Z.to_nat WriteBuffer_size) 0) (replicate (Z.to_nat ReadBuffer_size) 0) 0 0 [].

(** The events a run added to the trace: those of [w'] past those of [w]. *)
Definition events_since {Drv : Driver} (w w' : World) : list Event :=
  drop (length (trace w)) (trace w').

(** What a trace says of the detector's trials: the data of each read-back
    from [slave]. *)
Definition read_backs (slave : Z) (evs : list Event) : list (list Z) :=
  omap (λ e, match e with
             | EvRecv _ s _ data => if s =? slave then Some data else None
             | _ => None
             end) evs.

(** How many bytes of the read-back of trial [i] are the pattern byte
    [(k + i) mod 256] of their offset [k]. *)
Definition matching_bytes (i : Z) (data : list Z) : Z :=
  Z.of_nat (length (filter (λ '(k, b), b = u8 (Z.of_nat k + i)) (imap pair data))).

Definition trial_matches (datas : list (list Z)) : list Z :=
  imap (λ i data, matching_bytes (Z.of_nat i) data) datas.

(** The channel selections of a trace: the bytes sent to the multiplexer. *)
Definition channel_selects (mux : Z) (evs : list Event) : list (list Z) :=
  omap (λ e, match e with
             | EvSend bytes slave _ => if slave =? mux then Some bytes else None
             | _ => None
             end) evs.

(** The addresses probed in slave-monitor mode. *)
Definition probes (evs : list Event) : list Z :=
  omap (λ e, match e with EvEnableSlaveMonitor a => Some a | _ => None end) evs.


(** The statuses of the bus transfers. *)
Definition transfer_statuses (evs : list Event) : list Z :=
  omap (λ e, match e with
             | EvSend _ _ st | EvRecv _ _ st _ => Some st
             | _ => None
             end) evs.

(** The address fields of the page writes to [slave]: what precedes the
    last [size] bytes of each send longer than the address field. *)
Definition page_write_addresses (slave size : Z) (evs : list Event) : list (list Z) :=
  omap (λ e, match e with
             | EvSend bytes s _ =>
                 if (s =? slave) && (Z.to_nat size <? length bytes)%nat
                 then Some (take (length bytes - Z.to_nat size) bytes)
                 else None
             | _ => None
             end) evs.

End Bench.

(** * Vocabulary of the properties *)

Section Vocabulary.

Context `{Drv : Driver}.
Variable fuel : nat.

(** The slave-ready bit of a value read from the interrupt-status
    register. *)
Definition slave_ready (v : Z) : bool :=
  negb (Z.land v XIICPS_IXR_SLV_RDY_MASK =? 0).

(** The controller after [k] reads of the interrupt-status register, and
    what read number [k] (from 0) returns. *)
Fixpoint isr_polled (k : nat) (hw : HW) : HW :=
  match k with
  | O => hw
  | S k' => isr_polled k' (snd (XIicPs_ReadReg XIICPS_ISR_OFFSET hw))
  end.

Definition isr_value (k : nat) (hw : HW) : Z :=
  u32 (fst (XIicPs_ReadReg XIICPS_ISR_OFFSET (isr_polled k hw))).

(** Whether slave-monitor mode is on after the calls of a trace. *)
Definition monitor_mode (evs : list Event) : bool :=
  foldl (λ on e, match e with
                 | EvEnableSlaveMonitor _ => true
                 | EvDisableSlaveMonitor => false
                 | _ => on
                 end) false evs.

(** The bus transfers of a trace. *)
Definition is_transfer (e : Event) : bool :=
  match e with
  | EvSend _ _ _ | EvRecv _ _ _ _ => true
  | _ => false
  end.

Definition transfers (evs : list Event) : list Event := filter is_transfer evs.

(** Only the controller and the trace may differ. *)
Definition same_globals (w w' : World) : Prop :=
  WriteBuffer w' = WriteBuffer w ∧ ReadBuffer w' = ReadBuffer w ∧
  EepromSlvAddr w' = EepromSlvAddr w ∧ PageSize w' = PageSize w.

(** How a presence probe for [Address] ends, from a controller [hw] and a
    trace [tr], with status [st] in world [w']: success exactly when one of
    the [SLV_MON_LOOP_COUNT] reads shows the ready bit; monitor mode was
    switched on, then off, and after a ready read the status value is
    written back (which clears the bit); on a timeout nothing else happens. *)
Definition monitor_outcome (Address : Z) (hw : HW) (tr : list Event) (st : Z) (w' : World) : Prop :=
  let hw0 := XIicPs_EnableSlaveMonitor Address hw in
  (st = XST_SUCCESS ↔
     ∃ k, (k < Z.to_nat SLV_MON_LOOP_COUNT)%nat ∧ slave_ready (isr_value k hw0) = true) ∧
  (st = XST_SUCCESS ∨ st = XST_FAILURE) ∧
  monitor_mode (trace w') = false ∧
  (st = XST_SUCCESS →
     ∃ k, (k < Z.to_nat SLV_MON_LOOP_COUNT)%nat ∧
          slave_ready (isr_value k hw0) = true ∧
          (∀ j, (j < k)%nat → slave_ready (isr_value j hw0) = false) ∧
          trace w' = tr ++ [EvEnableSlaveMonitor Address; EvDisableSlaveMonitor;
                            EvWriteReg XIICPS_ISR_OFFSET (isr_value k hw0)] ∧
          IicInstance w' =
            XIicPs_WriteReg XIICPS_ISR_OFFSET (isr_value k hw0)
              (XIicPs_DisableSlaveMonitor (isr_polled (S k) hw0))) ∧
  (st = XST_FAILURE →
     trace w' = tr ++ [EvEnableSlaveMonitor Address; EvDisableSlaveMonitor] ∧
     IicInstance w' =
       XIicPs_DisableSlaveMonitor (isr_polled (Z.to_nat SLV_MON_LOOP_COUNT) hw0)).

(** However it ends, the computation only adds to the trace. *)
Definition grows {A} (m : M A) : Prop :=
  ∀ w, ∃ evs, trace (snd (m w)) = trace w ++ evs.

(** No access outside an array was made. *)
Definition in_bounds {A} (r : Res A * World) : Prop := fst r ≠ Stuck OutOfBounds.

(** A Hoare triple: from a world in [P], the computation makes no access
    outside an array, and if it finishes with [a] the world is in [Q a].
    (A run that hangs on a busy bus promises nothing more.) *)
Definition hoare {A} (P : World → Prop) (m : M A) (Q : A → World → Prop) : Prop :=
  ∀ w, P w →
    match m w with
    | (Done a, w') => Q a w'
    | (Stuck BusNeverIdle, _) => True
    | (Stuck OutOfBounds, _) => False
    end.

(** Predicates on worlds that do not look at the controller, the trace or
    the contents of the two buffers. *)
Definition stable (I : World → Prop) : Prop :=
  (∀ hw w, I w → I (set_IicInstance hw w)) ∧
  (∀ e w, I w → I (log e w)) ∧
  (∀ b w, I w → I (set_WriteBuffer b w)) ∧
  (∀ b w, I w → I (set_ReadBuffer b w)).

(** What a loop whose body may [return] establishes: [Qret] of the status
    returned, or the invariant when it falls through. *)
Definition flow_post (I : World → Prop) (Qret : Z → World → Prop) (r : Flow) (w : World) : Prop :=
  match r with
  | Return s => Qret s w
  | Fallthrough => I w
  end.

(** The page of trial [i]: byte [(k + i) mod 256] at offset [k]. *)
Definition pattern (i size : Z) : list Z := (λ k, u8 (k + i)) <$> seqZ 0 size.

(** The address pointer as it goes on the bus: one byte for 16-byte pages,
    two bytes, high first, otherwise. *)
Definition address_field (size Address : Z) : list Z :=
  if size =? PAGE_SIZE_16 then [Z.land Address 0xFF]
  else [Z.land (Z.shiftr Address 8) 0xFF; Z.land Address 0xFF].

(** The candidate of trial [i]: [ps[i]]. *)
Definition candidate (i : Z) : Z := default 0 (ps !! Z.to_nat i).

Definition page_size_ok (p : Z) : Prop :=
  p = PAGE_SIZE_16 ∨ p = PAGE_SIZE_32 ∨ p = PAGE_SIZE_64.

(** What the locator promises of the page size: a supported one whenever
    it reports success. *)
Definition located (s : Z) (w : World) : Prop :=
  s = XST_SUCCESS → page_size_ok (PageSize w).

(** Rounds that run one after the other until one returns: what the
    nested loops of the locator come to. *)
Fixpoint first_return {A} (rounds : list A) (body : A → M Flow) : M Flow :=
  match rounds with
  | [] => ret Fallthrough
  | a :: rest =>
      do r <- body a;
      match r with
      | Return s => ret (Return s)
      | Fallthrough => first_return rest body
      end
  end.

(** The rounds the two inner loops of the multiplexer loop make, in their
    order: each EEPROM candidate of [EepromAddr] with each channel value
    from [MAX_CHANNELS] down. *)
Definition channel_rounds : list (Z * Z) :=
  [(0x54, 4); (0x54, 2); (0x54, 1); (0x55, 4); (0x55, 2); (0x55, 1)].

(** C3 in the words of the specification, at one bus instance and world:
    if the multiplexer loop ends and has not found an EEPROM, the locator
    goes on from there with the probes on the bus itself. *)
Definition direct_fallback_claim (DeviceId : Z) (w : World) : Prop :=
  ∀ r w1, scan_muxes fuel DeviceId w = (Done r, w1) → r ≠ Return XST_SUCCESS →
    scan_instance fuel DeviceId w = scan_direct DeviceId w1.


(** [trials_rejected i w w']: from [w], the trials 0 to [i - 1] of the
    detector ran one after the other, each fell through to the next, and
    left the world [w']. *)
Inductive trials_rejected : Z → World → World → Prop :=
  | rejected_none w :
      trials_rejected 0 w w
  | rejected_next i w w1 Status w2 :
      trials_rejected i w w1 →
      page_trial fuel i w1 = (Done (Fallthrough, Status), w2) →
      trials_rejected (i + 1) w w2.

(** ** Whole runs

    [run_spec P m Q E]: from a world in [P], the computation leaves a world
    in [Q a] when it finishes with [a], and a world in [E] when it does not
    finish (the bus stays busy, or an access leaves an array). *)
Definition run_spec {A} (P : World → Prop) (m : M A) (Q : A → World → Prop)
    (E : World → Prop) : Prop :=
  ∀ w, P w →
    match m w with
    | (Done a, w') => Q a w'
    | (Stuck _, w') => E w'
    end.

(** The trace is [tr0] and then events that satisfy [D]. *)
Definition since (D : list Event → Prop) (tr0 : list Event) (w : World) : Prop :=
  ∃ evs, trace w = tr0 ++ evs ∧ D evs.

(** The two status codes of the example. *)
Definition two_valued (s : Z) : Prop := s = XST_SUCCESS ∨ s = XST_FAILURE.

(** The slave a transfer or a presence probe addresses. *)
Definition addressee (e : Event) : option Z :=
  match e with
  | EvSend _ s _ | EvRecv _ s _ _ => Some s
  | EvEnableSlaveMonitor a => Some a
  | _ => None
  end.

Definition addressed_to (slaves : list Z) (e : Event) : Prop :=
  match addressee e with
  | Some s => s ∈ slaves
  | None => True
  end.

(** The addresses the example knows of: the entries of [MuxAddr] and
    [EepromAddr] before their terminators. *)
Definition known_slaves : list Z :=
  filter (λ a, a ≠ 0) (MuxAddr ++ EepromAddr).

(** Slave-monitor mode along a trace: [Some on] is the mode after the
    events so far; [None] tells that the mode was switched off while off,
    or that any call but the switch-off was made while it was on. *)
Definition monitor_step (mode : option bool) (e : Event) : option bool :=
  match mode, e with
  | Some false, EvEnableSlaveMonitor _ => Some true
  | Some false, EvDisableSlaveMonitor => None
  | Some false, _ => Some false
  | Some true, EvDisableSlaveMonitor => Some false
  | Some true, _ => None
  | None, _ => None
  end.

Definition monitor_discipline (evs : list Event) : Prop :=
  foldl monitor_step (Some false) evs = Some false.

(** What the locator promises: one of the two status codes and, with
    success, an entry of [EepromAddr] before its terminator in
    [EepromSlvAddr] and a supported page size in [PageSize]. *)
Definition found_eeprom (s : Z) (w : World) : Prop :=
  two_valued s ∧
  (s = XST_SUCCESS →
   (EepromSlvAddr w ∈ EepromAddr ∧ EepromSlvAddr w ≠ 0) ∧ page_size_ok (PageSize w)).

(** The status a run returned, if it returned, is one of the two codes. *)
Definition returns_two_valued (r : Res Z * World) : Prop :=
  match fst r with
  | Done s => two_valued s
  | Stuck _ => True
  end.

(** However it ends, the computation leaves the buffers at their sizes. *)
Definition keeps_sizes {A} (m : M A) : Prop :=
  ∀ w, buffers_ok w → buffers_ok (snd (m w)).

(** The calls of a successful page write of the self-test's first pass for
    page [page_count], and of a successful page read of its second pass
    that received [data]. *)
Definition page_write_events (slave size page_count : Z) : list Event :=
  [EvSend (address_field size (if size =? PAGE_SIZE_16 then EEPROM_START_ADDRESS
                               else page_count * size) ++
           replicate (Z.to_nat size) 0xFF) slave XST_SUCCESS;
   EvUsleep 250000].

Definition page_read_events (slave size page_count : Z) (data : list Z) : list Event :=
  [EvSend (address_field size (page_count * size)) slave XST_SUCCESS;
   EvUsleep 250000;
   EvRecv size slave XST_SUCCESS data].

End Vocabulary.

(** * Facts *)

Section Facts.

Context `{Drv : Driver}.
Variable fuel : nat.

Implicit Types w : World.

(** The poll budget is sixteen million rounds: it is reasoned about, never
    unfolded. *)
Lemma SLV_MON_LOOP_COUNT_pos : ∃ n, Z.to_nat SLV_MON_LOOP_COUNT = S n.
Proof.
  exists (Nat.pred (Z.to_nat SLV_MON_LOOP_COUNT)).
  assert (0 < Z.to_nat SLV_MON_LOOP_COUNT)%nat; [|lia].
  change 0%nat with (Z.to_nat 0).
  apply Z2Nat.inj_lt; [lia | |]; unfold SLV_MON_LOOP_COUNT; lia.
Qed.

#[local] Opaque SLV_MON_LOOP_COUNT.

(** Unfolding a bind by rewriting keeps the two computations folded. *)
Lemma bind_run {A B} (m : M A) (k : A → M B) w :
  bind m k w =
  match m w with
  | (Done a, w') => k a w'
  | (Stuck f, w') => (Stuck f, w')
  end.
Proof. reflexivity. Qed.

Lemma bind_get {A B} (f : World → A) (k : A → M B) w :
  bind (get f) k w = k (f w) w.
Proof. reflexivity. Qed.

Lemma set_IicInstance_same w : set_IicInstance (IicInstance w) w = w.
Proof. by destruct w. Qed.

Lemma monitor_mode_app evs e :
  monitor_mode (evs ++ [e]) =
  match e with
  | EvEnableSlaveMonitor _ => true
  | EvDisableSlaveMonitor => false
  | _ => monitor_mode evs
  end.
Proof. unfold monitor_mode. by rewrite foldl_app. Qed.

(** ** The presence probes *)

Lemma slave_monitor_poll_S n w :
  slave_monitor_poll (S n) w =
  (do IntrStatusReg <- ReadReg XIICPS_ISR_OFFSET;
   if negb (Z.land IntrStatusReg XIICPS_IXR_SLV_RDY_MASK =? 0) then
     DisableSlaveMonitor ;; WriteReg XIICPS_ISR_OFFSET IntrStatusReg ;; ret XST_SUCCESS
   else slave_monitor_poll n) w.
Proof. reflexivity. Qed.

(** The poll loop, by induction on the rounds left: it stops at the first
    ready read, or runs out of rounds. *)
Lemma slave_monitor_poll_spec n w :
  ∃ st w', slave_monitor_poll n w = (Done st, w') ∧ same_globals w w' ∧
    ((∃ k, (k < n)%nat ∧ st = XST_SUCCESS ∧
           slave_ready (isr_value k (IicInstance w)) = true ∧
           (∀ j, (j < k)%nat → slave_ready (isr_value j (IicInstance w)) = false) ∧
           trace w' = trace w ++ [EvDisableSlaveMonitor;
                                  EvWriteReg XIICPS_ISR_OFFSET (isr_value k (IicInstance w))] ∧
           IicInstance w' =
             XIicPs_WriteReg XIICPS_ISR_OFFSET (isr_value k (IicInstance w))
               (XIicPs_DisableSlaveMonitor (isr_polled (S k) (IicInstance w)))) ∨
     (st = XST_FAILURE ∧
      (∀ j, (j < n)%nat → slave_ready (isr_value j (IicInstance w)) = false) ∧
      trace w' = trace w ++ [EvDisableSlaveMonitor] ∧
      IicInstance w' = XIicPs_DisableSlaveMonitor (isr_polled n (IicInstance w)))).
Proof.
  revert w. induction n as [|n IH]; intros w.
  - eexists _, _. split; [reflexivity|]. split; [done|]. right.
    split_and!; [done | intros j Hj; lia | done..].
  - rewrite slave_monitor_poll_S. unfold bind at 1. unfold ReadReg.
    destruct (XIicPs_ReadReg XIICPS_ISR_OFFSET (IicInstance w)) as [v hw'] eqn:Hread.
    assert (Hv : isr_value 0 (IicInstance w) = u32 v)
      by (unfold isr_value; simpl; by rewrite Hread).
    assert (Hhw : snd (XIicPs_ReadReg XIICPS_ISR_OFFSET (IicInstance w)) = hw')
      by (by rewrite Hread).
    destruct (negb (Z.land (u32 v) XIICPS_IXR_SLV_RDY_MASK =? 0)) eqn:Hrdy.
    + eexists _, _. split; [reflexivity|]. split; [done|]. left.
      exists 0%nat. rewrite Hv. simpl. rewrite Hhw.
      split_and!; [lia | done | done | intros j Hj; lia | by rewrite <- app_assoc | done].
    + destruct (IH (set_IicInstance hw' w)) as (st & w' & Hrun & Hsame & Hcase).
      exists st, w'. split; [exact Hrun|]. split; [exact Hsame|].
      simpl in Hcase.
      assert (Hshift : ∀ j, isr_value (S j) (IicInstance w) = isr_value j hw')
        by (intros j; unfold isr_value; simpl; by rewrite Hhw).
      destruct Hcase as [(k & Hk & Hst & Hr & Hbefore & Htr & Hfin) | (Hst & Hnone & Htr & Hfin)].
      * left. exists (S k). rewrite Hshift. simpl isr_polled. rewrite Hhw.
        split_and!; [lia | done | done | | done | done].
        intros [|j] Hj; [by rewrite Hv | rewrite Hshift; apply Hbefore; lia].
      * right. simpl isr_polled. rewrite Hhw.
        split_and!; [done | | done | done].
        intros [|j] Hj; [by rewrite Hv | rewrite Hshift; apply Hnone; lia].
Qed.

(** Where reading the status register changes nothing, every round of the
    poll loop sees the same value: one round decides. *)
Lemma slave_monitor_poll_stable n w v :
  XIicPs_ReadReg XIICPS_ISR_OFFSET (IicInstance w) = (v, IicInstance w) →
  slave_monitor_poll (S n) w = slave_monitor_poll 1 w.
Proof.
  intros Hst.
  rewrite !slave_monitor_poll_S. rewrite !bind_run. unfold ReadReg.
  rewrite Hst, set_IicInstance_same.
  destruct (negb _) eqn:E; [reflexivity|].
  induction n as [|n IH]; [reflexivity|].
  rewrite slave_monitor_poll_S, bind_run. unfold ReadReg.
  rewrite Hst, set_IicInstance_same, E. exact IH.
Qed.

Lemma monitor_outcome_of_poll Address w st w' :
  slave_monitor_poll (Z.to_nat SLV_MON_LOOP_COUNT)
    (log (EvEnableSlaveMonitor Address)
         (set_IicInstance (XIicPs_EnableSlaveMonitor Address (IicInstance w)) w)) = (Done st, w') →
  monitor_outcome Address (IicInstance w) (trace w) st w' ∧ same_globals w w'.
Proof.
  intros Hrun.
  destruct (slave_monitor_poll_spec (Z.to_nat SLV_MON_LOOP_COUNT)
              (log (EvEnableSlaveMonitor Address)
                (set_IicInstance (XIicPs_EnableSlaveMonitor Address (IicInstance w)) w)))
    as (st0 & w0 & Hrun0 & Hsame & Hcase).
  rewrite Hrun in Hrun0. injection Hrun0 as <- <-.
  simpl in Hcase. split; [|exact Hsame].
  unfold monitor_outcome. cbv zeta.
  destruct Hcase as [(k & Hk & -> & Hr & Hbefore & Htr & Hfin) | (-> & Hnone & Htr & Hfin)].
  - split_and!.
    + split; [intros _; by exists k | done].
    + by left.
    + rewrite Htr. unfold monitor_mode. by rewrite !foldl_app.
    + intros _. exists k. split_and!; [done..| |done].
      by rewrite Htr, <- app_assoc.
    + intros Heq. by destruct XST_distinct.
  - split_and!.
    + split; [intros Heq; by destruct XST_distinct |].
      intros (k & Hk & Hr). by rewrite Hnone in Hr.
    + by right.
    + rewrite Htr. unfold monitor_mode. by rewrite !foldl_app.
    + intros Heq. by destruct XST_distinct.
    + intros _. split; [|done]. by rewrite Htr, <- app_assoc.
Qed.

Lemma IicPsConfig_total DeviceId w :
  ∃ cfg w1, IicPsConfig DeviceId w = (Done cfg, w1) ∧ same_globals w w1 ∧
    (cfg = XST_SUCCESS ∨ cfg = XST_FAILURE) ∧
    transfers (trace w1) = transfers (trace w) ∧
    monitor_mode (trace w1) = monitor_mode (trace w).
Proof.
  unfold IicPsConfig.
  destruct (XIicPs_LookupConfig DeviceId) as [BaseAddress|].
  - unfold bind at 1.
    destruct (XIicPs_CfgInitialize BaseAddress (IicInstance w)) as [Status hw'].
    destruct (negb (Status =? XST_SUCCESS)).
    + eexists _, _. split; [reflexivity|]. split; [done|]. split; [by right|].
      simpl. unfold transfers. rewrite filter_app, monitor_mode_app. simpl.
      by rewrite app_nil_r.
    + eexists _, _. split; [reflexivity|]. split; [done|]. split; [by left|].
      simpl. unfold transfers. rewrite !filter_app, !monitor_mode_app. simpl.
      by rewrite !app_nil_r.
  - eexists _, _. split; [reflexivity|]. split; [done|]. split; [by right|]. done.
Qed.

(** C8.  A presence probe, with ([IicPsSlaveMonitor]) or without
    ([FindEepromDevice]) configuring the controller first, always returns;
    it returns success if and only if one of the [SLV_MON_LOOP_COUNT] reads
    of the interrupt-status register shows the slave-ready bit; and once it
    has switched slave-monitor mode on it switches it off before it returns,
    on success (where it then writes the status value back, clearing the
    bit) and on timeout alike.  When the configuration fails,
    [IicPsSlaveMonitor] returns failure without having touched monitor
    mode. *)
Theorem slave_monitor_contract (Address DeviceId : Z) w :
  (∃ st w', FindEepromDevice Address w = (Done st, w') ∧
     monitor_outcome Address (IicInstance w) (trace w) st w') ∧
  (∃ cfg w1 st w',
     IicPsConfig DeviceId w = (Done cfg, w1) ∧
     IicPsSlaveMonitor Address DeviceId w = (Done st, w') ∧
     if cfg =? XST_SUCCESS
     then monitor_outcome Address (IicInstance w1) (trace w1) st w'
     else st = XST_FAILURE ∧ w' = w1).
Proof.
  split.
  - unfold FindEepromDevice, bind, EnableSlaveMonitor, modify.
    destruct (slave_monitor_poll _ _) as [r w'] eqn:Hrun.
    destruct (slave_monitor_poll_spec (Z.to_nat SLV_MON_LOOP_COUNT)
                (log (EvEnableSlaveMonitor Address)
                  (set_IicInstance (XIicPs_EnableSlaveMonitor Address (IicInstance w)) w)))
      as (st & w0 & Hrun0 & _).
    rewrite Hrun in Hrun0. injection Hrun0 as -> ->.
    exists st, w0. split; [done|]. by apply monitor_outcome_of_poll.
  - destruct (IicPsConfig_total DeviceId w) as (cfg & w1 & Hcfg & _ & Hst & _).
    unfold IicPsSlaveMonitor. unfold bind at 1. rewrite Hcfg.
    exists cfg, w1.
    destruct (cfg =? XST_SUCCESS) eqn:Heq; simpl.
    + unfold bind, EnableSlaveMonitor, modify.
      destruct (slave_monitor_poll_spec (Z.to_nat SLV_MON_LOOP_COUNT)
                  (log (EvEnableSlaveMonitor Address)
                    (set_IicInstance (XIicPs_EnableSlaveMonitor Address (IicInstance w1)) w1)))
        as (st & w0 & Hrun0 & _).
      exists st, w0. split; [done|]. split; [done|].
      by apply monitor_outcome_of_poll.
    + by eexists _, _.
Qed.

(** ** Hoare rules *)

Section Rules.

Context {A B : Type}.

Lemma hoare_ret (a : A) (P : World → Prop) (Q : A → World → Prop) :
  (∀ w, P w → Q a w) → hoare P (ret a) Q.
Proof. intros H w HP. by apply H. Qed.

Lemma hoare_bind (m : M A) (k : A → M B) P Q R :
  hoare P m Q → (∀ a, hoare (Q a) (k a) R) → hoare P (bind m k) R.
Proof.
  intros Hm Hk w HP. specialize (Hm w HP). unfold bind.
  destruct (m w) as [[a|[]] w1]; [|done..].
  by apply Hk.
Qed.

Lemma hoare_conseq (m : M A) (P P' : World → Prop) (Q Q' : A → World → Prop) :
  hoare P m Q → (∀ w, P' w → P w) → (∀ a w, Q a w → Q' a w) → hoare P' m Q'.
Proof.
  intros Hm HP HQ w HP'. specialize (Hm w (HP w HP')).
  destruct (m w) as [[a|[]] w1]; [|done..]. by apply HQ.
Qed.

Lemma hoare_get (f : World → A) (P : World → Prop) :
  hoare P (get f) (λ a w, P w ∧ a = f w).
Proof. by intros w HP. Qed.

Lemma hoare_pre (m : M A) (P : World → Prop) (Q : A → World → Prop) (φ : Prop) :
  (φ → hoare P m Q) → hoare (λ w, φ ∧ P w) m Q.
Proof. intros H w [Hφ HP]. by apply H. Qed.

End Rules.

Lemma hoare_modify (f : World → World) (P : World → Prop) (Q : unit → World → Prop) :
  (∀ w, P w → Q tt (f w)) → hoare P (modify f) Q.
Proof. intros H w HP. by apply H. Qed.

Lemma stable_PageSize (p : Z) : stable (λ w, PageSize w = p).
Proof. by repeat split. Qed.

Lemma stable_EepromSlvAddr (a : Z) : stable (λ w, EepromSlvAddr w = a).
Proof. by repeat split. Qed.

Lemma stable_and (I J : World → Prop) : stable I → stable J → stable (λ w, I w ∧ J w).
Proof.
  intros (I1 & I2 & I3 & I4) (J1 & J2 & J3 & J4).
  unfold stable. split_and!; intros ? ? []; auto.
Qed.

Lemma stable_const (φ : Prop) : stable (λ _, φ).
Proof. by repeat split. Qed.

(** *** Primitives keep a stable predicate *)

Section Stable.

Variable I : World → Prop.
Hypothesis HI : stable I.

Lemma hoare_WriteBuffer_store i v :
  in_range i WriteBuffer_size = true → hoare I (WriteBuffer_store i v) (λ _, I).
Proof.
  intros Hi w HP. unfold WriteBuffer_store. rewrite Hi. by apply HI.
Qed.

Lemma hoare_ReadBuffer_store i v :
  in_range i ReadBuffer_size = true → hoare I (ReadBuffer_store i v) (λ _, I).
Proof.
  intros Hi w HP. unfold ReadBuffer_store. rewrite Hi. by apply HI.
Qed.

Lemma hoare_ReadBuffer_load i :
  in_range i ReadBuffer_size = true → hoare I (ReadBuffer_load i) (λ _, I).
Proof.
  intros Hi w HP. unfold ReadBuffer_load. by rewrite Hi.
Qed.

Lemma hoare_wait_bus_idle : hoare I (wait_bus_idle fuel) (λ _, I).
Proof.
  intros w HP. unfold wait_bus_idle.
  destruct (spin_while_busy fuel (IicInstance w)); [|done]. by apply HI.
Qed.

Lemma hoare_MasterSendPolled bytes slave : hoare I (MasterSendPolled bytes slave) (λ _, I).
Proof.
  intros w HP. unfold MasterSendPolled.
  destruct (XIicPs_MasterSendPolled bytes slave (IicInstance w)) as [st hw'].
  apply HI. by apply HI.
Qed.

Lemma hoare_MasterRecvPolled n slave : hoare I (MasterRecvPolled n slave) (λ _, I).
Proof.
  intros w HP. unfold MasterRecvPolled.
  destruct (XIicPs_MasterRecvPolled n slave (IicInstance w)) as [[st data] hw'].
  apply HI. by apply HI.
Qed.

Lemma hoare_do_usleep us : hoare I (do_usleep us) (λ _, I).
Proof. apply hoare_modify. intros w HP. apply HI. by apply HI. Qed.

Lemma hoare_MasterSendPolled_WriteBuffer n slave :
  0 ≤ n ≤ WriteBuffer_size →
  hoare I (MasterSendPolled_WriteBuffer n slave) (λ _, I).
Proof.
  intros Hn. unfold MasterSendPolled_WriteBuffer.
  replace ((0 <=? n) && (n <=? WriteBuffer_size)) with true by lia. simpl.
  eapply hoare_bind; [apply hoare_get|].
  intros bytes. eapply hoare_conseq; [apply hoare_MasterSendPolled | | done].
  by intros w [].
Qed.

Lemma hoare_MasterRecvPolled_ReadBuffer n slave :
  0 ≤ n ≤ ReadBuffer_size →
  hoare I (MasterRecvPolled_ReadBuffer n slave) (λ _, I).
Proof.
  intros Hn. unfold MasterRecvPolled_ReadBuffer.
  replace ((0 <=? n) && (n <=? ReadBuffer_size)) with true by lia. simpl.
  eapply hoare_bind; [apply hoare_MasterRecvPolled|].
  intros [st data]. apply hoare_bind with (Q := λ _, I); [|intros; by apply hoare_ret].
  apply hoare_modify. intros w HP. by apply HI.
Qed.

Lemma hoare_EnableSlaveMonitor a : hoare I (EnableSlaveMonitor a) (λ _, I).
Proof. apply hoare_modify. intros w HP. apply HI. by apply HI. Qed.

Lemma hoare_DisableSlaveMonitor : hoare I DisableSlaveMonitor (λ _, I).
Proof. apply hoare_modify. intros w HP. apply HI. by apply HI. Qed.

Lemma hoare_WriteReg offset v : hoare I (WriteReg offset v) (λ _, I).
Proof. apply hoare_modify. intros w HP. apply HI. by apply HI. Qed.

Lemma hoare_ReadReg offset : hoare I (ReadReg offset) (λ _, I).
Proof.
  intros w HP. unfold ReadReg.
  destruct (XIicPs_ReadReg offset (IicInstance w)) as [v hw']. by apply HI.
Qed.

Lemma hoare_slave_monitor_poll n : hoare I (slave_monitor_poll n) (λ _, I).
Proof.
  induction n as [|n IH].
  - simpl. eapply hoare_bind; [apply hoare_DisableSlaveMonitor|].
    intros ?. by apply hoare_ret.
  - simpl. eapply hoare_bind; [apply hoare_ReadReg|].
    intros v. destruct (negb _); [|exact IH].
    eapply hoare_bind; [apply hoare_DisableSlaveMonitor|]. intros ?.
    eapply hoare_bind; [apply hoare_WriteReg|]. intros ?.
    by apply hoare_ret.
Qed.

Lemma hoare_FindEepromDevice a : hoare I (FindEepromDevice a) (λ _, I).
Proof.
  unfold FindEepromDevice.
  eapply hoare_bind; [apply hoare_EnableSlaveMonitor|]. intros ?.
  apply hoare_slave_monitor_poll.
Qed.

Lemma hoare_IicPsConfig d : hoare I (IicPsConfig d) (λ _, I).
Proof.
  unfold IicPsConfig. destruct (XIicPs_LookupConfig d) as [base|]; [|by apply hoare_ret].
  apply hoare_bind with (Q := λ _, I).
  { intros w HP. destruct (XIicPs_CfgInitialize base (IicInstance w)) as [st hw'].
    apply HI. by apply HI. }
  intros st. destruct (negb _); [by apply hoare_ret|].
  apply hoare_bind with (Q := λ _, I); [|intros ?; by apply hoare_ret].
  apply hoare_modify. intros w HP. apply HI. by apply HI.
Qed.

Lemma hoare_IicPsFindDevice a d : hoare I (IicPsFindDevice a d) (λ _, I).
Proof.
  unfold IicPsFindDevice, IicPsSlaveMonitor.
  apply hoare_bind with (Q := λ _, I).
  { eapply hoare_bind; [apply hoare_IicPsConfig|].
    intros st. destruct (negb _); [by apply hoare_ret|].
    eapply hoare_bind; [apply hoare_EnableSlaveMonitor|]. intros ?.
    apply hoare_slave_monitor_poll. }
  intros st. destruct (st =? XST_SUCCESS); by apply hoare_ret.
Qed.

Lemma hoare_MuxInitChannel m c : hoare I (MuxInitChannel fuel m c) (λ _, I).
Proof.
  unfold MuxInitChannel.
  eapply hoare_bind; [apply hoare_wait_bus_idle|]. intros ?.
  eapply hoare_bind; [apply hoare_MasterSendPolled|]. intros st.
  destruct (negb _); [by apply hoare_ret|].
  eapply hoare_bind; [apply hoare_wait_bus_idle|]. intros ?.
  eapply hoare_bind; [apply hoare_MasterRecvPolled|]. intros [st' data].
  destruct (negb _); [by apply hoare_ret|].
  eapply hoare_bind; [apply hoare_wait_bus_idle|]. intros ?.
  by apply hoare_ret.
Qed.

(** [for] loops with a stable invariant. *)
Lemma hoare_for_count n lo (body : Z → M unit) :
  (∀ Index, lo ≤ Index < lo + Z.of_nat n → hoare I (body Index) (λ _, I)) →
  hoare I (for_count n lo body) (λ _, I).
Proof.
  revert lo. induction n as [|n IH]; intros lo Hbody.
  - by apply hoare_ret.
  - simpl. eapply hoare_bind; [apply Hbody; lia|].
    intros ?. apply IH. intros Index HIndex. apply Hbody. lia.
Qed.

Lemma hoare_for_count_flow n lo (body : Z → M Flow) :
  (∀ Index, lo ≤ Index < lo + Z.of_nat n → hoare I (body Index) (λ _, I)) →
  hoare I (for_count_flow n lo body) (λ _, I).
Proof.
  revert lo. induction n as [|n IH]; intros lo Hbody.
  - by apply hoare_ret.
  - simpl. eapply hoare_bind; [apply Hbody; lia|].
    intros [s|]; [by apply hoare_ret|].
    apply IH. intros Index HIndex. apply Hbody. lia.
Qed.

(** *** The transfer functions keep a stable predicate and stay in bounds *)

Lemma u16_small x : 0 ≤ x < 2 ^ 16 → u16 x = x.
Proof. intros. unfold u16. by apply Z.mod_small. Qed.

Lemma u32_small x : 0 ≤ x < 2 ^ 32 → u32 x = x.
Proof. intros. unfold u32. by apply Z.mod_small. Qed.

Lemma hoare_put_address size Address :
  hoare I (put_address size Address)
        (λ off w, I w ∧ (off = 1 ∨ off = 2) ∧ (size = PAGE_SIZE_16 → off = 1)).
Proof.
  unfold put_address. destruct (size =? PAGE_SIZE_16) eqn:Hsize.
  - eapply hoare_bind; [by apply hoare_WriteBuffer_store|].
    intros ?. apply hoare_ret. intros w HP. split_and!; [done | by left | done].
  - eapply hoare_bind; [by apply hoare_WriteBuffer_store|].
    intros ?. eapply hoare_bind; [by apply hoare_WriteBuffer_store|].
    intros ?. apply hoare_ret. intros w HP. split_and!; [done | by right | lia].
Qed.

Lemma hoare_EepromWriteData ByteCount :
  0 ≤ ByteCount ≤ WriteBuffer_size →
  hoare I (EepromWriteData fuel ByteCount) (λ _, I).
Proof.
  intros Hn. unfold EepromWriteData.
  eapply hoare_bind; [apply hoare_get|]. intros slave.
  apply hoare_bind with (Q := λ _, I).
  { eapply hoare_conseq; [by apply hoare_MasterSendPolled_WriteBuffer | | done].
    by intros w []. }
  intros Status. destruct (negb (Status =? XST_SUCCESS)); [by apply hoare_ret|].
  eapply hoare_bind; [apply hoare_wait_bus_idle|]. intros ?.
  eapply hoare_bind; [apply hoare_do_usleep|]. intros ?.
  by apply hoare_ret.
Qed.

Lemma hoare_EepromReadData ByteCount Address :
  0 ≤ ByteCount ≤ ReadBuffer_size →
  hoare I (EepromReadData fuel ByteCount Address) (λ _, I).
Proof.
  intros Hn. unfold EepromReadData.
  eapply hoare_bind; [apply hoare_get|]. intros size.
  apply hoare_bind with (Q := λ off w, I w ∧ (off = 1 ∨ off = 2) ∧ (size = PAGE_SIZE_16 → off = 1)).
  { eapply hoare_conseq; [apply hoare_put_address | | done]. by intros w []. }
  intros off. apply hoare_bind with (Q := λ _, I).
  { intros w (HP & Hoff & _). apply hoare_EepromWriteData; [|done].
    unfold WriteBuffer_size, sizeof_AddressType, MAX_SIZE. lia. }
  intros Status. destruct (negb (Status =? XST_SUCCESS)); [by apply hoare_ret|].
  eapply hoare_bind; [apply hoare_get|]. intros slave.
  apply hoare_bind with (Q := λ _, I).
  { eapply hoare_conseq; [by apply hoare_MasterRecvPolled_ReadBuffer | | done].
    by intros w []. }
  intros Status'. destruct (negb (Status' =? XST_SUCCESS)); [by apply hoare_ret|].
  eapply hoare_bind; [apply hoare_wait_bus_idle|]. intros ?.
  by apply hoare_ret.
Qed.

Lemma hoare_fill_pattern size off i :
  0 ≤ size ≤ MAX_SIZE → off = 1 ∨ off = 2 →
  hoare I (fill_pattern size off i) (λ _, I).
Proof.
  intros Hsize Hoff. unfold fill_pattern.
  apply hoare_for_count. intros Index HIndex.
  unfold MAX_SIZE in Hsize.
  eapply hoare_bind; [|intros ?; apply hoare_ReadBuffer_store].
  - apply hoare_WriteBuffer_store.
    rewrite u32_small by lia.
    unfold in_range, WriteBuffer_size, sizeof_AddressType, MAX_SIZE. lia.
  - unfold in_range, ReadBuffer_size, MAX_SIZE. lia.
Qed.

Lemma hoare_count_matches n Index i count :
  0 ≤ Index → Index + Z.of_nat n ≤ ReadBuffer_size →
  hoare I (count_matches n Index i count) (λ _, I).
Proof.
  revert Index count. induction n as [|n IH]; intros Index count H0 Hn.
  - by apply hoare_ret.
  - simpl. eapply hoare_bind.
    + apply hoare_ReadBuffer_load. unfold in_range. lia.
    + intros b. apply IH; lia.
Qed.

End Stable.

(** ** The page-size detector *)

Lemma candidate_range i : 0 ≤ candidate i ≤ MAX_SIZE.
Proof.
  unfold candidate, ps, MAX_SIZE.
  destruct (Z.to_nat i) as [|[|[|[|n]]]]; simpl; lia.
Qed.

Lemma candidate_ok i : 0 ≤ i < 3 → page_size_ok (candidate i).
Proof.
  intros Hi. unfold page_size_ok, PAGE_SIZE_16, PAGE_SIZE_32, PAGE_SIZE_64.
  assert (i = 0 ∨ i = 1 ∨ i = 2) as [-> | [-> | ->]] by lia; unfold candidate; simpl; lia.
Qed.

(** A trial stores its candidate first and nothing after that touches
    [PageSize]; no index leaves a buffer. *)
Lemma hoare_page_trial i :
  hoare (λ _, True) (page_trial fuel i) (λ _ w, PageSize w = candidate i).
Proof.
  pose proof (candidate_range i) as Hc. unfold MAX_SIZE in Hc.
  pose proof (stable_PageSize (candidate i)) as HI.
  unfold page_trial. fold (candidate i). cbv zeta.
  apply hoare_bind with (Q := λ _ w, PageSize w = candidate i).
  { by apply hoare_modify. }
  intros ?. eapply hoare_bind; [by apply hoare_put_address|].
  intros off. apply hoare_bind with (Q := λ _ w, (off = 1 ∨ off = 2) ∧ PageSize w = candidate i).
  { intros w (HP & Hoff & _).
    pose proof (hoare_fill_pattern _ HI (candidate i) off i Hc Hoff w HP) as H.
    by destruct (fill_pattern (candidate i) off i w) as [[?|[]] ?]. }
  intros ?. apply hoare_bind with (Q := λ _ w, PageSize w = candidate i).
  { intros w (Hoff & HP). apply hoare_EepromWriteData; [done | | done].
    rewrite u32_small, u16_small by lia.
    unfold WriteBuffer_size, sizeof_AddressType, MAX_SIZE. lia. }
  intros st. destruct (negb (st =? XST_SUCCESS)); [by apply hoare_ret|].
  eapply hoare_bind.
  { apply hoare_EepromReadData; [done|]. rewrite u16_small by lia.
    unfold ReadBuffer_size, MAX_SIZE. lia. }
  intros st'. destruct (negb (st' =? XST_SUCCESS)); [by apply hoare_ret|].
  eapply hoare_bind.
  { apply hoare_count_matches; [lia|]. unfold ReadBuffer_size, MAX_SIZE. lia. }
  intros count. destruct (count =? candidate i); by apply hoare_ret.
Qed.

Lemma page_trial_PageSize i w r w' :
  page_trial fuel i w = (Done r, w') → PageSize w' = candidate i.
Proof.
  intros Hrun. pose proof (hoare_page_trial i w I) as H.
  by rewrite Hrun in H.
Qed.

Lemma hoare_FindEepromPageSize_loop n i Status :
  0 ≤ i → i + Z.of_nat n ≤ 3 →
  hoare (λ w, n = 0%nat → page_size_ok (PageSize w))
        (FindEepromPageSize_loop fuel n i Status)
        (λ _ w, page_size_ok (PageSize w)).
Proof.
  revert i Status. induction n as [|n IH]; intros i Status Hi Hn.
  - apply hoare_ret. auto.
  - simpl. apply hoare_bind with (Q := λ _ w, page_size_ok (PageSize w)).
    + eapply hoare_conseq; [apply hoare_page_trial | done |].
      intros _ w ->. apply candidate_ok. lia.
    + intros [[s|] Status']; [by apply hoare_ret|].
      eapply hoare_conseq; [apply IH; lia | | done]. by intros w Hw _.
Qed.

Lemma hoare_FindEepromPageSize EepromAddr :
  hoare (λ _, True) (FindEepromPageSize fuel EepromAddr)
        (λ _ w, page_size_ok (PageSize w)).
Proof.
  unfold FindEepromPageSize.
  eapply hoare_conseq; [apply (hoare_FindEepromPageSize_loop 3 0); lia | | done].
  intros w _ Heq. lia.
Qed.

(** ** Loops that may return *)

Section FlowLoops.

Variable I : World → Prop.
Variable Qret : Z → World → Prop.

Lemma hoare_flow_for_count n lo (body : Z → M Flow) :
  (∀ Index, lo ≤ Index < lo + Z.of_nat n → hoare I (body Index) (flow_post I Qret)) →
  hoare I (for_count_flow n lo body) (flow_post I Qret).
Proof.
  revert lo. induction n as [|n IH]; intros lo Hbody.
  - by apply hoare_ret.
  - simpl. eapply hoare_bind; [apply Hbody; lia|].
    intros [s|]; [by apply hoare_ret|].
    apply IH. intros Index HIndex. apply Hbody. lia.
Qed.

Lemma hoare_flow_for_sentinel arr (body : Z → M Flow) :
  0 ∈ arr →
  (∀ a, hoare I (body a) (flow_post I Qret)) →
  hoare I (for_sentinel arr body) (flow_post I Qret).
Proof.
  intros Hin Hbody. induction arr as [|a rest IH].
  - by apply not_elem_of_nil in Hin.
  - simpl. destruct (a =? 0) eqn:Ha; [by apply hoare_ret|].
    eapply hoare_bind; [apply Hbody|].
    intros [s|]; [by apply hoare_ret|].
    apply IH. apply elem_of_cons in Hin as [Heq|]; [lia | done].
Qed.

Lemma hoare_flow_for_shr bits ch (body : Z → M Flow) :
  (∀ c, hoare I (body c) (flow_post I Qret)) →
  hoare I (for_shr bits ch body) (flow_post I Qret).
Proof.
  intros Hbody. revert ch. induction bits as [|bits IH]; intros ch.
  - by apply hoare_ret.
  - simpl. destruct (ch >? 0); [|by apply hoare_ret].
    eapply hoare_bind; [apply Hbody|].
    intros [s|]; [by apply hoare_ret|]. apply IH.
Qed.

End FlowLoops.

(** ** The locator never leaves an array and, when it succeeds, leaves a
    supported page size *)

Lemma hoare_try_channel m e c :
  hoare (λ _, True) (try_channel fuel m e c) (flow_post (λ _, True) located).
Proof.
  unfold try_channel.
  eapply hoare_bind; [apply hoare_MuxInitChannel, stable_const|]. intros st.
  destruct (negb _); [apply hoare_ret; intros w _ Heq; by destruct XST_distinct|].
  eapply hoare_bind; [apply hoare_FindEepromDevice, stable_const|]. intros st'.
  destruct (st' =? XST_SUCCESS); [|by apply hoare_ret].
  apply hoare_bind with (Q := λ _ _, True); [by apply hoare_modify|]. intros ?.
  eapply hoare_bind; [apply hoare_FindEepromPageSize|]. intros st''.
  destruct (negb _); apply hoare_ret; intros w Hok Heq; [by destruct XST_distinct | done].
Qed.

Lemma hoare_scan_muxes d :
  hoare (λ _, True) (scan_muxes fuel d) (flow_post (λ _, True) located).
Proof.
  unfold scan_muxes. apply hoare_flow_for_sentinel.
  { unfold MuxAddr. rewrite !elem_of_cons. auto. }
  intros m. eapply hoare_bind; [apply hoare_IicPsFindDevice, stable_const|].
  intros st. destruct (st =? XST_SUCCESS); [|by apply hoare_ret].
  apply hoare_flow_for_sentinel.
  { unfold EepromAddr. rewrite !elem_of_cons. auto. }
  intros e. apply hoare_flow_for_shr. intros c. apply hoare_try_channel.
Qed.

Lemma hoare_scan_direct d :
  hoare (λ _, True) (scan_direct d) (flow_post (λ _, True) located).
Proof.
  unfold scan_direct. apply hoare_flow_for_sentinel.
  { unfold EepromAddr. rewrite !elem_of_cons. auto. }
  intros e. eapply hoare_bind; [apply hoare_IicPsFindDevice, stable_const|].
  intros st. destruct (st =? XST_SUCCESS); [|by apply hoare_ret].
  apply hoare_bind with (Q := λ _ _, True); [by apply hoare_modify|]. intros ?.
  apply hoare_bind with (Q := λ _ w, PageSize w = PAGE_SIZE_32); [by apply hoare_modify|].
  intros ?. apply hoare_ret. intros w Hps _. right. by left.
Qed.

Lemma hoare_IicPsFindEeprom_from n d :
  hoare (λ _, True) (IicPsFindEeprom_from fuel n d) located.
Proof.
  unfold IicPsFindEeprom_from.
  apply hoare_bind with (Q := flow_post (λ _, True) located).
  - apply hoare_flow_for_count. intros DeviceId _. unfold scan_instance.
    eapply hoare_bind; [apply hoare_scan_muxes|].
    intros [s|]; [by apply hoare_ret | apply hoare_scan_direct].
  - intros [s|]; apply hoare_ret; [done|].
    intros w _ Heq. by destruct XST_distinct.
Qed.

(** ** The self-test *)

Lemma stable_page_size_ok : stable (λ w, page_size_ok (PageSize w)).
Proof. by repeat split. Qed.

Lemma hoare_write_page page_count :
  hoare (λ w, page_size_ok (PageSize w)) (write_page fuel page_count)
        (λ _ w, page_size_ok (PageSize w)).
Proof.
  pose proof stable_page_size_ok as HI.
  unfold write_page. cbv zeta.
  eapply hoare_bind; [apply hoare_get|]. intros size. cbv beta.
  apply hoare_conseq with
    (P := λ w, page_size_ok size ∧ page_size_ok (PageSize w))
    (Q := λ _ w, page_size_ok (PageSize w)); [|by intros w [? ->] | done].
  apply hoare_pre. intros Hsize.
  assert (0 ≤ size ≤ MAX_SIZE) as Hrange
    by (unfold page_size_ok, PAGE_SIZE_16, PAGE_SIZE_32, PAGE_SIZE_64, MAX_SIZE in *; lia).
  apply hoare_bind with
    (Q := λ off w, (off = 1 ∨ off = 2) ∧ page_size_ok (PageSize w)).
  { destruct (size =? PAGE_SIZE_16).
    - eapply hoare_bind; [by apply hoare_WriteBuffer_store|]. intros ?.
      apply hoare_ret. intros w Hw. split; [by left | done].
    - eapply hoare_bind; [by apply hoare_WriteBuffer_store|]. intros ?.
      eapply hoare_bind; [by apply hoare_WriteBuffer_store|]. intros ?.
      apply hoare_ret. intros w Hw. split; [by right | done]. }
  intros off. apply hoare_pre. intros Hoff. unfold MAX_SIZE in Hrange.
  eapply hoare_bind.
  { apply hoare_for_count. intros Index HIndex.
    eapply hoare_bind; [|intros ?; apply hoare_ReadBuffer_store; [done|]].
    - apply hoare_WriteBuffer_store; [done|]. rewrite u32_small by lia.
      unfold in_range, WriteBuffer_size, sizeof_AddressType, MAX_SIZE. lia.
    - unfold in_range, ReadBuffer_size, MAX_SIZE. lia. }
  intros ?. eapply hoare_bind.
  { apply hoare_EepromWriteData; [done|]. rewrite u32_small, u16_small by lia.
    unfold WriteBuffer_size, sizeof_AddressType, MAX_SIZE. lia. }
  intros st. destruct (negb _); by apply hoare_ret.
Qed.

Lemma hoare_verify_page page_count :
  hoare (λ w, page_size_ok (PageSize w)) (verify_page fuel page_count)
        (λ _ w, page_size_ok (PageSize w)).
Proof.
  pose proof stable_page_size_ok as HI.
  unfold verify_page.
  eapply hoare_bind; [apply hoare_get|]. intros size. cbv beta.
  apply hoare_conseq with
    (P := λ w, page_size_ok size ∧ page_size_ok (PageSize w))
    (Q := λ _ w, page_size_ok (PageSize w)); [|by intros w [? ->] | done].
  apply hoare_pre. intros Hsize.
  assert (0 ≤ size ≤ 64) as Hrange
    by (unfold page_size_ok, PAGE_SIZE_16, PAGE_SIZE_32, PAGE_SIZE_64 in *; lia).
  eapply hoare_bind.
  { apply hoare_EepromReadData; [done|]. rewrite u16_small by lia.
    unfold ReadBuffer_size, MAX_SIZE. lia. }
  intros st. destruct (negb _); [by apply hoare_ret|].
  apply hoare_for_count_flow. intros Index HIndex.
  eapply hoare_bind.
  { apply hoare_ReadBuffer_load. unfold in_range, ReadBuffer_size, MAX_SIZE. lia. }
  intros b. destruct (negb _); by apply hoare_ret.
Qed.

Lemma hoare_IicPsEepromPolledExample :
  hoare (λ _, True) (IicPsEepromPolledExample fuel) (λ _ _, True).
Proof.
  pose proof stable_page_size_ok as HI.
  unfold IicPsEepromPolledExample, IicPsFindEeprom.
  eapply hoare_bind; [apply hoare_IicPsFindEeprom_from|]. intros st.
  destruct (negb (st =? XST_SUCCESS)) eqn:Hst; [by apply hoare_ret|].
  apply hoare_conseq with
    (P := λ w, page_size_ok (PageSize w)) (Q := λ _ _, True);
    [| intros w Hloc; apply Hloc; lia | done].
  eapply hoare_bind.
  { apply hoare_for_count_flow. intros. apply hoare_write_page. }
  intros [s|]; [by apply hoare_ret|].
  eapply hoare_bind.
  { apply hoare_for_count_flow. intros. apply hoare_verify_page. }
  intros [s|]; by apply hoare_ret.
Qed.

Lemma FindEepromPageSize_loop_S n i Status w :
  FindEepromPageSize_loop fuel (S n) i Status w =
  (do '(r, Status) <- page_trial fuel i;
   match r with
   | Return s => ret s
   | Fallthrough => FindEepromPageSize_loop fuel n (i + 1) Status
   end) w.
Proof. reflexivity. Qed.

Lemma FindEepromPageSize_unfold EepromAddr :
  FindEepromPageSize fuel EepromAddr = FindEepromPageSize_loop fuel 3 0 XST_FAILURE.
Proof. reflexivity. Qed.

Lemma last_trial_leaves_candidate i w w_i r Status st w' :
  0 ≤ i < 3 → trials_rejected fuel i w w_i →
  page_trial fuel i w_i = (Done (r, Status), w') →
  (r = Return st ∨ (r = Fallthrough ∧ i = 2 ∧ st = Status)) →
  ∃ i w_i r Status,
    0 ≤ i < 3 ∧ trials_rejected fuel i w w_i ∧
    page_trial fuel i w_i = (Done (r, Status), w') ∧
    (r = Return st ∨ (r = Fallthrough ∧ i = 2 ∧ st = Status)) ∧
    PageSize w' = candidate i ∧
    (PageSize w' = 64 ∨ PageSize w' = 32 ∨ PageSize w' = 16).
Proof.
  intros Hi Hrej Htrial Hr.
  exists i, w_i, r, Status.
  pose proof (page_trial_PageSize _ _ _ _ Htrial) as Hps.
  pose proof (candidate_ok i Hi) as Hok.
  unfold page_size_ok, PAGE_SIZE_16, PAGE_SIZE_32, PAGE_SIZE_64 in Hok.
  split_and!; [lia | lia | done..|]. lia.
Qed.

(** C10.  Whenever the page-size detector returns, with whatever status,
    [PageSize] (the location its output pointer designates) holds the
    candidate of the last trial that ran: the trials before it all fell
    through, trial [i] ended the run by a [return] of its own or, being the
    third, by leaving the loop, and [PageSize] is [ps[i]], one of 64, 32 and
    16, whatever it was before the call. *)
Theorem detector_leaves_last_candidate (EepromAddr : Z) w (st : Z) w' :
  FindEepromPageSize fuel EepromAddr w = (Done st, w') →
  ∃ i w_i r Status,
    0 ≤ i < 3 ∧
    trials_rejected fuel i w w_i ∧
    page_trial fuel i w_i = (Done (r, Status), w') ∧
    (r = Return st ∨ (r = Fallthrough ∧ i = 2 ∧ st = Status)) ∧
    PageSize w' = candidate i ∧
    (PageSize w' = 64 ∨ PageSize w' = 32 ∨ PageSize w' = 16).
Proof.
  intros Hrun.
  rewrite FindEepromPageSize_unfold, FindEepromPageSize_loop_S, bind_run in Hrun.
  destruct (page_trial fuel 0 w) as [[[r0 s0]|f] w1] eqn:E0; [|done].
  destruct r0 as [s|].
  { injection Hrun as <- <-.
    eapply (last_trial_leaves_candidate 0); [lia | constructor | exact E0 | by left]. }
  assert (Hrej1 : trials_rejected fuel (0 + 1) w w1)
    by (econstructor; [constructor | exact E0]).
  rewrite FindEepromPageSize_loop_S, bind_run in Hrun.
  replace (0 + 1) with 1 in Hrun, Hrej1 by lia.
  destruct (page_trial fuel 1 w1) as [[[r1 s1]|f] w2] eqn:E1; [|done].
  destruct r1 as [s|].
  { injection Hrun as <- <-.
    eapply (last_trial_leaves_candidate 1); [lia | exact Hrej1 | exact E1 | by left]. }
  assert (Hrej2 : trials_rejected fuel (1 + 1) w w2)
    by (econstructor; [exact Hrej1 | exact E1]).
  rewrite FindEepromPageSize_loop_S, bind_run in Hrun.
  replace (1 + 1) with 2 in Hrun, Hrej2 by lia.
  destruct (page_trial fuel 2 w2) as [[[r2 s2]|f] w3] eqn:E2; [|done].
  destruct r2 as [s|]; injection Hrun as <- <-.
  - eapply (last_trial_leaves_candidate 2); [lia | exact Hrej2 | exact E2 | by left].
  - eapply (last_trial_leaves_candidate 2); [lia | exact Hrej2 | exact E2 |].
    right. split_and!; reflexivity.
Qed.

(** ** What ends a trial, and what the detector returns when none accepts *)

Lemma count_matches_pure n Index i count w r w' :
  count_matches n Index i count w = (r, w') → w' = w.
Proof.
  revert Index count. induction n as [|n IH]; intros Index count Hrun.
  - by injection Hrun as _ <-.
  - simpl in Hrun. rewrite bind_run in Hrun. unfold ReadBuffer_load at 1 in Hrun.
    destruct (in_range Index ReadBuffer_size); [by eapply IH|].
    by injection Hrun as _ <-.
Qed.

(** A trial that returns at all either reports a failed transfer, or both
    its transfers succeeded, [Status] holds [XST_SUCCESS], and it accepts
    when all bytes of the read-back match and falls through when not. *)
Lemma page_trial_verdict i w r Status w' :
  page_trial fuel i w = (Done (r, Status), w') →
  r = Return XST_FAILURE ∨
  (Status = XST_SUCCESS ∧
   ∃ count, count_matches (Z.to_nat (candidate i)) 0 i 0 w' = (Done count, w') ∧
            r = if count =? candidate i then Return XST_SUCCESS else Fallthrough).
Proof.
  intros Hrun. unfold page_trial in Hrun. cbv zeta in Hrun. fold (candidate i) in Hrun.
  rewrite bind_run in Hrun. unfold modify at 1 in Hrun. cbv iota beta in Hrun.
  rewrite bind_run in Hrun.
  destruct (put_address _ _ _) as [[off|f] w1]; [|done].
  rewrite bind_run in Hrun.
  destruct (fill_pattern _ _ _ _) as [[[]|f] w2]; [|done].
  rewrite bind_run in Hrun.
  destruct (EepromWriteData _ _ _) as [[st1|f] w3]; [|done].
  destruct (negb (st1 =? XST_SUCCESS)).
  { injection Hrun as <- _ _. by left. }
  rewrite bind_run in Hrun.
  destruct (EepromReadData _ _ _ _) as [[st2|f] w4]; [|done].
  destruct (negb (st2 =? XST_SUCCESS)) eqn:Hst2.
  { injection Hrun as <- _ _. by left. }
  apply negb_false_iff, Z.eqb_eq in Hst2. subst st2.
  rewrite bind_run in Hrun.
  destruct (count_matches _ _ _ _ _) as [[count|f] w5] eqn:Hcount; [|done].
  pose proof (count_matches_pure _ _ _ _ _ _ _ Hcount) as ->.
  right. destruct (count =? candidate i) eqn:Hacc; injection Hrun as <- <- <-;
    (split; [done|]; exists count; by rewrite Hcount, Hacc).
Qed.

Lemma trials_rejected_nonneg i w w' : trials_rejected fuel i w w' → 0 ≤ i.
Proof. induction 1; lia. Qed.

(** When each of the three trials has been rejected, the detector returns
    [XST_SUCCESS]: the [Status] it returns behind the loop is that of the
    last read. *)
Lemma detector_exhausted_returns_success EepromAddr w w' :
  trials_rejected fuel 3 w w' →
  FindEepromPageSize fuel EepromAddr w = (Done XST_SUCCESS, w').
Proof.
  intros H3.
  inversion H3 as [|i2 ? w2 s2 ? H2 E2 Hi2]; subst.
  assert (i2 = 2) as -> by lia.
  inversion H2 as [|i1 ? w1 s1 ? H1 E1 Hi1]; subst.
  assert (i1 = 1) as -> by lia.
  inversion H1 as [|i0 ? w0 s0 ? H0 E0 Hi0]; subst.
  assert (i0 = 0) as -> by lia.
  inversion H0 as [|i ? ? ? ? Hneg ? Hi]; subst;
    [|apply trials_rejected_nonneg in Hneg; lia].
  destruct (page_trial_verdict _ _ _ _ _ E2) as [|[-> _]]; [done|].
  rewrite FindEepromPageSize_unfold, FindEepromPageSize_loop_S, bind_run, E0.
  cbv iota beta. rewrite FindEepromPageSize_loop_S, bind_run.
  replace (0 + 1) with 1 by lia. rewrite E1.
  cbv iota beta. rewrite FindEepromPageSize_loop_S, bind_run.
  replace (1 + 1) with 2 by lia. rewrite E2.
  reflexivity.
Qed.

Lemma hoare_in_bounds {A} (P : World → Prop) (m : M A) Q w :
  hoare P m Q → P w → in_bounds (m w).
Proof.
  intros Hm HP. specialize (Hm w HP). unfold in_bounds.
  by destruct (m w) as [[a|[]] w'].
Qed.

(** C9.  A store into [WriteBuffer] or [ReadBuffer] counts as out of bounds
    exactly when its index is not below the declared size (2 + 64 and 64).
    With a page size of 16, 32 or 64 in [PageSize], no access of the
    detector, of a page write or read, of either pass of the self-test or
    of the self-test as a whole is out of bounds. *)
Theorem buffers_never_overrun w :
  page_size_ok (PageSize w) →
  (∀ i v w0, in_bounds (WriteBuffer_store i v w0) ↔ 0 ≤ i < sizeof_AddressType + MAX_SIZE) ∧
  (∀ i v w0, in_bounds (ReadBuffer_store i v w0) ↔ 0 ≤ i < MAX_SIZE) ∧
  (∀ EepromAddr, in_bounds (FindEepromPageSize fuel EepromAddr w)) ∧
  (∀ WrBfrOffset, WrBfrOffset = 1 ∨ WrBfrOffset = 2 →
     in_bounds (EepromWriteData fuel (u16 (u32 (WrBfrOffset + PageSize w))) w)) ∧
  (∀ Address, in_bounds (EepromReadData fuel (u16 (PageSize w)) Address w)) ∧
  in_bounds (for_count_flow 256 0 (write_page fuel) w) ∧
  in_bounds (for_count_flow 256 0 (verify_page fuel) w) ∧
  in_bounds (IicPsEepromPolledExample fuel w).
Proof.
  intros Hok.
  assert (0 ≤ PageSize w ≤ 64) as Hrange
    by (unfold page_size_ok, PAGE_SIZE_16, PAGE_SIZE_32, PAGE_SIZE_64 in Hok; lia).
  split_and!.
  - intros i v w0. unfold in_bounds, WriteBuffer_store, in_range, WriteBuffer_size.
    destruct ((0 <=? i) && (i <? sizeof_AddressType + MAX_SIZE)) eqn:Hi; simpl.
    + split; [intros _; lia | done].
    + split; [done | intros; lia].
  - intros i v w0. unfold in_bounds, ReadBuffer_store, in_range, ReadBuffer_size.
    destruct ((0 <=? i) && (i <? MAX_SIZE)) eqn:Hi; simpl.
    + split; [intros _; lia | done].
    + split; [done | intros; lia].
  - intros a. by eapply hoare_in_bounds; [apply hoare_FindEepromPageSize|].
  - intros off Hoff.
    eapply hoare_in_bounds with (P := λ _, True); [|done].
    apply hoare_EepromWriteData; [apply stable_const|].
    rewrite u32_small, u16_small by lia.
    unfold WriteBuffer_size, sizeof_AddressType, MAX_SIZE. lia.
  - intros Address.
    eapply hoare_in_bounds with (P := λ _, True); [|done].
    apply hoare_EepromReadData; [apply stable_const|].
    rewrite u16_small by lia. unfold ReadBuffer_size, MAX_SIZE. lia.
  - eapply hoare_in_bounds with (P := λ w, page_size_ok (PageSize w)); [|exact Hok].
    apply hoare_for_count_flow. intros. apply hoare_write_page.
  - eapply hoare_in_bounds with (P := λ w, page_size_ok (PageSize w)); [|exact Hok].
    apply hoare_for_count_flow. intros. apply hoare_verify_page.
  - by eapply hoare_in_bounds; [apply hoare_IicPsEepromPolledExample|].
Qed.

(** ** The address field of a page read *)

Lemma u8_low_byte x : u8 (u8 x) = Z.land x 0xFF.
Proof.
  unfold u8. rewrite Z.mod_mod by lia.
  change 0xFF with (Z.ones 8). by rewrite Z.land_ones by lia.
Qed.

Lemma u8_high_byte x : 0 ≤ x < 2 ^ 16 → u8 (u8 (Z.shiftr x 8)) = Z.shiftr x 8.
Proof.
  intros Hx. unfold u8. rewrite Z.mod_mod by lia.
  rewrite Z.shiftr_div_pow2 by lia. apply Z.mod_small.
  split; [apply Z.div_pos; lia | apply Z.div_lt_upper_bound; lia].
Qed.

Lemma put_address_run size Address w :
  put_address size Address w =
  if size =? PAGE_SIZE_16 then
    (Done 1, set_WriteBuffer (<[0%nat := u8 (u8 Address)]> (WriteBuffer w)) w)
  else
    (Done 2, set_WriteBuffer
               (<[1%nat := u8 (u8 Address)]>
                  (<[0%nat := u8 (u8 (Z.shiftr Address 8))]> (WriteBuffer w))) w).
Proof. unfold put_address. by destruct (size =? PAGE_SIZE_16). Qed.

(** What [EepromWriteData] puts on the bus first, whatever comes after. *)
Lemma EepromWriteData_sent ByteCount w :
  0 ≤ ByteCount ≤ WriteBuffer_size →
  ∃ st evs,
    trace (snd (EepromWriteData fuel ByteCount w)) =
      trace w ++ EvSend (take (Z.to_nat ByteCount) (WriteBuffer w)) (EepromSlvAddr w) st :: evs ∧
    WriteBuffer (snd (EepromWriteData fuel ByteCount w)) = WriteBuffer w ∧
    EepromSlvAddr (snd (EepromWriteData fuel ByteCount w)) = EepromSlvAddr w.
Proof.
  intros Hn. unfold EepromWriteData, MasterSendPolled_WriteBuffer.
  replace ((0 <=? ByteCount) && (ByteCount <=? WriteBuffer_size)) with true by lia.
  unfold bind, get, MasterSendPolled, wait_bus_idle, do_usleep, modify, ret. simpl.
  destruct (XIicPs_MasterSendPolled _ _ _) as [st hw'].
  exists st. destruct (negb (st =? XST_SUCCESS)); simpl.
  { by exists []. }
  destruct (spin_while_busy fuel hw') as [hw''|]; simpl.
  - exists [EvUsleep 250000]. by rewrite <- app_assoc.
  - by exists [].
Qed.

(** The rest of [EepromReadData] only adds to the trace and leaves
    [WriteBuffer] alone. *)
Lemma EepromReadData_rest ByteCount (Status : Z) w :
  let w' := snd ((if negb (Status =? XST_SUCCESS) then ret XST_FAILURE
                  else do slave <- get EepromSlvAddr;
                       do Status <- MasterRecvPolled_ReadBuffer ByteCount slave;
                       if negb (Status =? XST_SUCCESS) then ret XST_FAILURE
                       else wait_bus_idle fuel ;; ret XST_SUCCESS) w) in
  WriteBuffer w' = WriteBuffer w ∧ ∃ evs, trace w' = trace w ++ evs.
Proof.
  cbv zeta. destruct (negb (Status =? XST_SUCCESS)).
  { split; [done|]. exists []. by rewrite app_nil_r. }
  unfold MasterRecvPolled_ReadBuffer.
  destruct (negb ((0 <=? ByteCount) && (ByteCount <=? ReadBuffer_size))).
  { split; [done|]. exists []. by rewrite app_nil_r. }
  unfold bind, get, MasterRecvPolled, wait_bus_idle, modify, ret. simpl.
  destruct (XIicPs_MasterRecvPolled _ _ _) as [[st data] hw']. simpl.
  destruct (negb (st =? XST_SUCCESS)); simpl.
  { split; [done|]. by eexists. }
  destruct (spin_while_busy fuel hw') as [hw''|]; simpl; (split; [done|]; by eexists).
Qed.

(** C5.  A page read encodes its target address ([u16]) at the head of
    [WriteBuffer] and sends just that: with a page size of 16 one byte, the
    low byte of the address; with a page size of 32 or 64 two bytes, the
    high byte [Address >> 8] first and the low byte [Address & 0xFF]
    second.  This holds however the read goes on after that. *)
Theorem read_address_encoding (ByteCount Address : Z) w :
  0 ≤ Address < 2 ^ 16 → buffers_ok w →
  let w' := snd (EepromReadData fuel ByteCount Address w) in
  (PageSize w = PAGE_SIZE_16 →
     take 1 (WriteBuffer w') = [Z.land Address 0xFF] ∧
     ∃ st evs, trace w' =
       trace w ++ EvSend [Z.land Address 0xFF] (EepromSlvAddr w) st :: evs) ∧
  (PageSize w = PAGE_SIZE_32 ∨ PageSize w = PAGE_SIZE_64 →
     take 2 (WriteBuffer w') = [Z.shiftr Address 8; Z.land Address 0xFF] ∧
     ∃ st evs, trace w' =
       trace w ++ EvSend [Z.shiftr Address 8; Z.land Address 0xFF] (EepromSlvAddr w) st :: evs).
Proof.
  intros HA [Hwb _]. cbv zeta.
  assert (Hstep : ∀ off w1,
    (off = 1 ∨ off = 2) → EepromSlvAddr w1 = EepromSlvAddr w → trace w1 = trace w →
    let w' := snd ((do Status <- EepromWriteData fuel off;
                    if negb (Status =? XST_SUCCESS) then ret XST_FAILURE
                    else do slave <- get EepromSlvAddr;
                         do Status <- MasterRecvPolled_ReadBuffer ByteCount slave;
                         if negb (Status =? XST_SUCCESS) then ret XST_FAILURE
                         else wait_bus_idle fuel ;; ret XST_SUCCESS) w1) in
    WriteBuffer w' = WriteBuffer w1 ∧
    ∃ st evs, trace w' =
      trace w ++ EvSend (take (Z.to_nat off) (WriteBuffer w1)) (EepromSlvAddr w) st :: evs).
  { intros off w1 Hoff Haddr Htr. cbv zeta.
    destruct (EepromWriteData_sent off w1) as (st & evs & Hsent & Hkeep & _).
    { unfold WriteBuffer_size, sizeof_AddressType, MAX_SIZE. lia. }
    rewrite bind_run.
    destruct (EepromWriteData fuel off w1) as [[Status|f] w2]; simpl in Hsent, Hkeep.
    - pose proof (EepromReadData_rest ByteCount Status w2) as [Hwb2 [evs2 Htr2]].
      cbv zeta in Hwb2, Htr2. split; [by rewrite Hwb2|].
      exists st, (evs ++ evs2). rewrite Htr2, Hsent, Htr, Haddr.
      by rewrite <- app_assoc.
    - simpl. split; [done|]. exists st, evs. by rewrite Hsent, Htr, Haddr. }
  unfold buffers_ok, WriteBuffer_size, sizeof_AddressType, MAX_SIZE in Hwb.
  destruct (WriteBuffer w) as [|b0 [|b1 wb]] eqn:Hbuf; [simpl in Hwb; lia..|].
  unfold EepromReadData. rewrite bind_get, bind_run, put_address_run. split.
  - intros Hps. rewrite Hps. simpl (_ =? _). cbv beta iota.
    match goal with |- context [snd (?m ?w1)] =>
      pose proof (Hstep 1 w1 (or_introl eq_refl) eq_refl eq_refl) as [Hkeep Hsent] end.
    cbv zeta in Hkeep, Hsent. rewrite Hkeep.
    simpl in Hsent. rewrite Hbuf in Hsent |- *. simpl in Hsent |- *.
    rewrite u8_low_byte in Hsent |- *. by split.
  - intros Hps.
    replace (PageSize w =? PAGE_SIZE_16) with false
      by (unfold PAGE_SIZE_16, PAGE_SIZE_32, PAGE_SIZE_64 in *; lia).
    cbv beta iota.
    match goal with |- context [snd (?m ?w1)] =>
      pose proof (Hstep 2 w1 (or_intror eq_refl) eq_refl eq_refl) as [Hkeep Hsent] end.
    cbv zeta in Hkeep, Hsent. rewrite Hkeep.
    simpl in Hsent. rewrite Hbuf in Hsent |- *. simpl in Hsent |- *.
    rewrite u8_high_byte, u8_low_byte in Hsent |- * by done. by split.
Qed.

(** ** The trace only grows *)

Lemma grows_ret {A} (a : A) : grows (ret a).
Proof. intros w. exists []. simpl. by rewrite app_nil_r. Qed.

Lemma grows_fault {A} f : grows (fault (A := A) f).
Proof. intros w. exists []. simpl. by rewrite app_nil_r. Qed.

Lemma grows_get {A} (f : World → A) : grows (get f).
Proof. intros w. exists []. simpl. by rewrite app_nil_r. Qed.

Lemma grows_bind {A B} (m : M A) (k : A → M B) :
  grows m → (∀ a, grows (k a)) → grows (bind m k).
Proof.
  intros Hm Hk w. destruct (Hm w) as [evs Hevs]. rewrite bind_run.
  destruct (m w) as [[a|f] w1]; simpl in Hevs.
  - destruct (Hk a w1) as [evs' Hevs']. exists (evs ++ evs').
    by rewrite Hevs', Hevs, app_assoc.
  - by exists evs.
Qed.

Lemma grows_modify (f : World → World) :
  (∀ w, ∃ evs, trace (f w) = trace w ++ evs) → grows (modify f).
Proof. intros Hf w. apply Hf. Qed.

Lemma grows_if {A} (b : bool) (m1 m2 : M A) :
  grows m1 → grows m2 → grows (if b then m1 else m2).
Proof. by destruct b. Qed.

Lemma grows_WriteBuffer_store i v : grows (WriteBuffer_store i v).
Proof.
  intros w. exists []. unfold WriteBuffer_store.
  destruct (in_range i WriteBuffer_size); simpl; by rewrite app_nil_r.
Qed.

Lemma grows_ReadBuffer_store i v : grows (ReadBuffer_store i v).
Proof.
  intros w. exists []. unfold ReadBuffer_store.
  destruct (in_range i ReadBuffer_size); simpl; by rewrite app_nil_r.
Qed.

Lemma grows_ReadBuffer_load i : grows (ReadBuffer_load i).
Proof.
  intros w. exists []. unfold ReadBuffer_load.
  destruct (in_range i ReadBuffer_size); simpl; by rewrite app_nil_r.
Qed.

Lemma grows_wait_bus_idle : grows (wait_bus_idle fuel).
Proof.
  intros w. exists []. unfold wait_bus_idle.
  destruct (spin_while_busy fuel (IicInstance w)); simpl; by rewrite app_nil_r.
Qed.

Lemma grows_MasterSendPolled bytes slave : grows (MasterSendPolled bytes slave).
Proof.
  intros w. unfold MasterSendPolled.
  destruct (XIicPs_MasterSendPolled bytes slave (IicInstance w)) as [st hw']. by eexists.
Qed.

Lemma grows_MasterRecvPolled n slave : grows (MasterRecvPolled n slave).
Proof.
  intros w. unfold MasterRecvPolled.
  destruct (XIicPs_MasterRecvPolled n slave (IicInstance w)) as [[st data] hw']. by eexists.
Qed.

Lemma grows_do_usleep us : grows (do_usleep us).
Proof. apply grows_modify. intros w. by eexists. Qed.

Lemma grows_for_count n lo (body : Z → M unit) :
  (∀ Index, grows (body Index)) → grows (for_count n lo body).
Proof.
  intros Hbody. revert lo. induction n as [|n IH]; intros lo; simpl.
  - apply grows_ret.
  - apply grows_bind; [apply Hbody | intros; apply IH].
Qed.

Lemma grows_count_matches n Index i count : grows (count_matches n Index i count).
Proof.
  revert Index count. induction n as [|n IH]; intros Index count; simpl.
  - apply grows_ret.
  - apply grows_bind; [apply grows_ReadBuffer_load | intros; apply IH].
Qed.

Create HintDb grows.

#[local] Hint Resolve grows_ret grows_fault grows_get grows_if grows_WriteBuffer_store
  grows_ReadBuffer_store grows_ReadBuffer_load grows_wait_bus_idle
  grows_MasterSendPolled grows_MasterRecvPolled grows_do_usleep
  grows_count_matches : grows.

#[local] Hint Extern 2 (grows (bind _ _)) => apply grows_bind; [|intros] : grows.
#[local] Hint Extern 2 (grows (modify _)) =>
  apply grows_modify; intros; eexists; simpl; symmetry; apply app_nil_r : grows.
#[local] Hint Extern 3 (grows (match ?x with _ => _ end)) => destruct x : grows.

Lemma grows_put_address size Address : grows (put_address size Address).
Proof. unfold put_address. auto 10 with grows. Qed.

Lemma grows_MasterSendPolled_WriteBuffer n slave :
  grows (MasterSendPolled_WriteBuffer n slave).
Proof. unfold MasterSendPolled_WriteBuffer. auto 10 with grows. Qed.

Lemma grows_MasterRecvPolled_ReadBuffer n slave :
  grows (MasterRecvPolled_ReadBuffer n slave).
Proof. unfold MasterRecvPolled_ReadBuffer. auto 10 with grows. Qed.

#[local] Hint Resolve grows_put_address grows_MasterSendPolled_WriteBuffer
  grows_MasterRecvPolled_ReadBuffer : grows.

Lemma grows_EepromWriteData ByteCount : grows (EepromWriteData fuel ByteCount).
Proof. unfold EepromWriteData. auto 12 with grows. Qed.

#[local] Hint Resolve grows_EepromWriteData : grows.

Lemma grows_EepromReadData ByteCount Address : grows (EepromReadData fuel ByteCount Address).
Proof. unfold EepromReadData. auto 20 with grows. Qed.

#[local] Hint Resolve grows_EepromReadData : grows.

(** ** What a page write carries *)

Lemma set_buffers_same w :
  set_ReadBuffer (ReadBuffer w) (set_WriteBuffer (WriteBuffer w) w) = w.
Proof. by destruct w. Qed.

(** The fill loops: [g Index] behind the address field of [WriteBuffer],
    zero in [ReadBuffer], for [n] offsets from [lo]. *)
Lemma fill_run (g : Z → Z) (off : Z) n lo w :
  0 ≤ off → 0 ≤ lo →
  off + lo + Z.of_nat n ≤ WriteBuffer_size →
  (Z.to_nat (off + lo) + n ≤ length (WriteBuffer w))%nat →
  lo + Z.of_nat n ≤ ReadBuffer_size →
  (Z.to_nat lo + n ≤ length (ReadBuffer w))%nat →
  for_count n lo (λ Index,
    WriteBuffer_store (u32 (off + Index)) (g Index) ;; ReadBuffer_store Index 0) w =
  (Done tt,
   set_ReadBuffer
     (take (Z.to_nat lo) (ReadBuffer w) ++ replicate n 0 ++
      drop (Z.to_nat lo + n) (ReadBuffer w))
     (set_WriteBuffer
        (take (Z.to_nat (off + lo)) (WriteBuffer w) ++
         ((λ k, u8 (g k)) <$> seqZ lo (Z.of_nat n)) ++
         drop (Z.to_nat (off + lo) + n) (WriteBuffer w)) w)).
Proof.
  revert lo w. induction n as [|n IH]; intros lo w Hoff Hlo Hwq Hwl Hrq Hrl.
  - simpl. rewrite !Nat.add_0_r, !take_drop. by rewrite set_buffers_same.
  - simpl for_count. rewrite !bind_run.
    assert (off + lo + Z.of_nat (S n) ≤ 66 ∧ lo + Z.of_nat (S n) ≤ 64) as [Hw66 Hr64]
      by (unfold WriteBuffer_size, sizeof_AddressType, ReadBuffer_size, MAX_SIZE in *; lia).
    unfold WriteBuffer_store at 1. rewrite u32_small by lia.
    replace (in_range (off + lo) WriteBuffer_size) with true
      by (unfold in_range, WriteBuffer_size, sizeof_AddressType, MAX_SIZE; lia).
    unfold ReadBuffer_store at 1.
    replace (in_range lo ReadBuffer_size) with true
      by (unfold in_range, ReadBuffer_size, MAX_SIZE; lia).
    rewrite IH;
      [|simpl; rewrite ?length_insert;
        unfold WriteBuffer_size, sizeof_AddressType, ReadBuffer_size, MAX_SIZE; lia..].
    simpl. f_equal. destruct w as [hw wb rb a p t]. simpl in *.
    unfold set_ReadBuffer, set_WriteBuffer. simpl.
    replace (Z.to_nat (off + (lo + 1))) with (S (Z.to_nat (off + lo))) by lia.
    replace (Z.to_nat (lo + 1)) with (S (Z.to_nat lo)) by lia.
    replace (Z.of_nat (S n)) with (Z.succ (Z.of_nat n)) by lia.
    rewrite (seqZ_cons lo) by lia.
    replace (Z.pred (Z.succ (Z.of_nat n))) with (Z.of_nat n) by lia.
    replace (Z.succ lo) with (lo + 1) by lia.
    f_equal.
    + rewrite (take_S_r _ _ (u8 (g lo))) by (apply list_lookup_insert_eq; lia).
      rewrite take_insert_ge by lia. rewrite drop_insert_lt by lia.
      rewrite <- app_assoc. simpl.
      by replace (Z.to_nat (off + lo) + S n)%nat with (S (Z.to_nat (off + lo) + n)) by lia.
    + rewrite (take_S_r _ _ (u8 0)) by (apply list_lookup_insert_eq; lia).
      rewrite take_insert_ge by lia. rewrite drop_insert_lt by lia.
      rewrite <- app_assoc. simpl.
      by replace (Z.to_nat lo + S n)%nat with (S (Z.to_nat lo + n)) by lia.
Qed.

Lemma u8_u32 x : u8 (u32 x) = u8 x.
Proof.
  unfold u8, u32. apply Z.mod_mod_divide. exists (2 ^ 24). lia.
Qed.

(** What [EepromWriteData] puts on the bus first, whatever the caller does
    with its status. *)
Lemma EepromWriteData_then {A} (k : Z → M A) ByteCount w :
  0 ≤ ByteCount ≤ WriteBuffer_size → (∀ st, grows (k st)) →
  ∃ st evs,
    trace (snd (bind (EepromWriteData fuel ByteCount) k w)) =
      trace w ++
      EvSend (take (Z.to_nat ByteCount) (WriteBuffer w)) (EepromSlvAddr w) st :: evs.
Proof.
  intros Hn Hk.
  destruct (EepromWriteData_sent ByteCount w Hn) as (st & evs & Htr & _ & _).
  rewrite bind_run.
  destruct (EepromWriteData fuel ByteCount w) as [[s|f] w1]; simpl in Htr.
  - destruct (Hk s w1) as [evs' Hevs']. exists st, (evs ++ evs').
    rewrite Hevs', Htr. by rewrite <- app_assoc.
  - by exists st, evs.
Qed.

(** A page is filled behind its address field and sent: the send carries
    the address field as it stands in [WriteBuffer] and then the page. *)
Lemma fill_then_send {A} (g : Z → Z) (off size : Z) (k : Z → M A) w :
  0 ≤ off → 0 ≤ size → off + size ≤ WriteBuffer_size → size ≤ ReadBuffer_size →
  buffers_ok w → (∀ st, grows (k st)) →
  ∃ st evs,
    trace (snd ((for_count (Z.to_nat size) 0 (λ Index,
                   WriteBuffer_store (u32 (off + Index)) (g Index) ;;
                   ReadBuffer_store Index 0) ;;
                 bind (EepromWriteData fuel (u16 (u32 (off + size)))) k) w)) =
      trace w ++
      EvSend (take (Z.to_nat off) (WriteBuffer w) ++ ((λ k, u8 (g k)) <$> seqZ 0 size))
             (EepromSlvAddr w) st :: evs.
Proof.
  intros Hoff Hsize Hw Hr [Hlw Hlr] Hk.
  assert (off + size ≤ 66 ∧ size ≤ 64) as [Hw66 Hr64]
    by (unfold WriteBuffer_size, sizeof_AddressType, ReadBuffer_size, MAX_SIZE in *; lia).
  rewrite bind_run, (fill_run g off) by (rewrite ?Z2Nat.id; lia).
  rewrite u32_small, u16_small by lia.
  match goal with |- context [bind _ k ?w1] => set (w' := w1) end.
  destruct (EepromWriteData_then k (off + size) w') as (st & evs & Htr); [lia|done|].
  exists st, evs. rewrite Htr. subst w'. simpl.
  rewrite Z.add_0_r, Z2Nat.id by lia. do 3 f_equal.
  rewrite app_assoc, take_app_length'; [done|].
  rewrite length_app, length_take, length_fmap, length_seqZ. lia.
Qed.

(** X12.  Every trial of the detector writes its page at address 0: the
    first thing trial [i] puts on the bus is the address field for 0 and
    then the pattern of the trial, byte [(k + i) mod 256] at offset [k],
    whatever comes after. *)
Lemma page_trial_sent i w :
  0 ≤ i < 3 → buffers_ok w →
  ∃ st evs,
    trace (snd (page_trial fuel i w)) =
      trace w ++
      EvSend (address_field (candidate i) EEPROM_START_ADDRESS ++ pattern i (candidate i))
             (EepromSlvAddr w) st :: evs.
Proof.
  intros Hi [Hlw Hlr]. unfold page_trial. fold (candidate i).
  pose proof (candidate_range i) as Hrange.
  rewrite bind_run. unfold modify at 1. rewrite bind_run, put_address_run.
  unfold fill_pattern, address_field, pattern.
  assert (Hpat : ((λ k, u8 (u32 (k + i))) <$> seqZ 0 (candidate i)) =
                 ((λ k, u8 (k + i)) <$> seqZ 0 (candidate i)))
    by (apply list_fmap_ext; intros; apply u8_u32).
  destruct (candidate i =? PAGE_SIZE_16) eqn:E;
    match goal with
    | |- context [bind (for_count _ _ _) (λ _, bind (EepromWriteData _ _) ?k) ?w1] =>
        match goal with
        | |- context [WriteBuffer_store (u32 (?off + _))] =>
            destruct (fill_then_send (λ Index, u32 (Index + i)) off (candidate i) k w1)
              as (st & evs & Htr)
        end
    end;
    try (unfold WriteBuffer_size, sizeof_AddressType, ReadBuffer_size, MAX_SIZE in *; lia).
  1,4: split; simpl; by rewrite ?length_insert.
  1,3: intros st; auto 20 with grows.
  all: exists st, evs; rewrite Htr, Hpat; simpl.
  all: destruct (WriteBuffer w) as [|b0 [|b1 wb]]; [done..|]; simpl.
  all: reflexivity.
Qed.

Lemma store_head_run (v c : Z) w :
  (WriteBuffer_store 0 v ;; ret c) w =
  (Done c, set_WriteBuffer (<[0%nat := u8 v]> (WriteBuffer w)) w).
Proof. reflexivity. Qed.

Lemma store_head2_run (v0 v1 c : Z) w :
  (WriteBuffer_store 0 v0 ;; WriteBuffer_store 1 v1 ;; ret c) w =
  (Done c, set_WriteBuffer (<[1%nat := u8 v1]> (<[0%nat := u8 v0]> (WriteBuffer w))) w).
Proof. reflexivity. Qed.

Lemma u8_masked x : u8 (Z.land (u8 x) 0xFF) = Z.land x 0xFF.
Proof.
  unfold u8. change 0xFF with (Z.ones 8). rewrite <- !Z.land_ones by lia.
  by rewrite <- !Z.land_assoc, !Z.land_diag.
Qed.

(** X14.  The write pass: at a page size of 16 every page write carries
    the address byte of [EEPROM_START_ADDRESS], whatever the page index; at
    32 and 64 it carries [page_count * PageSize], high byte first.  Then
    come [PageSize] bytes 0xFF. *)
Lemma write_page_sent page_count w :
  0 ≤ page_count < 256 → buffers_ok w → page_size_ok (PageSize w) →
  ∃ st evs,
    trace (snd (write_page fuel page_count w)) =
      trace w ++
      EvSend (address_field (PageSize w)
                (if PageSize w =? PAGE_SIZE_16 then EEPROM_START_ADDRESS
                 else page_count * PageSize w) ++
              replicate (Z.to_nat (PageSize w)) 0xFF)
             (EepromSlvAddr w) st :: evs.
Proof.
  intros Hp [Hlw Hlr] Hps. unfold write_page. rewrite bind_get, bind_run.
  assert (Hsize : 0 ≤ PageSize w ≤ 64)
    by (unfold page_size_ok, PAGE_SIZE_16, PAGE_SIZE_32, PAGE_SIZE_64 in Hps; lia).
  assert (Hfill : ((λ _ : Z, u8 0xFF) <$> seqZ 0 (PageSize w)) =
                  replicate (Z.to_nat (PageSize w)) 0xFF).
  { rewrite <- (length_seqZ 0 (PageSize w)). by apply const_fmap. }
  rewrite (u32_small (page_count * PageSize w)) by nia.
  unfold address_field.
  destruct (PageSize w =? PAGE_SIZE_16) eqn:E;
    rewrite ?store_head_run, ?store_head2_run; cbv beta iota;
    match goal with
    | |- context [bind (for_count _ _ _) (λ _, bind (EepromWriteData _ _) ?k) ?w1] =>
        match goal with
        | |- context [WriteBuffer_store (u32 (?off + _))] =>
            destruct (fill_then_send (λ _, 0xFF) off (PageSize w) k w1)
              as (st & evs & Htr)
        end
    end;
    try (unfold WriteBuffer_size, sizeof_AddressType, ReadBuffer_size, MAX_SIZE in *; lia).
  1,4: split; simpl; by rewrite ?length_insert.
  1,3: intros st; auto 20 with grows.
  all: exists st, evs; rewrite Htr, Hfill, ?u8_masked.
  all: destruct (WriteBuffer w) as [|b0 [|b1 wb]]; [done..|]; simpl.
  all: reflexivity.
Qed.

(** ** The locator *)

Lemma for_sentinel_cons a rest (body : Z → M Flow) w :
  for_sentinel (a :: rest) body w =
  if a =? 0 then (Done Fallthrough, w)
  else match body a w with
       | (Done (Return s), w') => (Done (Return s), w')
       | (Done Fallthrough, w') => for_sentinel rest body w'
       | (Stuck f, w') => (Stuck f, w')
       end.
Proof.
  simpl. destruct (a =? 0); [done|]. rewrite bind_run.
  by destruct (body a w) as [[[s|]|f] w'].
Qed.

Lemma for_count_flow_S n Index (body : Z → M Flow) w :
  for_count_flow (S n) Index body w =
  match body Index w with
  | (Done (Return s), w') => (Done (Return s), w')
  | (Done Fallthrough, w') => for_count_flow n (Index + 1) body w'
  | (Stuck f, w') => (Stuck f, w')
  end.
Proof.
  simpl. rewrite bind_run. by destruct (body Index w) as [[[s|]|f] w'].
Qed.

Lemma transfers_app evs evs' : transfers (evs ++ evs') = transfers evs ++ transfers evs'.
Proof. unfold transfers. apply filter_app. Qed.

(** A presence probe with configuration always returns, with one of the
    two status codes, and makes no bus transfer. *)
Lemma IicPsFindDevice_total addr DeviceId w :
  ∃ st w', IicPsFindDevice addr DeviceId w = (Done st, w') ∧
    (st = XST_SUCCESS ∨ st = XST_FAILURE) ∧
    same_globals w w' ∧
    transfers (trace w') = transfers (trace w).
Proof.
  destruct (IicPsConfig_total DeviceId w) as (cfg & w1 & Hcfg & Hsame1 & Hcases & Htr1 & _).
  unfold IicPsFindDevice, IicPsSlaveMonitor. rewrite !bind_run, Hcfg.
  destruct (negb (cfg =? XST_SUCCESS)).
  { unfold ret. destruct (XST_FAILURE =? XST_SUCCESS); eexists _, _; split_and!; eauto. }
  rewrite bind_run. unfold EnableSlaveMonitor, modify.
  destruct (slave_monitor_poll_spec (Z.to_nat SLV_MON_LOOP_COUNT)
              (log (EvEnableSlaveMonitor addr)
                (set_IicInstance (XIicPs_EnableSlaveMonitor addr (IicInstance w1)) w1)))
    as (st & w2 & Hrun & Hsame2 & Hcase).
  rewrite Hrun.
  assert (Htr2 : transfers (trace w2) = transfers (trace w)).
  { destruct Hcase as [(k & _ & _ & _ & _ & -> & _) | (_ & _ & -> & _)];
      simpl; rewrite !transfers_app, Htr1; simpl; by rewrite !app_nil_r. }
  assert (Hsame : same_globals w w2).
  { destruct Hsame1 as (G1 & G2 & G3 & G4), Hsame2 as (K1 & K2 & K3 & K4).
    simpl in K1, K2, K3, K4. unfold same_globals. split_and!; congruence. }
  unfold ret. destruct (st =? XST_SUCCESS); eexists _, _; split_and!; eauto.
Qed.

Lemma scan_instance_return DeviceId w s w' n :
  scan_instance fuel DeviceId w = (Done (Return s), w') →
  IicPsFindEeprom_from fuel (S n) DeviceId w = (Done s, w').
Proof.
  intros Hrun. unfold IicPsFindEeprom_from.
  by rewrite bind_run, for_count_flow_S, Hrun.
Qed.

(** ** The channel loop *)

(** From [MAX_CHANNELS] the channel loop visits 4, then 2, then 1, and
    stops at the first round that returns. *)
Lemma for_shr_MAX_CHANNELS (body : Z → M Flow) :
  for_shr 8 MAX_CHANNELS body =
  (do r <- body 4;
   match r with
   | Return s => ret (Return s)
   | Fallthrough =>
       do r <- body 2;
       match r with
       | Return s => ret (Return s)
       | Fallthrough =>
           do r <- body 1;
           match r with
           | Return s => ret (Return s)
           | Fallthrough => ret Fallthrough
           end
       end
   end).
Proof. reflexivity. Qed.

(** A round of the channel loop whose channel selection succeeds: when the
    EEPROM answers, the round returns what the detector finds (so no
    further channel is tried); when it does not, the round falls through
    to the next channel. *)
Lemma try_channel_selected mux eeprom MuxChannel w w1 (st : Z) w2 :
  MuxInitChannel fuel mux MuxChannel w = (Done XST_SUCCESS, w1) →
  FindEepromDevice eeprom w1 = (Done st, w2) →
  try_channel fuel mux eeprom MuxChannel w =
  if st =? XST_SUCCESS then
    match FindEepromPageSize fuel eeprom (set_EepromSlvAddr eeprom w2) with
    | (Done st', w3) =>
        (Done (Return (if st' =? XST_SUCCESS then XST_SUCCESS else XST_FAILURE)), w3)
    | (Stuck f, w3) => (Stuck f, w3)
    end
  else (Done Fallthrough, w2).
Proof.
  intros Hsel Hprobe. unfold try_channel.
  rewrite bind_run, Hsel, Z.eqb_refl. change (negb true) with false. cbv iota.
  rewrite bind_run, Hprobe.
  destruct (st =? XST_SUCCESS); [|done].
  rewrite bind_run. unfold modify at 1. cbv iota beta. rewrite bind_run.
  destruct (FindEepromPageSize fuel eeprom (set_EepromSlvAddr eeprom w2)) as [[st'|f] w3]; [|done].
  by destruct (st' =? XST_SUCCESS).
Qed.

(** ** The multiplexer loop, round by round *)

(** The loops over [EepromAddr] and over the channel values make the
    rounds of [channel_rounds], in that order, up to the first that
    returns. *)
Lemma rounds_of_loops (body : Z → Z → M Flow) w :
  for_sentinel EepromAddr (λ eeprom, for_shr 8 MAX_CHANNELS (body eeprom)) w =
  first_return channel_rounds (λ p, body p.1 p.2) w.
Proof.
  unfold EepromAddr, channel_rounds.
  rewrite for_sentinel_cons. change (0x54 =? 0) with false. cbv iota.
  rewrite for_shr_MAX_CHANNELS. simpl first_return. rewrite !bind_run. cbn [fst snd].
  destruct (body 0x54 4 w) as [[[s|]|f] w1]; [done | | done].
  rewrite !bind_run.
  destruct (body 0x54 2 w1) as [[[s|]|f] w2]; [done | | done].
  rewrite !bind_run.
  destruct (body 0x54 1 w2) as [[[s|]|f] w3]; [done | | done].
  unfold ret at 1. cbv beta iota.
  rewrite for_sentinel_cons. change (0x55 =? 0) with false. cbv iota.
  rewrite for_shr_MAX_CHANNELS. rewrite !bind_run.
  destruct (body 0x55 4 w3) as [[[s|]|f] w4]; [done | | done].
  rewrite !bind_run.
  destruct (body 0x55 2 w4) as [[[s|]|f] w5]; [done | | done].
  rewrite !bind_run.
  destruct (body 0x55 1 w5) as [[[s|]|f] w6]; [done | | done].
  unfold ret at 1. cbv beta iota.
  rewrite for_sentinel_cons. by change (0 =? 0) with true.
Qed.

(** The multiplexer loop: the probe of the one multiplexer address and,
    when it answers, the rounds. *)
Lemma scan_muxes_rounds DeviceId w :
  scan_muxes fuel DeviceId w =
  (do Status <- IicPsFindDevice 0x74 DeviceId;
   if Status =? XST_SUCCESS
   then first_return channel_rounds (λ p, try_channel fuel 0x74 p.1 p.2)
   else ret Fallthrough) w.
Proof.
  unfold scan_muxes, MuxAddr.
  rewrite for_sentinel_cons. change (0x74 =? 0) with false. cbv iota.
  rewrite !bind_run.
  destruct (IicPsFindDevice 0x74 DeviceId w) as [[st|f] w0]; [|done].
  destruct (st =? XST_SUCCESS).
  - rewrite (rounds_of_loops (try_channel fuel 0x74) w0).
    destruct (first_return _ _ w0) as [[[s|]|f] w1]; [done | | done].
    rewrite for_sentinel_cons. by change (0 =? 0) with true.
  - unfold ret at 1. cbv beta iota.
    rewrite for_sentinel_cons. by change (0 =? 0) with true.
Qed.

Lemma first_return_reached {A} (before after : list A) (a : A) (body : A → M Flow)
    w0 w1 (s : Z) w2 :
  first_return before body w0 = (Done Fallthrough, w1) →
  body a w1 = (Done (Return s), w2) →
  first_return (before ++ a :: after) body w0 = (Done (Return s), w2).
Proof.
  revert w0. induction before as [|b before IH]; intros w0 Hbefore Hround.
  - injection Hbefore as ->. simpl. by rewrite bind_run, Hround.
  - simpl in Hbefore |- *. rewrite bind_run in Hbefore |- *.
    destruct (body b w0) as [[[s'|]|f] w']; [done | | done].
    by apply IH.
Qed.

(** A round reached in the multiplexer loop that returns ends the locator
    with what it returns. *)
Lemma round_returns (n : nat) DeviceId w wm before eeprom MuxChannel after w1 (s : Z) w2 :
  IicPsFindDevice 0x74 DeviceId w = (Done XST_SUCCESS, wm) →
  channel_rounds = before ++ (eeprom, MuxChannel) :: after →
  first_return before (λ p, try_channel fuel 0x74 p.1 p.2) wm = (Done Fallthrough, w1) →
  try_channel fuel 0x74 eeprom MuxChannel w1 = (Done (Return s), w2) →
  scan_muxes fuel DeviceId w = (Done (Return s), w2) ∧
  IicPsFindEeprom_from fuel (S n) DeviceId w = (Done s, w2).
Proof.
  intros Hmux Hrounds Hbefore Hround.
  assert (Hscan : scan_muxes fuel DeviceId w = (Done (Return s), w2)).
  { rewrite scan_muxes_rounds, bind_run, Hmux, Z.eqb_refl, Hrounds.
    exact (first_return_reached before after (eeprom, MuxChannel) _ wm w1 s w2
             Hbefore Hround). }
  split; [done|]. apply scan_instance_return.
  unfold scan_instance. by rewrite bind_run, Hscan.
Qed.

(** A round whose channel selection fails returns failure there. *)
Lemma try_channel_not_selected mux eeprom MuxChannel w (st : Z) w1 :
  MuxInitChannel fuel mux MuxChannel w = (Done st, w1) → st ≠ XST_SUCCESS →
  try_channel fuel mux eeprom MuxChannel w = (Done (Return XST_FAILURE), w1).
Proof.
  intros Hsel Hst. unfold try_channel. rewrite bind_run, Hsel.
  apply Z.eqb_neq in Hst. by rewrite Hst.
Qed.

(** A round falls through only after a successful channel selection, when
    the EEPROM candidate does not answer. *)
Lemma try_channel_fell_through mux eeprom MuxChannel w w2 :
  try_channel fuel mux eeprom MuxChannel w = (Done Fallthrough, w2) →
  ∃ st w1, MuxInitChannel fuel mux MuxChannel w = (Done XST_SUCCESS, w1) ∧
           FindEepromDevice eeprom w1 = (Done st, w2) ∧ st ≠ XST_SUCCESS.
Proof.
  intros Hrun.
  destruct (MuxInitChannel fuel mux MuxChannel w) as [[st0|f] w1] eqn:Hsel.
  2: { assert (Hstuck : try_channel fuel mux eeprom MuxChannel w = (Stuck f, w1))
         by (unfold try_channel; by rewrite bind_run, Hsel).
       rewrite Hstuck in Hrun. discriminate Hrun. }
  destruct (decide (st0 = XST_SUCCESS)) as [->|Hne].
  2: { rewrite (try_channel_not_selected _ _ _ _ _ _ Hsel Hne) in Hrun.
       discriminate Hrun. }
  destruct (slave_monitor_poll_spec (Z.to_nat SLV_MON_LOOP_COUNT)
              (log (EvEnableSlaveMonitor eeprom)
                (set_IicInstance (XIicPs_EnableSlaveMonitor eeprom (IicInstance w1)) w1)))
    as (st & w2' & Hpoll & _).
  assert (Hprobe : FindEepromDevice eeprom w1 = (Done st, w2')).
  { unfold FindEepromDevice. rewrite bind_run. unfold EnableSlaveMonitor, modify.
    exact Hpoll. }
  rewrite (try_channel_selected _ _ _ _ _ _ _ Hsel Hprobe) in Hrun.
  destruct (st =? XST_SUCCESS) eqn:Hst.
  - destruct (FindEepromPageSize fuel eeprom (set_EepromSlvAddr eeprom w2'))
      as [[st'|f] w3]; discriminate Hrun.
  - injection Hrun as <-. apply Z.eqb_neq in Hst.
    exists st, w1. split; [reflexivity|]. split; [exact Hprobe | exact Hst].
Qed.

(** When the multiplexer loop has run to its end, the two direct probes
    follow. *)
Lemma direct_probes_follow (DeviceId : Z) (n : nat) w w1 :
  scan_muxes fuel DeviceId w = (Done Fallthrough, w1) →
  ∃ s1 w2,
    IicPsFindDevice 0x54 DeviceId w1 = (Done s1, w2) ∧
    transfers (trace w2) = transfers (trace w1) ∧
    if s1 =? XST_SUCCESS then
      IicPsFindEeprom_from fuel (S n) DeviceId w =
        (Done XST_SUCCESS, set_PageSize PAGE_SIZE_32 (set_EepromSlvAddr 0x54 w2))
    else
      ∃ s2 w3,
        IicPsFindDevice 0x55 DeviceId w2 = (Done s2, w3) ∧
        transfers (trace w3) = transfers (trace w1) ∧
        if s2 =? XST_SUCCESS then
          IicPsFindEeprom_from fuel (S n) DeviceId w =
            (Done XST_SUCCESS, set_PageSize PAGE_SIZE_32 (set_EepromSlvAddr 0x55 w3))
        else
          scan_instance fuel DeviceId w = (Done Fallthrough, w3) ∧
          IicPsFindEeprom_from fuel (S n) DeviceId w =
            IicPsFindEeprom_from fuel n (DeviceId + 1) w3.
Proof.
  intros Hmux.
  assert (Hinst : scan_instance fuel DeviceId w = scan_direct DeviceId w1)
    by (unfold scan_instance; by rewrite bind_run, Hmux).
  destruct (IicPsFindDevice_total 0x54 DeviceId w1) as (s1 & w2 & Hp1 & _ & _ & Htr1).
  exists s1, w2. split; [done|]. split; [done|].
  unfold scan_direct, EepromAddr in Hinst.
  rewrite for_sentinel_cons in Hinst. change (0x54 =? 0) with false in Hinst.
  cbv iota in Hinst. rewrite bind_run, Hp1 in Hinst.
  destruct (s1 =? XST_SUCCESS).
  { apply scan_instance_return. by rewrite Hinst. }
  destruct (IicPsFindDevice_total 0x55 DeviceId w2) as (s2 & w3 & Hp2 & _ & _ & Htr2).
  exists s2, w3. split; [done|]. split; [congruence|].
  unfold ret at 1 in Hinst. cbv beta iota in Hinst.
  rewrite for_sentinel_cons in Hinst. change (0x55 =? 0) with false in Hinst.
  cbv iota in Hinst. rewrite bind_run, Hp2 in Hinst.
  destruct (s2 =? XST_SUCCESS).
  { apply scan_instance_return. by rewrite Hinst. }
  unfold ret at 1 in Hinst. cbv beta iota in Hinst.
  rewrite for_sentinel_cons in Hinst. change (0 =? 0) with true in Hinst.
  cbv iota in Hinst. split; [exact Hinst|].
  unfold IicPsFindEeprom_from. by rewrite !bind_run, for_count_flow_S, Hinst.
Qed.

(** C3, as the code has it.  On every bus instance the multiplexer loop is
    the probe of the multiplexer address 0x74 and, when it answers, the
    rounds of [channel_rounds] in order up to the first that returns; a
    round falls through only after a successful channel selection, when
    its EEPROM candidate does not answer.

    When a channel selection fails, in whatever round, the locator returns
    [XST_FAILURE] in the very world that selection left: it probes no
    EEPROM address on the bus itself, nor anything else.

    When the multiplexer loop runs to its end (the multiplexer does not
    answer, or no channel selection fails and no EEPROM answers behind a
    channel), the locator probes the EEPROM candidates 0x54 and 0x55 on
    the bus itself, in this order; at the first that answers it returns
    success with that address in [EepromSlvAddr] and 32 in [PageSize]; the
    probes make no bus transfer, so the page-size detector has not run.
    If neither answers the locator goes on to the next bus instance. *)
Theorem direct_scan_after_mux_scan (DeviceId : Z) (n : nat) w :
  scan_muxes fuel DeviceId w =
    (do Status <- IicPsFindDevice 0x74 DeviceId;
     if Status =? XST_SUCCESS
     then first_return channel_rounds (λ p, try_channel fuel 0x74 p.1 p.2)
     else ret Fallthrough) w ∧
  (∀ eeprom MuxChannel wa wb,
     try_channel fuel 0x74 eeprom MuxChannel wa = (Done Fallthrough, wb) →
     ∃ st wsel,
       MuxInitChannel fuel 0x74 MuxChannel wa = (Done XST_SUCCESS, wsel) ∧
       FindEepromDevice eeprom wsel = (Done st, wb) ∧ st ≠ XST_SUCCESS) ∧
  (∀ wm before eeprom MuxChannel after w1 (st : Z) w2,
     IicPsFindDevice 0x74 DeviceId w = (Done XST_SUCCESS, wm) →
     channel_rounds = before ++ (eeprom, MuxChannel) :: after →
     first_return before (λ p, try_channel fuel 0x74 p.1 p.2) wm = (Done Fallthrough, w1) →
     MuxInitChannel fuel 0x74 MuxChannel w1 = (Done st, w2) → st ≠ XST_SUCCESS →
     scan_muxes fuel DeviceId w = (Done (Return XST_FAILURE), w2) ∧
     IicPsFindEeprom_from fuel (S n) DeviceId w = (Done XST_FAILURE, w2)) ∧
  (∀ w1,
     scan_muxes fuel DeviceId w = (Done Fallthrough, w1) →
     ∃ s1 w2,
       IicPsFindDevice 0x54 DeviceId w1 = (Done s1, w2) ∧
       transfers (trace w2) = transfers (trace w1) ∧
       if s1 =? XST_SUCCESS then
         IicPsFindEeprom_from fuel (S n) DeviceId w =
           (Done XST_SUCCESS, set_PageSize PAGE_SIZE_32 (set_EepromSlvAddr 0x54 w2))
       else
         ∃ s2 w3,
           IicPsFindDevice 0x55 DeviceId w2 = (Done s2, w3) ∧
           transfers (trace w3) = transfers (trace w1) ∧
           if s2 =? XST_SUCCESS then
             IicPsFindEeprom_from fuel (S n) DeviceId w =
               (Done XST_SUCCESS, set_PageSize PAGE_SIZE_32 (set_EepromSlvAddr 0x55 w3))
           else
             scan_instance fuel DeviceId w = (Done Fallthrough, w3) ∧
             IicPsFindEeprom_from fuel (S n) DeviceId w =
               IicPsFindEeprom_from fuel n (DeviceId + 1) w3).
Proof.
  split; [apply scan_muxes_rounds|]. split; [|split].
  - intros eeprom MuxChannel wa wb Hround.
    exact (try_channel_fell_through _ _ _ _ _ Hround).
  - intros wm before eeprom MuxChannel after w1 st w2 Hmux Hrounds Hbefore Hsel Hst.
    pose proof (try_channel_not_selected 0x74 eeprom MuxChannel w1 st w2 Hsel Hst) as Hround.
    exact (round_returns n DeviceId w wm before eeprom MuxChannel after w1
             XST_FAILURE w2 Hmux Hrounds Hbefore Hround).
  - intros w1 Hmux. exact (direct_probes_follow DeviceId n w w1 Hmux).
Qed.




(** * Whole runs *)

(** ** Rules *)

Section RunRules.

Context {A B : Type}.

Lemma run_ret (a : A) (P : World → Prop) (Q : A → World → Prop) (E : World → Prop) :
  (∀ w, P w → Q a w) → run_spec P (ret a) Q E.
Proof. intros H w HP. by apply H. Qed.

Lemma run_bind (m : M A) (k : A → M B) P Q R E :
  run_spec P m Q E → (∀ a, run_spec (Q a) (k a) R E) → run_spec P (bind m k) R E.
Proof.
  intros Hm Hk w HP. specialize (Hm w HP). rewrite bind_run.
  destruct (m w) as [[a|f] w']; [by apply Hk | done].
Qed.

Lemma run_conseq (m : M A) (P P' : World → Prop) (Q Q' : A → World → Prop) (E E' : World → Prop) :
  run_spec P m Q E → (∀ w, P' w → P w) → (∀ a w, Q a w → Q' a w) → (∀ w, E w → E' w) →
  run_spec P' m Q' E'.
Proof.
  intros Hm HP HQ HE w Hw. specialize (Hm w (HP w Hw)).
  destruct (m w) as [[a|f] w']; [by apply HQ | by apply HE].
Qed.

Lemma run_get (f : World → A) (P : World → Prop) E :
  run_spec P (get f) (λ a w, P w ∧ a = f w) E.
Proof. by intros w HP. Qed.

Lemma run_read (f : World → A) (P : World → Prop) (Q : A → World → Prop) E :
  (∀ w, P w → Q (f w) w) → run_spec P (get f) Q E.
Proof. intros H w HP. by apply H. Qed.

Lemma run_pull (m : M A) (P : World → Prop) Q E (φ : Prop) :
  (∀ w, P w → φ) → (φ → run_spec P m Q E) → run_spec P m Q E.
Proof. intros Hφ Hm w HP. by apply Hm; [eapply Hφ|]. Qed.

Lemma run_fault (f : Fault) (P : World → Prop) (Q : A → World → Prop) (E : World → Prop) :
  (∀ w, P w → E w) → run_spec P (fault f) Q E.
Proof. intros H w HP. by apply H. Qed.

(** What holds of every finished run may be added to the postcondition. *)
Lemma run_returns (m : M A) (P : World → Prop) Q (R : A → World → Prop) E :
  run_spec P m Q E → (∀ w a w', m w = (Done a, w') → R a w') →
  run_spec P m (λ a w, Q a w ∧ R a w) E.
Proof.
  intros Hm HR w HP. specialize (Hm w HP). specialize (HR w).
  destruct (m w) as [[a|f] w']; [|done]. split; [done|]. by apply HR.
Qed.

End RunRules.

Lemma run_modify (f : World → World) (P : World → Prop) (Q : unit → World → Prop) E :
  (∀ w, P w → Q tt (f w)) → run_spec P (modify f) Q E.
Proof. intros H w HP. by apply H. Qed.

Section RunLoops.

Variable I : World → Prop.
Variable E : World → Prop.

Lemma run_for_count n lo (body : Z → M unit) :
  (∀ Index, run_spec I (body Index) (λ _, I) E) →
  run_spec I (for_count n lo body) (λ _, I) E.
Proof.
  intros Hbody. revert lo. induction n as [|n IH]; intros lo.
  - by apply run_ret.
  - simpl. eapply run_bind; [apply Hbody|]. intros ?. apply IH.
Qed.

Lemma run_count_matches n Index i count :
  (∀ w, I w → E w) → run_spec I (count_matches n Index i count) (λ _, I) E.
Proof.
  intros HE. revert Index count. induction n as [|n IH]; intros Index count.
  - by apply run_ret.
  - simpl. apply run_bind with (Q := λ _, I); [|intros b; apply IH].
    intros w HI. unfold ReadBuffer_load. destruct (in_range _ _); [done | by apply HE].
Qed.

Variable Qret : Z → World → Prop.

Lemma run_for_count_flow n lo (body : Z → M Flow) :
  (∀ Index, run_spec I (body Index) (flow_post I Qret) E) →
  run_spec I (for_count_flow n lo body) (flow_post I Qret) E.
Proof.
  intros Hbody. revert lo. induction n as [|n IH]; intros lo.
  - by apply run_ret.
  - simpl. eapply run_bind; [apply Hbody|].
    intros [s|]; [by apply run_ret | apply IH].
Qed.

Lemma run_for_sentinel arr (body : Z → M Flow) :
  (∀ w, I w → E w) →
  (∀ a, a ∈ arr → a ≠ 0 → run_spec I (body a) (flow_post I Qret) E) →
  run_spec I (for_sentinel arr body) (flow_post I Qret) E.
Proof.
  intros HE. induction arr as [|a rest IH]; intros Hbody.
  - by apply run_fault.
  - simpl. destruct (a =? 0) eqn:Ha; [by apply run_ret|].
    eapply run_bind; [apply Hbody; [left | lia]|].
    intros [s|]; [by apply run_ret|].
    apply IH. intros a' Hin. apply Hbody. by right.
Qed.

Lemma run_for_shr bits ch (body : Z → M Flow) :
  (∀ c, run_spec I (body c) (flow_post I Qret) E) →
  run_spec I (for_shr bits ch body) (flow_post I Qret) E.
Proof.
  intros Hbody. revert ch. induction bits as [|bits IH]; intros ch.
  - by apply run_ret.
  - simpl. destruct (ch >? 0); [|by apply run_ret].
    eapply run_bind; [apply Hbody|].
    intros [s|]; [by apply run_ret | apply IH].
Qed.

End RunLoops.

(** ** What every run keeps

    [D] is a property of the events a run has added so far, kept by every
    call the example makes to a slave in [ok]; the lemmas carry it through
    each function, whether the function returns or not. *)

Section Outcomes.

Variable D : list Event → Prop.
Variable ok : Z → Prop.
Variable tr0 : list Event.

Hypothesis D_call :
  ∀ evs e, addressee e = None → e ≠ EvDisableSlaveMonitor → D evs → D (evs ++ [e]).
Hypothesis D_transfer :
  ∀ evs e s, is_transfer e = true → addressee e = Some s → ok s → D evs → D (evs ++ [e]).
Hypothesis D_probe :
  ∀ evs a, ok a → D evs → D (evs ++ [EvEnableSlaveMonitor a; EvDisableSlaveMonitor]).

#[warnings="-notation-for-abbreviation"]
Notation T := (since D tr0).

Lemma since_call e w :
  addressee e = None → e ≠ EvDisableSlaveMonitor → T w → T (log e w).
Proof.
  intros He Hd (evs & Htr & HD). exists (evs ++ [e]). simpl.
  rewrite Htr, app_assoc. split; [done|]. by apply D_call.
Qed.

Lemma since_transfer e s w :
  is_transfer e = true → addressee e = Some s → ok s → T w → T (log e w).
Proof.
  intros He Hs Hok (evs & Htr & HD). exists (evs ++ [e]). simpl.
  rewrite Htr, app_assoc. split; [done|]. by eapply D_transfer.
Qed.

Section Prims.

Variable J : World → Prop.
Hypothesis J_stable : stable J.

#[warnings="-notation-for-abbreviation"]
Notation I := (λ w, since D tr0 w ∧ J w).

Lemma run_WriteBuffer_store i v : run_spec I (WriteBuffer_store i v) (λ _, I) T.
Proof.
  intros w [HT HJ]. unfold WriteBuffer_store.
  destruct (in_range _ _); [|done]. split; [done | by apply J_stable].
Qed.

Lemma run_ReadBuffer_store i v : run_spec I (ReadBuffer_store i v) (λ _, I) T.
Proof.
  intros w [HT HJ]. unfold ReadBuffer_store.
  destruct (in_range _ _); [|done]. split; [done | by apply J_stable].
Qed.

Lemma run_ReadBuffer_load i : run_spec I (ReadBuffer_load i) (λ _, I) T.
Proof.
  intros w [HT HJ]. unfold ReadBuffer_load. by destruct (in_range _ _).
Qed.

Lemma run_wait_bus_idle : run_spec I (wait_bus_idle fuel) (λ _, I) T.
Proof.
  intros w [HT HJ]. unfold wait_bus_idle.
  destruct (spin_while_busy _ _); [|done]. split; [done | by apply J_stable].
Qed.

Lemma run_MasterSendPolled bytes slave :
  ok slave → run_spec I (MasterSendPolled bytes slave) (λ _, I) T.
Proof.
  intros Hok w [HT HJ]. unfold MasterSendPolled.
  destruct (XIicPs_MasterSendPolled _ _ _) as [st hw']. split.
  - by apply (since_transfer _ slave).
  - by apply J_stable, J_stable.
Qed.

Lemma run_MasterRecvPolled n slave :
  ok slave → run_spec I (MasterRecvPolled n slave) (λ _, I) T.
Proof.
  intros Hok w [HT HJ]. unfold MasterRecvPolled.
  destruct (XIicPs_MasterRecvPolled _ _ _) as [[st data] hw']. split.
  - by apply (since_transfer _ slave).
  - by apply J_stable, J_stable.
Qed.

Lemma run_do_usleep us : run_spec I (do_usleep us) (λ _, I) T.
Proof.
  apply run_modify. intros w [HT HJ]. split.
  - by apply since_call.
  - by apply J_stable, J_stable.
Qed.

Lemma run_MasterSendPolled_WriteBuffer n slave :
  ok slave → run_spec I (MasterSendPolled_WriteBuffer n slave) (λ _, I) T.
Proof.
  intros Hok. unfold MasterSendPolled_WriteBuffer.
  destruct (negb _); [apply run_fault; by intros w [HT _]|].
  eapply run_bind; [apply run_get|]. intros bytes.
  eapply run_conseq; [by apply run_MasterSendPolled | by intros w [HI _] | done..].
Qed.

Lemma run_MasterRecvPolled_ReadBuffer n slave :
  ok slave → run_spec I (MasterRecvPolled_ReadBuffer n slave) (λ _, I) T.
Proof.
  intros Hok. unfold MasterRecvPolled_ReadBuffer.
  destruct (negb _); [apply run_fault; by intros w [HT _]|].
  eapply run_bind; [by apply run_MasterRecvPolled|]. intros [Status data].
  apply run_bind with (Q := λ _, I); [|intros ?; by apply run_ret].
  apply run_modify. intros w [HT HJ]. split; [done | by apply J_stable].
Qed.

Lemma run_MuxInitChannel MuxIicAddr Channel :
  ok MuxIicAddr →
  run_spec I (MuxInitChannel fuel MuxIicAddr Channel) (λ s w, I w ∧ two_valued s) T.
Proof.
  intros Hok. unfold MuxInitChannel.
  eapply run_bind; [apply run_wait_bus_idle|]. intros ?.
  eapply run_bind; [by apply run_MasterSendPolled|]. intros Status.
  destruct (negb _); [apply run_ret; intros w HI; split; [done | by right]|].
  eapply run_bind; [apply run_wait_bus_idle|]. intros ?.
  eapply run_bind; [by apply run_MasterRecvPolled|]. intros [Status' data].
  destruct (negb _); [apply run_ret; intros w HI; split; [done | by right]|].
  eapply run_bind; [apply run_wait_bus_idle|]. intros ?.
  apply run_ret. intros w HI. split; [done | by left].
Qed.

End Prims.

(** *** Transfers with the EEPROM

    [J] is what else is kept: a property of the globals that has the
    EEPROM address among the slaves in [ok]. *)

Section Kept.

Variable J : World → Prop.
Hypothesis J_stable : stable J.
Hypothesis J_ok : ∀ w, J w → ok (EepromSlvAddr w).

#[warnings="-notation-for-abbreviation"]
Notation K := (λ w, since D tr0 w ∧ J w).

Lemma run_EepromWriteData ByteCount :
  run_spec K (EepromWriteData fuel ByteCount) (λ s w, K w ∧ two_valued s) T.
Proof.
  unfold EepromWriteData.
  eapply run_bind; [apply run_get|]. intros slave.
  apply run_pull with (φ := ok slave); [intros w [[_ HJ] ->]; by apply J_ok|]. intros Hslave.
  apply run_bind with (Q := λ _, K).
  { eapply run_conseq;
      [by apply (run_MasterSendPolled_WriteBuffer _ J_stable) | by intros w [HK _] | done..]. }
  intros Status.
  destruct (negb _); [apply run_ret; intros w HK; split; [done | by right]|].
  eapply run_bind; [apply (run_wait_bus_idle _ J_stable)|]. intros ?.
  eapply run_bind; [apply (run_do_usleep _ J_stable)|]. intros ?.
  apply run_ret. intros w HK. split; [done | by left].
Qed.

Lemma run_put_address size Address :
  run_spec K (put_address size Address) (λ _, K) T.
Proof.
  unfold put_address. destruct (size =? PAGE_SIZE_16).
  - eapply run_bind; [apply (run_WriteBuffer_store _ J_stable)|]. intros ?. by apply run_ret.
  - eapply run_bind; [apply (run_WriteBuffer_store _ J_stable)|]. intros ?.
    eapply run_bind; [apply (run_WriteBuffer_store _ J_stable)|]. intros ?. by apply run_ret.
Qed.

Lemma run_EepromReadData ByteCount Address :
  run_spec K (EepromReadData fuel ByteCount Address) (λ s w, K w ∧ two_valued s) T.
Proof.
  unfold EepromReadData.
  eapply run_bind; [apply run_get|]. intros size.
  apply run_bind with (Q := λ _, K).
  { eapply run_conseq; [apply run_put_address | by intros w [HK _] | done..]. }
  intros WrBfrOffset.
  eapply run_bind; [apply run_EepromWriteData|]. intros Status.
  destruct (negb _); [apply run_ret; intros w [HK _]; split; [done | by right]|].
  apply run_bind with (Q := λ slave w, K w ∧ slave = EepromSlvAddr w).
  { apply run_read. by intros w [HK _]. }
  intros slave.
  apply run_pull with (φ := ok slave); [intros w [[_ HJ] ->]; by apply J_ok|]. intros Hslave.
  apply run_bind with (Q := λ _, K).
  { eapply run_conseq;
      [by apply (run_MasterRecvPolled_ReadBuffer _ J_stable) | by intros w [HK _] | done..]. }
  intros Status'.
  destruct (negb _); [apply run_ret; intros w HK; split; [done | by right]|].
  eapply run_bind; [apply (run_wait_bus_idle _ J_stable)|]. intros ?.
  apply run_ret. intros w HK. split; [done | by left].
Qed.

(** *** The page-size detector *)

Hypothesis J_PageSize : ∀ p w, J w → J (set_PageSize p w).

Lemma run_fill (body_value : Z → Z) size off :
  run_spec K (for_count size 0 (λ Index,
                WriteBuffer_store (u32 (off + Index)) (body_value Index) ;;
                ReadBuffer_store Index 0)) (λ _, K) T.
Proof.
  apply run_for_count. intros Index.
  eapply run_bind; [apply (run_WriteBuffer_store _ J_stable)|]. intros ?.
  apply (run_ReadBuffer_store _ J_stable).
Qed.

Lemma run_page_trial i :
  run_spec K (page_trial fuel i)
    (λ out w, K w ∧ PageSize w = candidate i ∧
              match fst out with
              | Return s => two_valued s
              | Fallthrough => snd out = XST_SUCCESS
              end) T.
Proof.
  apply run_conseq with (P := K) (E := T)
    (Q := λ out w, (K w ∧ match fst out with
                          | Return s => two_valued s
                          | Fallthrough => snd out = XST_SUCCESS
                          end) ∧ PageSize w = candidate i); [apply run_returns | done | | done].
  - unfold page_trial. cbv zeta.
    apply run_bind with (Q := λ _, K);
      [apply run_modify; intros w [HT HJ]; split; [done | by apply J_PageSize]|]. intros ?.
    eapply run_bind; [apply run_put_address|]. intros WrBfrOffset.
    eapply run_bind; [apply (run_fill (λ Index, u32 (Index + i)))|]. intros ?.
    eapply run_bind; [apply run_EepromWriteData|]. intros Status.
    destruct (negb _); [apply run_ret; intros w [HK _]; split; [done | by right]|].
    apply run_bind with (Q := λ s w, K w ∧ two_valued s).
    { eapply run_conseq; [apply run_EepromReadData | by intros w [HK _] | done..]. }
    intros Status'.
    destruct (negb (Status' =? XST_SUCCESS)) eqn:Hst;
      [apply run_ret; intros w [HK _]; split; [done | by right]|].
    apply negb_false_iff, Z.eqb_eq in Hst.
    apply run_bind with (Q := λ _, K).
    { eapply run_conseq; [apply run_count_matches with (I := K) | by intros w [HK _] | done..].
      by intros w [HT _]. }
    intros count. destruct (count =? _); apply run_ret; intros w HK; (split; [done|]).
    + by left.
    + done.
  - intros w [r Status] w' Hrun. by eapply page_trial_PageSize.
  - by intros [r Status] w [[HK Hr] Hps].
Qed.

Lemma run_FindEepromPageSize_loop n i Status :
  0 ≤ i → i + Z.of_nat n ≤ 3 → two_valued Status →
  run_spec (λ w, K w ∧ (0 < i → page_size_ok (PageSize w)))
    (FindEepromPageSize_loop fuel n i Status)
    (λ s w, K w ∧ two_valued s ∧ (0 < i + Z.of_nat n → page_size_ok (PageSize w))) T.
Proof.
  revert i Status. induction n as [|n IH]; intros i Status Hi Hn Hst.
  - apply run_ret. intros w [HK Hps]. split; [done | split; [done|]].
    intros ?. apply Hps. lia.
  - simpl.
    apply run_bind with
      (Q := λ out w, K w ∧ PageSize w = candidate i ∧
                     match fst out with
                     | Return s => two_valued s
                     | Fallthrough => snd out = XST_SUCCESS
                     end).
    { eapply run_conseq; [apply run_page_trial | by intros w [HK _] | done..]. }
    intros [[s|] Status'].
    + apply run_ret. intros w (HK & Hps & Hs). split; [done | split; [done|]].
      intros _. rewrite Hps. apply candidate_ok. lia.
    + apply run_pull with (φ := Status' = XST_SUCCESS); [by intros w (_ & _ & Hs)|].
      intros ->.
      eapply run_conseq; [apply (IH (i + 1) XST_SUCCESS); [lia | lia | by left] | | |done].
      * intros w (HK & Hps & Hs). split; [done|]. intros _. rewrite Hps. apply candidate_ok. lia.
      * intros s w (HK & Hs & Hps). split; [done | split; [done|]]. intros _. apply Hps. lia.
Qed.

Lemma run_FindEepromPageSize EepromAddr :
  run_spec K (FindEepromPageSize fuel EepromAddr)
    (λ s w, K w ∧ two_valued s ∧ page_size_ok (PageSize w)) T.
Proof.
  unfold FindEepromPageSize.
  eapply run_conseq;
    [apply (run_FindEepromPageSize_loop 3 0 XST_FAILURE); [lia | lia | by right] | | | done].
  - intros w HK. split; [done | lia].
  - intros s w (HK & Hs & Hps). split; [done | split; [done|]]. apply Hps. lia.
Qed.

(** *** The two passes of the self-test *)

Lemma run_write_page page_count :
  run_spec K (write_page fuel page_count)
    (flow_post K (λ s w, K w ∧ s = XST_FAILURE)) T.
Proof.
  unfold write_page. cbv zeta.
  eapply run_bind; [apply run_get|]. intros size.
  apply run_bind with (Q := λ _, K).
  { destruct (size =? PAGE_SIZE_16).
    - apply run_bind with (Q := λ _, K); [|intros ?; by apply run_ret].
      eapply run_conseq; [apply (run_WriteBuffer_store _ J_stable) | by intros w [HK _] | done..].
    - apply run_bind with (Q := λ _, K).
      { eapply run_conseq;
          [apply (run_WriteBuffer_store _ J_stable) | by intros w [HK _] | done..]. }
      intros ?. eapply run_bind; [apply (run_WriteBuffer_store _ J_stable)|].
      intros ?. by apply run_ret. }
  intros WrBfrOffset.
  eapply run_bind; [apply (run_fill (λ _, 0xFF))|]. intros ?.
  eapply run_bind; [apply run_EepromWriteData|]. intros Status.
  destruct (negb _); apply run_ret; by intros w [HK _].
Qed.

Lemma run_verify_page page_count :
  run_spec K (verify_page fuel page_count)
    (flow_post K (λ s w, K w ∧ s = XST_FAILURE)) T.
Proof.
  unfold verify_page.
  eapply run_bind; [apply run_get|]. intros size.
  apply run_bind with (Q := λ _, K).
  { eapply run_conseq; [apply run_EepromReadData | by intros w [HK _] | by intros s w [HK _] | done]. }
  intros Status. destruct (negb _); [by apply run_ret|].
  apply run_for_count_flow. intros Index.
  apply run_bind with (Q := λ _, K).
  { apply run_ReadBuffer_load. }
  intros b. destruct (negb _); by apply run_ret.
Qed.

End Kept.

(** *** The presence probes and the locator *)

Hypothesis ok_known : ∀ a, a ∈ known_slaves → ok a.

Lemma known_mux a : a ∈ MuxAddr → a ≠ 0 → a ∈ known_slaves.
Proof.
  intros Hin Ha. unfold known_slaves. apply list_elem_of_filter.
  split; [done|]. apply elem_of_app. by left.
Qed.

Lemma known_eeprom a : a ∈ EepromAddr → a ≠ 0 → a ∈ known_slaves.
Proof.
  intros Hin Ha. unfold known_slaves. apply list_elem_of_filter.
  split; [done|]. apply elem_of_app. by right.
Qed.

Lemma run_IicPsConfig DeviceId :
  run_spec T (IicPsConfig DeviceId) (λ s w, T w ∧ two_valued s) T.
Proof.
  unfold IicPsConfig.
  destruct (XIicPs_LookupConfig DeviceId) as [BaseAddress|];
    [|apply run_ret; intros w HT; split; [done | by right]].
  apply run_bind with (Q := λ _, T).
  { intros w HT. destruct (XIicPs_CfgInitialize _ _) as [Status hw']. by apply since_call. }
  intros Status.
  destruct (negb _); [apply run_ret; intros w HT; split; [done | by right]|].
  apply run_bind with (Q := λ _, T);
    [apply run_modify; intros w HT; by apply since_call|].
  intros ?. apply run_ret. intros w HT. split; [done | by left].
Qed.

Lemma run_probe Address :
  ok Address →
  run_spec T (EnableSlaveMonitor Address ;;
              slave_monitor_poll (Z.to_nat SLV_MON_LOOP_COUNT))
    (λ s w, T w ∧ two_valued s) T.
Proof.
  intros Hok w (evs & Htr & HD). rewrite bind_run.
  unfold EnableSlaveMonitor, modify.
  destruct (slave_monitor_poll_spec (Z.to_nat SLV_MON_LOOP_COUNT)
              (log (EvEnableSlaveMonitor Address)
                (set_IicInstance (XIicPs_EnableSlaveMonitor Address (IicInstance w)) w)))
    as (st & w' & Hrun & _ & Hcase).
  rewrite Hrun.
  destruct Hcase as [(k & _ & -> & _ & _ & Htr' & _) | (-> & _ & Htr' & _)];
    simpl in Htr'; (split; [|by (left + right)]).
  - exists ((evs ++ [EvEnableSlaveMonitor Address; EvDisableSlaveMonitor]) ++
            [EvWriteReg XIICPS_ISR_OFFSET (isr_value k (XIicPs_EnableSlaveMonitor Address (IicInstance w)))]).
    split; [rewrite Htr', Htr; by rewrite <- !app_assoc|].
    apply D_call; [done..|]. by apply D_probe.
  - exists (evs ++ [EvEnableSlaveMonitor Address; EvDisableSlaveMonitor]).
    split; [rewrite Htr', Htr; by rewrite <- !app_assoc|]. by apply D_probe.
Qed.

Lemma run_FindEepromDevice Address :
  ok Address → run_spec T (FindEepromDevice Address) (λ s w, T w ∧ two_valued s) T.
Proof. apply run_probe. Qed.

Lemma run_IicPsSlaveMonitor Address DeviceId :
  ok Address →
  run_spec T (IicPsSlaveMonitor Address DeviceId) (λ s w, T w ∧ two_valued s) T.
Proof.
  intros Hok. unfold IicPsSlaveMonitor.
  eapply run_bind; [apply run_IicPsConfig|]. intros Status.
  destruct (negb _); [apply run_ret; intros w [HT _]; split; [done | by right]|].
  eapply run_conseq; [by apply run_probe | by intros w [HT _] | done..].
Qed.

Lemma run_IicPsFindDevice addr DeviceId :
  ok addr →
  run_spec T (IicPsFindDevice addr DeviceId) (λ _, T) T.
Proof.
  intros Hok. unfold IicPsFindDevice.
  eapply run_bind; [by apply run_IicPsSlaveMonitor|]. intros Status.
  destruct (Status =? XST_SUCCESS); apply run_ret; by intros w [HT _].
Qed.

Lemma found_failure w : found_eeprom XST_FAILURE w.
Proof. split; [by right|]. intros Heq. by destruct XST_distinct. Qed.

Lemma run_try_channel mux eeprom MuxChannel :
  ok mux → eeprom ∈ EepromAddr → eeprom ≠ 0 →
  run_spec T (try_channel fuel mux eeprom MuxChannel)
    (flow_post T (λ s w, T w ∧ found_eeprom s w)) T.
Proof.
  intros Hmux Hin Hnz. unfold try_channel.
  apply run_bind with (Q := λ _, T).
  { eapply run_conseq;
      [apply (run_MuxInitChannel (λ _, True) (stable_const True) mux MuxChannel Hmux)
      | by intros w HT | by intros s w [[HT _] _] | done]. }
  intros Status.
  destruct (negb _); [apply run_ret; intros w HT; split; [done | apply found_failure]|].
  apply run_bind with (Q := λ _, T).
  { eapply run_conseq;
      [apply run_FindEepromDevice; by apply ok_known, known_eeprom
      | done | by intros s w [HT _] | done]. }
  intros Status'. destruct (Status' =? XST_SUCCESS); [|by apply run_ret].
  apply run_bind with (Q := λ _ w, T w ∧ EepromSlvAddr w = eeprom);
    [by apply run_modify|].
  intros ?. eapply run_bind.
  { apply run_FindEepromPageSize with (J := λ w, EepromSlvAddr w = eeprom).
    - apply stable_EepromSlvAddr.
    - intros w ->. by apply ok_known, known_eeprom.
    - done. }
  intros Status''. destruct (negb _); apply run_ret;
    intros w ((HT & Haddr) & _ & Hps); (split; [done|]); [apply found_failure|].
  split; [by left|]. intros _. by rewrite Haddr.
Qed.

Lemma run_scan_muxes DeviceId :
  run_spec T (scan_muxes fuel DeviceId) (flow_post T (λ s w, T w ∧ found_eeprom s w)) T.
Proof.
  unfold scan_muxes. apply run_for_sentinel; [done|]. intros mux Hmux Hmux0.
  apply run_bind with (Q := λ _, T);
    [by apply run_IicPsFindDevice, ok_known, known_mux|].
  intros Status. destruct (Status =? XST_SUCCESS); [|by apply run_ret].
  apply run_for_sentinel; [done|]. intros eeprom Hin Hnz.
  apply run_for_shr. intros MuxChannel.
  by apply run_try_channel; [apply ok_known, known_mux|..].
Qed.

Lemma run_scan_direct DeviceId :
  run_spec T (scan_direct DeviceId) (flow_post T (λ s w, T w ∧ found_eeprom s w)) T.
Proof.
  unfold scan_direct. apply run_for_sentinel; [done|]. intros eeprom Hin Hnz.
  apply run_bind with (Q := λ _, T);
    [by apply run_IicPsFindDevice, ok_known, known_eeprom|].
  intros Status. destruct (Status =? XST_SUCCESS); [|by apply run_ret].
  apply run_bind with (Q := λ _ w, T w ∧ EepromSlvAddr w = eeprom);
    [by apply run_modify|].
  intros ?.
  apply run_bind with
    (Q := λ _ w, T w ∧ EepromSlvAddr w = eeprom ∧ PageSize w = PAGE_SIZE_32);
    [apply run_modify; by intros w [HT Haddr]|].
  intros ?. apply run_ret. intros w (HT & Haddr & Hps).
  split; [done|]. split; [by left|]. intros _. rewrite Haddr, Hps.
  split; [done|]. right. by left.
Qed.

Lemma run_IicPsFindEeprom_from n DeviceId :
  run_spec T (IicPsFindEeprom_from fuel n DeviceId) (λ s w, T w ∧ found_eeprom s w) T.
Proof.
  unfold IicPsFindEeprom_from.
  apply run_bind with (Q := flow_post T (λ s w, T w ∧ found_eeprom s w)).
  - apply run_for_count_flow. intros d. unfold scan_instance.
    eapply run_bind; [apply run_scan_muxes|].
    intros [s|]; [by apply run_ret | apply run_scan_direct].
  - intros [s|]; apply run_ret; [done|].
    intros w HT. split; [done | apply found_failure].
Qed.

(** *** The self-test and [main] *)

Lemma run_IicPsEepromPolledExample :
  run_spec T (IicPsEepromPolledExample fuel) (λ s w, T w ∧ two_valued s) T.
Proof.
  unfold IicPsEepromPolledExample, IicPsFindEeprom.
  eapply run_bind; [apply run_IicPsFindEeprom_from|]. intros Status.
  destruct (negb (Status =? XST_SUCCESS)) eqn:Hst;
    [apply run_ret; intros w [HT _]; split; [done | by right]|].
  apply negb_false_iff, Z.eqb_eq in Hst. subst Status.
  pose (J := λ w, EepromSlvAddr w ∈ EepromAddr ∧ EepromSlvAddr w ≠ 0).
  assert (HJ : stable J) by (by split_and!).
  assert (HJok : ∀ w, J w → ok (EepromSlvAddr w))
    by (intros w [Hin Hnz]; by apply ok_known, known_eeprom).
  apply run_conseq with
    (P := λ w, T w ∧ J w) (Q := λ s w, T w ∧ two_valued s) (E := T);
    [| by intros w [HT [_ Hfound]]; split; [|apply Hfound] | done..].
  apply run_bind with (Q := flow_post (λ w, T w ∧ J w) (λ s w, (T w ∧ J w) ∧ s = XST_FAILURE)).
  { apply run_for_count_flow. intros page_count. by apply run_write_page. }
  intros [s|]; [apply run_ret; intros w [[HT _] ->]; split; [done | by right]|].
  apply run_bind with (Q := flow_post (λ w, T w ∧ J w) (λ s w, (T w ∧ J w) ∧ s = XST_FAILURE)).
  { apply run_for_count_flow. intros page_count. by apply run_verify_page. }
  intros [s|]; apply run_ret.
  - intros w [[HT _] ->]. split; [done | by right].
  - intros w [HT _]. split; [done | by left].
Qed.

Lemma run_main :
  run_spec T (main fuel) (λ s w, T w ∧ two_valued s) T.
Proof.
  unfold main.
  eapply run_bind; [apply run_IicPsEepromPolledExample|]. intros Status.
  destruct (negb _); apply run_ret; intros w [HT _]; (split; [done|]); [by right | by left].
Qed.

End Outcomes.

(** ** Properties of every run *)

Lemma since_start (D : list Event → Prop) w : D [] → since D (trace w) w.
Proof. intros HD. exists []. by rewrite app_nil_r. Qed.

Lemma anything_goes :
  (∀ (evs : list Event) (e : Event),
     addressee e = None → e ≠ EvDisableSlaveMonitor → True → True) ∧
  (∀ (evs : list Event) (e : Event) (s : Z),
     is_transfer e = true → addressee e = Some s → True → True → True) ∧
  (∀ (evs : list Event) (a : Z), True → True → True).
Proof. done. Qed.

(** X5.  Every function of the example that returns a status returns
    [XST_SUCCESS] or [XST_FAILURE] and nothing else, whatever status codes
    the driver hands it: [main], the self-test, the locator, the page-size
    detector (whose last [return] passes on a variable), the page read and
    write, the channel selection, the presence probes and the
    configuration. *)
Theorem statuses_two_valued w :
  returns_two_valued (main fuel w) ∧
  returns_two_valued (IicPsEepromPolledExample fuel w) ∧
  returns_two_valued (IicPsFindEeprom fuel w) ∧
  (∀ EepromAddr, returns_two_valued (FindEepromPageSize fuel EepromAddr w)) ∧
  (∀ ByteCount Address, returns_two_valued (EepromReadData fuel ByteCount Address w)) ∧
  (∀ ByteCount, returns_two_valued (EepromWriteData fuel ByteCount w)) ∧
  (∀ MuxIicAddr Channel, returns_two_valued (MuxInitChannel fuel MuxIicAddr Channel w)) ∧
  (∀ addr DeviceId, returns_two_valued (IicPsFindDevice addr DeviceId w)) ∧
  (∀ Address DeviceId, returns_two_valued (IicPsSlaveMonitor Address DeviceId w)) ∧
  (∀ Address, returns_two_valued (FindEepromDevice Address w)) ∧
  (∀ DeviceId, returns_two_valued (IicPsConfig DeviceId w)).
Proof.
  destruct anything_goes as (Hcall & Htransfer & Hprobe).
  pose proof (since_start (λ _, True) w I) as Hstart.
  assert (Hany : ∀ a, a ∈ known_slaves → True) by done.
  assert (Hkept : stable (λ _ : World, True)) by apply stable_const.
  unfold returns_two_valued. split_and!.
  - pose proof (run_main _ _ _ Hcall Htransfer Hprobe Hany w Hstart) as H.
    by destruct (main fuel w) as [[s|f] w']; [destruct H|].
  - pose proof (run_IicPsEepromPolledExample _ _ _ Hcall Htransfer Hprobe Hany w Hstart) as H.
    by destruct (IicPsEepromPolledExample fuel w) as [[s|f] w']; [destruct H|].
  - pose proof (run_IicPsFindEeprom_from _ _ _ Hcall Htransfer Hprobe Hany
                  (Z.to_nat XPAR_XIICPS_NUM_INSTANCES) 0 w Hstart) as H.
    unfold IicPsFindEeprom.
    by destruct (IicPsFindEeprom_from _ _ _ w) as [[s|f] w']; [destruct H as [_ [H _]]|].
  - intros a.
    pose proof (run_FindEepromPageSize _ (λ _, True) _ Hcall Htransfer
                  (λ _, True) Hkept (λ _ _, I) (λ _ _ _, I) a w (conj Hstart I)) as H.
    by destruct (FindEepromPageSize _ _ w) as [[s|f] w']; [destruct H as [_ [H _]]|].
  - intros ByteCount Address.
    pose proof (run_EepromReadData _ (λ _, True) _ Hcall Htransfer
                  (λ _, True) Hkept (λ _ _, I) ByteCount Address w (conj Hstart I)) as H.
    by destruct (EepromReadData _ _ _ w) as [[s|f] w']; [destruct H|].
  - intros ByteCount.
    pose proof (run_EepromWriteData _ (λ _, True) _ Hcall Htransfer
                  (λ _, True) Hkept (λ _ _, I) ByteCount w (conj Hstart I)) as H.
    by destruct (EepromWriteData _ _ w) as [[s|f] w']; [destruct H|].
  - intros MuxIicAddr Channel.
    pose proof (run_MuxInitChannel _ (λ _, True) _ Htransfer
                  (λ _, True) Hkept MuxIicAddr Channel I w (conj Hstart I)) as H.
    by destruct (MuxInitChannel _ _ _ w) as [[s|f] w']; [destruct H|].
  - intros addr DeviceId.
    destruct (IicPsFindDevice_total addr DeviceId w) as (st & w' & -> & Hst & _). exact Hst.
  - intros Address DeviceId.
    pose proof (run_IicPsSlaveMonitor _ (λ _, True) _ Hcall Hprobe Address DeviceId I w Hstart) as H.
    by destruct (IicPsSlaveMonitor _ _ w) as [[s|f] w']; [destruct H|].
  - intros Address.
    pose proof (run_FindEepromDevice _ (λ _, True) _ Hcall Hprobe Address I w Hstart) as H.
    by destruct (FindEepromDevice _ w) as [[s|f] w']; [destruct H|].
  - intros DeviceId.
    destruct (IicPsConfig_total DeviceId w) as (st & w' & -> & _ & Hst & _). exact Hst.
Qed.

(** X6.  When the locator returns success, [EepromSlvAddr] holds one of
    the two candidate addresses 0x54 and 0x55 and [PageSize] one of 16, 32
    and 64; and it returns nothing but success or failure. *)
Theorem locator_postcondition w :
  match IicPsFindEeprom fuel w with
  | (Done s, w') =>
      (s = XST_SUCCESS ∨ s = XST_FAILURE) ∧
      (s = XST_SUCCESS →
       (EepromSlvAddr w' = 0x54 ∨ EepromSlvAddr w' = 0x55) ∧
       (PageSize w' = 16 ∨ PageSize w' = 32 ∨ PageSize w' = 64))
  | (Stuck _, _) => True
  end.
Proof.
  destruct anything_goes as (Hcall & Htransfer & Hprobe).
  pose proof (run_IicPsFindEeprom_from _ _ _ Hcall Htransfer Hprobe (λ _ _, I)
                (Z.to_nat XPAR_XIICPS_NUM_INSTANCES) 0 w (since_start (λ _, True) w I)) as H.
  unfold IicPsFindEeprom.
  destruct (IicPsFindEeprom_from _ _ _ w) as [[s|f] w']; [|done].
  destruct H as [_ [Hs Hfound]]. split; [exact Hs|].
  intros Heq. destruct (Hfound Heq) as [[Hin Hnz] Hps]. split.
  - unfold EepromAddr in Hin. rewrite !elem_of_cons in Hin.
    destruct Hin as [?|[?|[?|Hin]]]; [by left | by right | done | by apply elem_of_nil in Hin].
  - unfold page_size_ok, PAGE_SIZE_16, PAGE_SIZE_32, PAGE_SIZE_64 in Hps. lia.
Qed.

Lemma monitor_discipline_app evs evs' :
  monitor_discipline evs → monitor_discipline evs' → monitor_discipline (evs ++ evs').
Proof. unfold monitor_discipline. intros H H'. by rewrite foldl_app, H. Qed.

(** X8.  Slave-monitor mode is on for the polls of a presence probe and
    for nothing else: in the calls [main] makes, every switch-on is
    followed at once by the switch-off, every switch-off follows a
    switch-on, and no transfer, configuration, register write or sleep
    falls in between.  This holds of every run, also of one that hangs on
    a busy bus: it never leaves the mode on. *)
Theorem monitor_mode_confined w :
  ∃ evs, trace (snd (main fuel w)) = trace w ++ evs ∧ monitor_discipline evs.
Proof.
  assert (Hrun : run_spec (since monitor_discipline (trace w)) (main fuel)
                   (λ s w', since monitor_discipline (trace w) w' ∧ two_valued s)
                   (since monitor_discipline (trace w))).
  { apply run_main with (ok := λ _, True); [| | | done].
    - intros evs e He Hd HD. apply monitor_discipline_app; [done|].
      by destruct e.
    - intros evs e s He _ _ HD. apply monitor_discipline_app; [done|].
      by destruct e.
    - intros evs a _ HD. by apply monitor_discipline_app. }
  specialize (Hrun w (since_start _ w eq_refl)).
  destruct (main fuel w) as [[s|f] w']; [by destruct Hrun | done].
Qed.

Lemma known_slaves_are : known_slaves = [0x74; 0x54; 0x55].
Proof. reflexivity. Qed.

(** X9.  Whatever is on the bus and however the run ends, [main] addresses
    no slave but the multiplexer candidate 0x74 and the EEPROM candidates
    0x54 and 0x55: every transfer and every presence probe it makes goes
    to one of the three. *)
Theorem only_known_slaves_addressed w :
  ∃ evs, trace (snd (main fuel w)) = trace w ++ evs ∧
         Forall (addressed_to [0x74; 0x54; 0x55]) evs.
Proof.
  rewrite <- known_slaves_are.
  assert (Hrun : run_spec (since (Forall (addressed_to known_slaves)) (trace w)) (main fuel)
                   (λ s w', since (Forall (addressed_to known_slaves)) (trace w) w' ∧ two_valued s)
                   (since (Forall (addressed_to known_slaves)) (trace w))).
  { apply run_main with (ok := λ a, a ∈ known_slaves); [| | | done].
    - intros evs e He _ HD. apply Forall_app. split; [done|].
      apply Forall_singleton. unfold addressed_to. by rewrite He.
    - intros evs e s _ He Hs HD. apply Forall_app. split; [done|].
      apply Forall_singleton. unfold addressed_to. by rewrite He.
    - intros evs a Ha HD. apply Forall_app. split; [done|].
      apply Forall_cons. split; [exact Ha|].
      apply Forall_cons. split; [exact I | apply Forall_nil_2]. }
  specialize (Hrun w (since_start _ w (Forall_nil_2 _))).
  destruct (main fuel w) as [[s|f] w']; [by destruct Hrun | done].
Qed.

(** X10.  The page-size detector talks to the slave in the global
    [EepromSlvAddr] and to no other, whatever address it is passed: every
    transfer of a run of [FindEepromPageSize], finished or not, is
    addressed to that slave, and a run that returns leaves the global as
    it was. *)
Theorem detector_addresses_global (EepromAddr : Z) w :
  (∃ evs, trace (snd (FindEepromPageSize fuel EepromAddr w)) = trace w ++ evs ∧
          Forall (addressed_to [EepromSlvAddr w]) evs) ∧
  match FindEepromPageSize fuel EepromAddr w with
  | (Done _, w') => EepromSlvAddr w' = EepromSlvAddr w
  | (Stuck _, _) => True
  end.
Proof.
  set (slave := EepromSlvAddr w).
  assert (Hrun : run_spec (λ w', since (Forall (addressed_to [slave])) (trace w) w' ∧
                                 EepromSlvAddr w' = slave)
                   (FindEepromPageSize fuel EepromAddr)
                   (λ s w', (since (Forall (addressed_to [slave])) (trace w) w' ∧
                             EepromSlvAddr w' = slave) ∧
                            two_valued s ∧ page_size_ok (PageSize w'))
                   (since (Forall (addressed_to [slave])) (trace w))).
  { apply run_FindEepromPageSize with (ok := λ a, a = slave).
    - intros evs e He _ HD. apply Forall_app. split; [done|].
      apply Forall_singleton. unfold addressed_to. by rewrite He.
    - intros evs e s _ He -> HD. apply Forall_app. split; [done|].
      apply Forall_singleton. unfold addressed_to. rewrite He. by left.
    - apply stable_EepromSlvAddr.
    - done.
    - done. }
  specialize (Hrun w (conj (since_start _ w (Forall_nil_2 _)) eq_refl)).
  destruct (FindEepromPageSize fuel EepromAddr w) as [[s|f] w']; [|done].
  by destruct Hrun as [[Hsince Haddr] _].
Qed.

(** ** Precedence of the multiplexer path *)


(** ** What a transfer function does, case by case *)

Lemma failure_is_not_success : (XST_FAILURE =? XST_SUCCESS) = false.
Proof. apply Z.eqb_neq. intros Heq. by destruct XST_distinct. Qed.

(** [EepromWriteData], call by call. *)
Lemma EepromWriteData_result ByteCount w :
  0 ≤ ByteCount ≤ WriteBuffer_size →
  EepromWriteData fuel ByteCount w =
  let bytes := take (Z.to_nat ByteCount) (WriteBuffer w) in
  let sent := XIicPs_MasterSendPolled bytes (EepromSlvAddr w) (IicInstance w) in
  let w1 := log (EvSend bytes (EepromSlvAddr w) (fst sent)) (set_IicInstance (snd sent) w) in
  if fst sent =? XST_SUCCESS then
    match spin_while_busy fuel (snd sent) with
    | Some hw2 =>
        (Done XST_SUCCESS,
         log (EvUsleep 250000) (set_IicInstance (usleep 250000 hw2) (set_IicInstance hw2 w1)))
    | None => (Stuck BusNeverIdle, w1)
    end
  else (Done XST_FAILURE, w1).
Proof.
  intros Hn. unfold EepromWriteData, MasterSendPolled_WriteBuffer.
  replace ((0 <=? ByteCount) && (ByteCount <=? WriteBuffer_size)) with true by lia.
  unfold bind, get, MasterSendPolled, wait_bus_idle, do_usleep, modify, ret. simpl.
  destruct (XIicPs_MasterSendPolled _ _ _) as [st hw']. simpl.
  destruct (st =? XST_SUCCESS); simpl; [|done].
  by destruct (spin_while_busy fuel hw').
Qed.

(** What a returned [EepromWriteData] has done. *)
Lemma EepromWriteData_returns ByteCount w s w' :
  0 ≤ ByteCount ≤ WriteBuffer_size →
  EepromWriteData fuel ByteCount w = (Done s, w') →
  same_globals w w' ∧
  ∃ st, (st ≠ XST_SUCCESS ∧ s = XST_FAILURE ∧
         trace w' = trace w ++
           [EvSend (take (Z.to_nat ByteCount) (WriteBuffer w)) (EepromSlvAddr w) st]) ∨
        (st = XST_SUCCESS ∧ s = XST_SUCCESS ∧
         trace w' = trace w ++
           [EvSend (take (Z.to_nat ByteCount) (WriteBuffer w)) (EepromSlvAddr w) st;
            EvUsleep 250000]).
Proof.
  intros Hn Hrun. rewrite EepromWriteData_result in Hrun by done. cbv zeta in Hrun.
  destruct (XIicPs_MasterSendPolled _ _ _) as [st hw1]. simpl in Hrun.
  destruct (st =? XST_SUCCESS) eqn:Hst.
  - apply Z.eqb_eq in Hst.
    destruct (spin_while_busy fuel hw1) as [hw2|]; [|done].
    injection Hrun as <- <-. split; [done|]. exists st. right.
    simpl. by rewrite <- app_assoc.
  - apply Z.eqb_neq in Hst. injection Hrun as <- <-. split; [done|]. exists st. by left.
Qed.

(** X1.  A page write sends the first [ByteCount] bytes of [WriteBuffer]
    to the slave in [EepromSlvAddr].  When the driver reports anything but
    success it returns [XST_FAILURE] at once: it neither waits for the bus
    nor sleeps.  When the send succeeds it waits for the bus to be idle,
    sleeps 250000 microseconds for the programming to complete, and
    returns [XST_SUCCESS]; if the bus never gets idle it never sleeps.
    No global but the controller is touched. *)
Theorem page_write_outcome ByteCount w :
  0 ≤ ByteCount ≤ WriteBuffer_size →
  let bytes := take (Z.to_nat ByteCount) (WriteBuffer w) in
  let sent := XIicPs_MasterSendPolled bytes (EepromSlvAddr w) (IicInstance w) in
  let send := EvSend bytes (EepromSlvAddr w) (fst sent) in
  match EepromWriteData fuel ByteCount w with
  | (Done s, w') =>
      same_globals w w' ∧
      if fst sent =? XST_SUCCESS
      then s = XST_SUCCESS ∧ trace w' = trace w ++ [send; EvUsleep 250000]
      else s = XST_FAILURE ∧ trace w' = trace w ++ [send] ∧ IicInstance w' = snd sent
  | (Stuck f, w') =>
      f = BusNeverIdle ∧ fst sent = XST_SUCCESS ∧
      spin_while_busy fuel (snd sent) = None ∧ trace w' = trace w ++ [send]
  end.
Proof.
  intros Hn. cbv zeta. rewrite EepromWriteData_result by done. cbv zeta.
  destruct (XIicPs_MasterSendPolled _ _ _) as [st hw1]. simpl fst. simpl snd.
  destruct (st =? XST_SUCCESS) eqn:Hst.
  - apply Z.eqb_eq in Hst.
    destruct (spin_while_busy fuel hw1) as [hw2|] eqn:Hspin.
    + split; [done|]. split; [done|]. simpl. by rewrite <- app_assoc.
    + by split_and!.
  - by split_and!.
Qed.

(** The address pointer is put at the head of [WriteBuffer] and nothing
    else changes. *)
Lemma put_address_field size Address w :
  buffers_ok w →
  ∃ off w0,
    put_address size Address w = (Done off, w0) ∧ (off = 1 ∨ off = 2) ∧
    take (Z.to_nat off) (WriteBuffer w0) = address_field size Address ∧
    length (WriteBuffer w0) = length (WriteBuffer w) ∧
    ReadBuffer w0 = ReadBuffer w ∧ EepromSlvAddr w0 = EepromSlvAddr w ∧
    PageSize w0 = PageSize w ∧ trace w0 = trace w.
Proof.
  intros [Hlw _]. rewrite put_address_run. unfold address_field.
  destruct (WriteBuffer w) as [|b0 [|b1 wb]] eqn:Hwb; [done..|].
  rewrite !u8_low_byte.
  destruct (size =? PAGE_SIZE_16); eexists _, _; (split; [reflexivity|]); simpl;
    split_and!; auto.
Qed.

Lemma MasterRecvPolled_ReadBuffer_result ByteCount slave w :
  0 ≤ ByteCount ≤ ReadBuffer_size →
  MasterRecvPolled_ReadBuffer ByteCount slave w =
  let got := XIicPs_MasterRecvPolled ByteCount slave (IicInstance w) in
  let data := u8 <$> take (Z.to_nat ByteCount) (snd (fst got)) in
  (Done (fst (fst got)),
   set_ReadBuffer (data ++ drop (length data) (ReadBuffer w))
     (log (EvRecv ByteCount slave (fst (fst got)) data) (set_IicInstance (snd got) w))).
Proof.
  intros Hn. unfold MasterRecvPolled_ReadBuffer.
  replace ((0 <=? ByteCount) && (ByteCount <=? ReadBuffer_size)) with true by lia.
  unfold bind, MasterRecvPolled, modify, ret. simpl.
  by destruct (XIicPs_MasterRecvPolled _ _ _) as [[st raw] hw'].
Qed.

(** What a returned [EepromReadData] has done. *)
Lemma EepromReadData_returns ByteCount Address w s w' :
  0 ≤ ByteCount ≤ ReadBuffer_size → buffers_ok w →
  EepromReadData fuel ByteCount Address w = (Done s, w') →
  EepromSlvAddr w' = EepromSlvAddr w ∧ PageSize w' = PageSize w ∧ buffers_ok w' ∧
  ∃ st,
    (st ≠ XST_SUCCESS ∧ s = XST_FAILURE ∧ ReadBuffer w' = ReadBuffer w ∧
     trace w' = trace w ++
       [EvSend (address_field (PageSize w) Address) (EepromSlvAddr w) st]) ∨
    (st = XST_SUCCESS ∧
     ∃ st' data,
       trace w' = trace w ++
         [EvSend (address_field (PageSize w) Address) (EepromSlvAddr w) st;
          EvUsleep 250000;
          EvRecv ByteCount (EepromSlvAddr w) st' data] ∧
       (length data ≤ Z.to_nat ByteCount)%nat ∧
       ReadBuffer w' = data ++ drop (length data) (ReadBuffer w) ∧
       s = if st' =? XST_SUCCESS then XST_SUCCESS else XST_FAILURE).
Proof.
  intros Hn Hok Hrun.
  destruct (put_address_field (PageSize w) Address w Hok)
    as (off & w0 & Hput & Hoff & Hfield & Hlen0 & Hrb0 & Haddr0 & Hps0 & Htr0).
  unfold EepromReadData in Hrun. rewrite bind_get, bind_run, Hput, bind_run in Hrun.
  destruct (EepromWriteData fuel off w0) as [[st1|f] w1] eqn:Hwrite; [|done].
  assert (Hoff66 : 0 ≤ off ≤ WriteBuffer_size)
    by (unfold WriteBuffer_size, sizeof_AddressType, MAX_SIZE; lia).
  destruct (EepromWriteData_returns _ _ _ _ Hoff66 Hwrite)
    as ((Hwb1 & Hrb1 & Haddr1 & Hps1) & st & Hcase).
  rewrite Hfield, Haddr0, Htr0 in Hcase.
  destruct Hok as [Hlw Hlr].
  destruct Hcase as [(Hst & -> & Htr1) | (Hst & -> & Htr1)].
  - rewrite failure_is_not_success in Hrun. simpl in Hrun. injection Hrun as <- <-.
    split_and!; [congruence | congruence | split; congruence |].
    exists st. left. split_and!; [done | done | congruence | done].
  - rewrite Z.eqb_refl in Hrun. change (negb true) with false in Hrun. cbv iota in Hrun.
    rewrite bind_get, bind_run, MasterRecvPolled_ReadBuffer_result in Hrun by done.
    cbv zeta in Hrun.
    destruct (XIicPs_MasterRecvPolled _ _ _) as [[st' raw] hw2]. cbn [fst snd] in Hrun.
    set (data := u8 <$> take (Z.to_nat ByteCount) raw) in Hrun.
    assert (Hdata : (length data ≤ Z.to_nat ByteCount)%nat).
    { subst data. rewrite length_fmap, length_take. lia. }
    assert (Hlen : length (data ++ drop (length data) (ReadBuffer w1)) =
                   Z.to_nat ReadBuffer_size).
    { rewrite length_app, length_drop, Hrb1, Hrb0, Hlr.
      unfold ReadBuffer_size, MAX_SIZE in *. lia. }
    destruct (st' =? XST_SUCCESS) eqn:Hst';
      [change (negb true) with false in Hrun | change (negb false) with true in Hrun];
      cbv iota in Hrun.
    + rewrite bind_run in Hrun. unfold wait_bus_idle in Hrun.
      destruct (spin_while_busy _ _) as [hw3|]; [|done].
      injection Hrun as <- <-. simpl.
      split_and!; [congruence | congruence | split; simpl; congruence |].
      exists st. right. split; [done|]. exists st', data.
      rewrite Htr1, Haddr1, Haddr0, Hrb1, Hrb0, Hst'.
      split_and!; [by rewrite <- app_assoc | done..].
    + injection Hrun as <- <-. simpl.
      split_and!; [congruence | congruence | split; simpl; congruence |].
      exists st. right. split; [done|]. exists st', data.
      rewrite Htr1, Haddr1, Haddr0, Hrb1, Hrb0, Hst'.
      split_and!; [by rewrite <- app_assoc | done..].
Qed.

(** X2.  A page read of at most 64 bytes first sends the address field
    alone (one or two bytes, by [PageSize]) through the page-write routine,
    so it also sleeps 250000 microseconds after it.  If that send fails
    the read returns [XST_FAILURE] without receiving anything, and
    [ReadBuffer] is as it was.  Otherwise it receives [ByteCount] bytes
    from the slave into [ReadBuffer] from offset 0 and returns success
    exactly when the receive succeeds.  It changes neither [EepromSlvAddr]
    nor [PageSize], keeps the buffers at their sizes, and makes no access
    outside them. *)
Theorem page_read_outcome ByteCount Address w :
  0 ≤ ByteCount ≤ ReadBuffer_size → buffers_ok w →
  match EepromReadData fuel ByteCount Address w with
  | (Done s, w') =>
      EepromSlvAddr w' = EepromSlvAddr w ∧ PageSize w' = PageSize w ∧ buffers_ok w' ∧
      ∃ st,
        (st ≠ XST_SUCCESS ∧ s = XST_FAILURE ∧ ReadBuffer w' = ReadBuffer w ∧
         trace w' = trace w ++
           [EvSend (address_field (PageSize w) Address) (EepromSlvAddr w) st]) ∨
        (st = XST_SUCCESS ∧
         ∃ st' data,
           trace w' = trace w ++
             [EvSend (address_field (PageSize w) Address) (EepromSlvAddr w) st;
              EvUsleep 250000;
              EvRecv ByteCount (EepromSlvAddr w) st' data] ∧
           (length data ≤ Z.to_nat ByteCount)%nat ∧
           ReadBuffer w' = data ++ drop (length data) (ReadBuffer w) ∧
           s = if st' =? XST_SUCCESS then XST_SUCCESS else XST_FAILURE)
  | (Stuck f, _) => f = BusNeverIdle
  end.
Proof.
  intros Hn Hok.
  pose proof (hoare_EepromReadData _ (stable_const True) ByteCount Address Hn w I) as Hin.
  destruct (EepromReadData fuel ByteCount Address w) as [[s|f] w'] eqn:Hrun.
  - by apply (EepromReadData_returns ByteCount Address w).
  - by destruct f.
Qed.

(** X3.  Selecting a multiplexer channel is a one-byte send of the channel
    value to the multiplexer and then a one-byte receive from it, each
    after the bus is idle.  A failed send returns [XST_FAILURE] with no
    receive; after a successful send the result is success exactly when
    the receive succeeds.  The byte read back is dropped: the result does
    not depend on it, and neither buffer, [EepromSlvAddr] nor [PageSize]
    is touched. *)
Theorem channel_select_outcome MuxIicAddr Channel w :
  match MuxInitChannel fuel MuxIicAddr Channel w with
  | (Done s, w') =>
      same_globals w w' ∧
      ∃ st,
        (st ≠ XST_SUCCESS ∧ s = XST_FAILURE ∧
         trace w' = trace w ++ [EvSend [Channel] MuxIicAddr st]) ∨
        (st = XST_SUCCESS ∧
         ∃ st' data,
           trace w' = trace w ++
             [EvSend [Channel] MuxIicAddr st; EvRecv 1 MuxIicAddr st' data] ∧
           s = if st' =? XST_SUCCESS then XST_SUCCESS else XST_FAILURE)
  | (Stuck f, w') => f = BusNeverIdle ∧ same_globals w w'
  end.
Proof.
  unfold MuxInitChannel. rewrite bind_run. unfold wait_bus_idle at 1.
  destruct (spin_while_busy fuel (IicInstance w)) as [hw0|]; [|done].
  rewrite bind_run. unfold MasterSendPolled at 1. cbn [IicInstance set_IicInstance].
  destruct (XIicPs_MasterSendPolled [Channel] MuxIicAddr hw0) as [st hw1].
  destruct (st =? XST_SUCCESS) eqn:Hst;
    [change (negb true) with false | change (negb false) with true]; cbv iota.
  2: { apply Z.eqb_neq in Hst. split; [done|]. exists st. by left. }
  apply Z.eqb_eq in Hst.
  rewrite bind_run. unfold wait_bus_idle at 1. cbn [IicInstance set_IicInstance log].
  destruct (spin_while_busy fuel hw1) as [hw2|]; [|done].
  rewrite bind_run. unfold MasterRecvPolled at 1. cbn [IicInstance set_IicInstance log].
  destruct (XIicPs_MasterRecvPolled 1 MuxIicAddr hw2) as [[st' raw] hw3].
  destruct (st' =? XST_SUCCESS) eqn:Hst';
    [change (negb true) with false | change (negb false) with true]; cbv iota.
  2: { split; [done|]. exists st. right. split; [done|].
       exists st', (u8 <$> take (Z.to_nat 1) raw). rewrite Hst'. split; [|done].
       cbn [trace log set_IicInstance]. by rewrite <- app_assoc. }
  rewrite bind_run. unfold wait_bus_idle at 1. cbn [IicInstance set_IicInstance log].
  destruct (spin_while_busy fuel hw3) as [hw4|]; [|done].
  split; [done|]. exists st. right. split; [done|].
  exists st', (u8 <$> take (Z.to_nat 1) raw). rewrite Hst'. split; [|done].
  cbn [trace log set_IicInstance]. by rewrite <- app_assoc.
Qed.

(** ** What a trial of the detector decides *)

Lemma sizes_ret {A} (a : A) : keeps_sizes (ret a).
Proof. by intros w. Qed.

Lemma sizes_fault {A} f : keeps_sizes (fault (A := A) f).
Proof. by intros w. Qed.

Lemma sizes_get {A} (f : World → A) : keeps_sizes (get f).
Proof. by intros w. Qed.

Lemma sizes_bind {A B} (m : M A) (k : A → M B) :
  keeps_sizes m → (∀ a, keeps_sizes (k a)) → keeps_sizes (bind m k).
Proof.
  intros Hm Hk w Hok. specialize (Hm w Hok). rewrite bind_run.
  destruct (m w) as [[a|f] w1]; simpl in Hm; [by apply Hk | done].
Qed.

Lemma sizes_if {A} (b : bool) (m1 m2 : M A) :
  keeps_sizes m1 → keeps_sizes m2 → keeps_sizes (if b then m1 else m2).
Proof. by destruct b. Qed.

Lemma sizes_WriteBuffer_store i v : keeps_sizes (WriteBuffer_store i v).
Proof.
  intros w [Hlw Hlr]. unfold WriteBuffer_store. destruct (in_range _ _); [|done].
  split; simpl; [by rewrite length_insert | done].
Qed.

Lemma sizes_ReadBuffer_store i v : keeps_sizes (ReadBuffer_store i v).
Proof.
  intros w [Hlw Hlr]. unfold ReadBuffer_store. destruct (in_range _ _); [|done].
  split; simpl; [done | by rewrite length_insert].
Qed.

Lemma sizes_ReadBuffer_load i : keeps_sizes (ReadBuffer_load i).
Proof. intros w Hok. unfold ReadBuffer_load. by destruct (in_range _ _). Qed.

Lemma sizes_wait_bus_idle : keeps_sizes (wait_bus_idle fuel).
Proof. intros w Hok. unfold wait_bus_idle. by destruct (spin_while_busy _ _). Qed.

Lemma sizes_MasterSendPolled bytes slave : keeps_sizes (MasterSendPolled bytes slave).
Proof.
  intros w Hok. unfold MasterSendPolled. by destruct (XIicPs_MasterSendPolled _ _ _).
Qed.

Lemma sizes_MasterRecvPolled n slave : keeps_sizes (MasterRecvPolled n slave).
Proof.
  intros w Hok. unfold MasterRecvPolled.
  by destruct (XIicPs_MasterRecvPolled _ _ _) as [[st raw] hw'].
Qed.

Lemma sizes_MasterRecvPolled_ReadBuffer n slave :
  keeps_sizes (MasterRecvPolled_ReadBuffer n slave).
Proof.
  intros w [Hlw Hlr]. unfold MasterRecvPolled_ReadBuffer.
  destruct (negb _) eqn:Hn; [done|].
  apply negb_false_iff, andb_true_iff in Hn as [Hn0 Hn64].
  unfold bind, MasterRecvPolled, modify, ret.
  destruct (XIicPs_MasterRecvPolled _ _ _) as [[st raw] hw']. split; simpl; [done|].
  rewrite length_app, length_drop, Hlr, length_fmap, length_take.
  unfold ReadBuffer_size, MAX_SIZE in *. lia.
Qed.

Lemma sizes_ReadReg offset : keeps_sizes (ReadReg offset).
Proof. intros w Hok. unfold ReadReg. by destruct (XIicPs_ReadReg _ _). Qed.

Lemma sizes_for_count n lo (body : Z → M unit) :
  (∀ Index, keeps_sizes (body Index)) → keeps_sizes (for_count n lo body).
Proof.
  intros Hbody. revert lo. induction n as [|n IH]; intros lo; simpl.
  - apply sizes_ret.
  - apply sizes_bind; [apply Hbody | intros; apply IH].
Qed.

Create HintDb sizes.

#[local] Hint Resolve sizes_ret sizes_fault sizes_get sizes_if sizes_WriteBuffer_store
  sizes_ReadBuffer_store sizes_ReadBuffer_load sizes_wait_bus_idle sizes_MasterSendPolled
  sizes_MasterRecvPolled sizes_MasterRecvPolled_ReadBuffer sizes_ReadReg : sizes.

#[local] Hint Extern 2 (keeps_sizes (bind _ _)) => apply sizes_bind; [|intros] : sizes.
#[local] Hint Extern 2 (keeps_sizes (modify _)) => (by intros ? ?) : sizes.
#[local] Hint Extern 2 (keeps_sizes (for_count _ _ _)) =>
  apply sizes_for_count; intros : sizes.
#[local] Hint Extern 3 (keeps_sizes (match ?x with _ => _ end)) => destruct x : sizes.

Lemma sizes_count_matches n Index i count : keeps_sizes (count_matches n Index i count).
Proof.
  revert Index count. induction n as [|n IH]; intros Index count; simpl.
  - apply sizes_ret.
  - apply sizes_bind; [apply sizes_ReadBuffer_load | intros; apply IH].
Qed.

Lemma sizes_EepromWriteData ByteCount : keeps_sizes (EepromWriteData fuel ByteCount).
Proof.
  unfold EepromWriteData, MasterSendPolled_WriteBuffer, do_usleep. auto 20 with sizes.
Qed.

Lemma sizes_EepromReadData ByteCount Address :
  keeps_sizes (EepromReadData fuel ByteCount Address).
Proof.
  pose proof sizes_EepromWriteData.
  unfold EepromReadData, put_address. auto 20 with sizes.
Qed.

Lemma sizes_page_trial i : keeps_sizes (page_trial fuel i).
Proof.
  pose proof sizes_EepromWriteData. pose proof sizes_EepromReadData.
  pose proof sizes_count_matches.
  unfold page_trial, put_address, fill_pattern. cbv zeta. auto 30 with sizes.
Qed.

Lemma sizes_slave_monitor_poll n : keeps_sizes (slave_monitor_poll n).
Proof.
  induction n as [|n IH]; simpl; unfold DisableSlaveMonitor, WriteReg; auto 10 with sizes.
Qed.

Lemma sizes_IicPsConfig DeviceId : keeps_sizes (IicPsConfig DeviceId).
Proof.
  unfold IicPsConfig. destruct (XIicPs_LookupConfig DeviceId); [|apply sizes_ret].
  apply sizes_bind; [|intros; auto 10 with sizes].
  intros w Hok. by destruct (XIicPs_CfgInitialize _ _).
Qed.

Lemma sizes_IicPsFindDevice addr DeviceId : keeps_sizes (IicPsFindDevice addr DeviceId).
Proof.
  pose proof sizes_IicPsConfig. pose proof sizes_slave_monitor_poll.
  unfold IicPsFindDevice, IicPsSlaveMonitor, EnableSlaveMonitor. auto 20 with sizes.
Qed.

Lemma sizes_FindEepromDevice Address : keeps_sizes (FindEepromDevice Address).
Proof.
  pose proof sizes_slave_monitor_poll.
  unfold FindEepromDevice, EnableSlaveMonitor. auto 10 with sizes.
Qed.

Lemma sizes_MuxInitChannel MuxIicAddr Channel :
  keeps_sizes (MuxInitChannel fuel MuxIicAddr Channel).
Proof. unfold MuxInitChannel. auto 30 with sizes. Qed.

Lemma sizes_FindEepromPageSize_loop n i Status :
  keeps_sizes (FindEepromPageSize_loop fuel n i Status).
Proof.
  revert i Status. induction n as [|n IH]; intros i Status; simpl.
  - apply sizes_ret.
  - apply sizes_bind; [apply sizes_page_trial|].
    intros [[s|] Status']; [apply sizes_ret | apply IH].
Qed.

Lemma sizes_for_count_flow n lo (body : Z → M Flow) :
  (∀ Index, keeps_sizes (body Index)) → keeps_sizes (for_count_flow n lo body).
Proof.
  intros Hbody. revert lo. induction n as [|n IH]; intros lo; simpl.
  - apply sizes_ret.
  - apply sizes_bind; [apply Hbody|]. intros [s|]; [apply sizes_ret | apply IH].
Qed.

Lemma sizes_for_sentinel arr (body : Z → M Flow) :
  (∀ a, keeps_sizes (body a)) → keeps_sizes (for_sentinel arr body).
Proof.
  intros Hbody. induction arr as [|a rest IH]; simpl.
  - apply sizes_fault.
  - destruct (a =? 0); [apply sizes_ret|].
    apply sizes_bind; [apply Hbody|]. intros [s|]; [apply sizes_ret | apply IH].
Qed.

Lemma sizes_for_shr bits ch (body : Z → M Flow) :
  (∀ c, keeps_sizes (body c)) → keeps_sizes (for_shr bits ch body).
Proof.
  intros Hbody. revert ch. induction bits as [|bits IH]; intros ch; simpl.
  - apply sizes_ret.
  - destruct (ch >? 0); [|apply sizes_ret].
    apply sizes_bind; [apply Hbody|]. intros [s|]; [apply sizes_ret | apply IH].
Qed.

Lemma sizes_IicPsFindEeprom : keeps_sizes (IicPsFindEeprom fuel).
Proof.
  pose proof sizes_IicPsFindDevice. pose proof sizes_FindEepromDevice.
  pose proof sizes_MuxInitChannel. pose proof sizes_FindEepromPageSize_loop.
  unfold IicPsFindEeprom, IicPsFindEeprom_from.
  apply sizes_bind; [|intros [s|]; apply sizes_ret].
  apply sizes_for_count_flow. intros DeviceId. unfold scan_instance.
  apply sizes_bind; [|intros [s|]; [apply sizes_ret|]].
  - unfold scan_muxes. apply sizes_for_sentinel. intros mux.
    apply sizes_bind; [done|]. intros Status. apply sizes_if; [|apply sizes_ret].
    apply sizes_for_sentinel. intros eeprom. apply sizes_for_shr. intros MuxChannel.
    unfold try_channel, FindEepromPageSize. auto 20 with sizes.
  - unfold scan_direct. apply sizes_for_sentinel. intros eeprom. auto 20 with sizes.
Qed.

(** The compare loop counts the offsets whose byte is the pattern byte: it
    reaches the full count exactly when every one of them is. *)
Lemma count_matches_result n Index i count w :
  0 ≤ Index → Index + Z.of_nat n ≤ ReadBuffer_size →
  0 ≤ count → count + Z.of_nat n < 2 ^ 32 →
  ∃ c, count_matches n Index i count w = (Done c, w) ∧
       count ≤ c ≤ count + Z.of_nat n ∧
       (c = count + Z.of_nat n ↔
        ∀ k, Index ≤ k < Index + Z.of_nat n →
             default 0 (ReadBuffer w !! Z.to_nat k) = u32 (k + i)).
Proof.
  revert Index count. induction n as [|n IH]; intros Index count HIndex Hn Hcount Hwrap.
  - exists count. split; [done|]. split; [lia|]. split; [intros _ k Hk; lia | lia].
  - simpl count_matches. rewrite bind_run. unfold ReadBuffer_load at 1.
    replace (in_range Index ReadBuffer_size) with true by (unfold in_range; lia).
    set (b := default 0 (ReadBuffer w !! Z.to_nat Index)).
    destruct (b =? u32 (Index + i)) eqn:Hb.
    + apply Z.eqb_eq in Hb. rewrite u32_small by lia.
      destruct (IH (Index + 1) (count + 1)) as (c & Hrun & Hc & Hall); [lia..|].
      exists c. split; [done|]. split; [lia|]. split.
      * intros Heq k Hk. destruct (decide (k = Index)) as [->|]; [done|].
        apply Hall; lia.
      * intros Hk. assert (c = count + 1 + Z.of_nat n); [|lia].
        apply Hall. intros k Hk'. apply Hk. lia.
    + apply Z.eqb_neq in Hb.
      destruct (IH (Index + 1) count) as (c & Hrun & Hc & Hall); [lia..|].
      exists c. split; [done|]. split; [lia|]. split; [lia|].
      intros Hk. destruct Hb. apply Hk. lia.
Qed.

(** The first [size] bytes of a buffer are the pattern of trial [i] exactly
    when each is the byte the compare loop expects. *)
Lemma pattern_bytes i size (buffer : list Z) :
  0 ≤ i → 0 ≤ size → size + i ≤ 2 ^ 8 → (Z.to_nat size ≤ length buffer)%nat →
  take (Z.to_nat size) buffer = pattern i size ↔
  ∀ k, 0 ≤ k < 0 + Z.of_nat (Z.to_nat size) →
       default 0 (buffer !! Z.to_nat k) = u32 (k + i).
Proof.
  intros Hi Hsize Hbyte Hlen. unfold pattern. split.
  - intros Heq k Hk.
    assert (Hk' : (Z.to_nat k < Z.to_nat size)%nat) by lia.
    rewrite <- (lookup_take_lt buffer _ _ Hk'), Heq, list_lookup_fmap.
    rewrite (lookup_seqZ_lt _ _ _) by lia. simpl.
    rewrite u32_small by lia. unfold u8. rewrite Z.mod_small by lia. lia.
  - intros Hall. apply list_eq. intros j.
    destruct (decide (j < Z.to_nat size)%nat) as [Hj|Hj].
    + rewrite lookup_take_lt by done. rewrite list_lookup_fmap.
      rewrite (lookup_seqZ_lt _ _ _) by lia. simpl.
      specialize (Hall (Z.of_nat j)). rewrite Nat2Z.id in Hall.
      destruct (lookup_lt_is_Some_2 buffer j) as [b Hb]; [lia|].
      rewrite Hb in Hall |- *. simpl in Hall. rewrite Hall by lia.
      rewrite u32_small by lia. unfold u8. rewrite Z.mod_small by lia.
      f_equal; lia.
    + rewrite lookup_take_ge by lia. symmetry.
      apply lookup_ge_None_2. rewrite length_fmap, length_seqZ. lia.
Qed.

(** A trial up to its first transfer: the candidate is in [PageSize], the
    address field and the pattern are in [WriteBuffer], the bytes of
    [ReadBuffer] that will be compared are cleared, and nothing has gone
    over the bus. *)
Lemma page_trial_filled i w :
  0 ≤ i < 3 → buffers_ok w →
  ∃ off wf,
    page_trial fuel i w =
      (do Status <- EepromWriteData fuel (off + candidate i);
       if negb (Status =? XST_SUCCESS) then ret (Return XST_FAILURE, Status)
       else
         do Status <- EepromReadData fuel (candidate i) EEPROM_START_ADDRESS;
         if negb (Status =? XST_SUCCESS) then ret (Return XST_FAILURE, Status)
         else
           do count <- count_matches (Z.to_nat (candidate i)) 0 i 0;
           if count =? candidate i then ret (Return XST_SUCCESS, Status)
           else ret (Fallthrough, Status)) wf ∧
    0 ≤ off + candidate i ≤ WriteBuffer_size ∧
    buffers_ok wf ∧ trace wf = trace w ∧
    EepromSlvAddr wf = EepromSlvAddr w ∧ PageSize wf = candidate i ∧
    take (Z.to_nat (off + candidate i)) (WriteBuffer wf) =
      address_field (candidate i) EEPROM_START_ADDRESS ++ pattern i (candidate i) ∧
    ReadBuffer wf =
      replicate (Z.to_nat (candidate i)) 0 ++ drop (Z.to_nat (candidate i)) (ReadBuffer w).
Proof.
  intros Hi [Hlw Hlr].
  pose proof (candidate_range i) as Hrange.
  destruct (put_address_field (candidate i) EEPROM_START_ADDRESS
              (set_PageSize (candidate i) w))
    as (off & w0 & Hput & Hoff & Hfield & Hlw0 & Hrb0 & Haddr0 & Hsize0 & Htr0);
    [by split|].
  simpl in Hlw0, Hrb0, Haddr0, Hsize0, Htr0.
  assert (Hw0 : buffers_ok w0) by (split; [by rewrite Hlw0 | by rewrite Hrb0]).
  destruct Hw0 as [Hlw0' Hlr0'].
  assert (off + candidate i ≤ 66 ∧ candidate i ≤ 64) as [Hw66 Hr64]
    by (unfold MAX_SIZE in Hrange; lia).
  assert (Hlens : Z.to_nat WriteBuffer_size = 66%nat ∧ Z.to_nat ReadBuffer_size = 64%nat)
    by (unfold WriteBuffer_size, sizeof_AddressType, ReadBuffer_size, MAX_SIZE; lia).
  destruct Hlens as [Hw66' Hr64'].
  eexists off, _. split.
  { unfold page_trial. cbv zeta. fold (candidate i).
    rewrite bind_run. unfold modify at 1. cbv beta iota.
    rewrite bind_run, Hput. cbv beta iota.
    unfold fill_pattern.
    rewrite bind_run, (fill_run (λ Index, u32 (Index + i)) off);
      [| lia | lia
       | unfold WriteBuffer_size, sizeof_AddressType, MAX_SIZE; lia
       | lia
       | unfold ReadBuffer_size, MAX_SIZE; lia
       | lia].
    cbv beta iota.
    rewrite (u32_small (off + candidate i)), (u16_small (off + candidate i)),
      (u16_small (candidate i)) by lia.
    reflexivity. }
  simpl.
  split; [unfold WriteBuffer_size, sizeof_AddressType, MAX_SIZE; lia|].
  split.
  { split; simpl;
      rewrite ?length_app, ?length_take, ?length_fmap, ?length_seqZ, ?length_drop,
        ?length_replicate; lia. }
  split; [done|]. split; [done|]. split; [done|]. split.
  - rewrite Z.add_0_r, Z2Nat.id by lia.
    rewrite app_assoc, take_app_length'.
    + rewrite Hfield. f_equal. unfold pattern.
      apply list_fmap_ext. intros. apply u8_u32.
    + rewrite length_app, length_take, length_fmap, length_seqZ. lia.
  - by rewrite Hrb0.
Qed.

(** X11.  How a trial of the detector ends, when it ends, by what went
    over the bus.  The trial sends the page (address field, then the
    pattern, byte [(k + i) mod 256] at offset [k]) to the EEPROM; if that
    transfer fails it returns [XST_FAILURE] and has done nothing else.
    Else it waits, sends the address field; if that transfer fails it
    returns [XST_FAILURE].  Else it waits, reads [ps[i]] bytes; if that
    transfer fails it returns [XST_FAILURE].  In the three cases the local
    [Status] is [XST_FAILURE].  Else all three transfers succeeded, the
    local [Status] is [XST_SUCCESS], [ReadBuffer] holds the bytes received
    over the bytes cleared before the page was sent, and the trial returns
    [XST_SUCCESS] when the first [ps[i]] bytes of [ReadBuffer] are the
    pattern, and goes on to the next candidate when some byte differs.  So
    a candidate is accepted exactly on a full match, and the trial returns
    failure exactly after a failed transfer. *)
Theorem trial_verdict i w r Status w' :
  0 ≤ i < 3 → buffers_ok w →
  page_trial fuel i w = (Done (r, Status), w') →
  let size := candidate i in
  let slave := EepromSlvAddr w in
  let pointer := address_field size EEPROM_START_ADDRESS in
  let page := pointer ++ pattern i size in
  (∃ st, st ≠ XST_SUCCESS ∧
     trace w' = trace w ++ [EvSend page slave st] ∧
     r = Return XST_FAILURE ∧ Status = XST_FAILURE) ∨
  (∃ st, st ≠ XST_SUCCESS ∧
     trace w' = trace w ++
       [EvSend page slave XST_SUCCESS; EvUsleep 250000; EvSend pointer slave st] ∧
     r = Return XST_FAILURE ∧ Status = XST_FAILURE) ∨
  (∃ st data, st ≠ XST_SUCCESS ∧
     trace w' = trace w ++
       [EvSend page slave XST_SUCCESS; EvUsleep 250000;
        EvSend pointer slave XST_SUCCESS; EvUsleep 250000;
        EvRecv size slave st data] ∧
     r = Return XST_FAILURE ∧ Status = XST_FAILURE) ∨
  (∃ data,
     trace w' = trace w ++
       [EvSend page slave XST_SUCCESS; EvUsleep 250000;
        EvSend pointer slave XST_SUCCESS; EvUsleep 250000;
        EvRecv size slave XST_SUCCESS data] ∧
     (length data ≤ Z.to_nat size)%nat ∧
     ReadBuffer w' =
       data ++ drop (length data)
                 (replicate (Z.to_nat size) 0 ++ drop (Z.to_nat size) (ReadBuffer w)) ∧
     Status = XST_SUCCESS ∧
     ((r = Return XST_SUCCESS ∧
       take (Z.to_nat size) (ReadBuffer w') = pattern i size) ∨
      (r = Fallthrough ∧
       take (Z.to_nat size) (ReadBuffer w') ≠ pattern i size))).
Proof.
  intros Hi Hok Hrun size slave pointer page.
  pose proof (candidate_range i) as Hc. unfold MAX_SIZE in Hc.
  destruct (page_trial_filled i w Hi Hok)
    as (off & wf & Heq & Hoff & Hokf & Htrf & Haddrf & Hsizef & Hpage & Hrbf).
  rewrite Heq, bind_run in Hrun.
  destruct (EepromWriteData fuel (off + candidate i) wf) as [[s1|f] w1] eqn:Hwrite;
    [|discriminate Hrun].
  destruct (EepromWriteData_returns _ _ _ _ Hoff Hwrite)
    as [(G1 & G2 & G3 & G4) [st1 [(Hst1 & -> & Htr1) | (-> & -> & Htr1)]]].
  { rewrite failure_is_not_success in Hrun. change (negb false) with true in Hrun.
    cbv iota in Hrun. injection Hrun as <- <- <-.
    left. exists st1. rewrite Htr1, Hpage, Haddrf, Htrf. by repeat split. }
  rewrite Z.eqb_refl in Hrun. change (negb true) with false in Hrun. cbv iota in Hrun.
  rewrite bind_run in Hrun.
  assert (Hok1 : buffers_ok w1) by (destruct Hokf; split; congruence).
  destruct (EepromReadData fuel (candidate i) EEPROM_START_ADDRESS w1)
    as [[s2|f] w2] eqn:Hread; [|discriminate Hrun].
  assert (Hbytes : 0 ≤ candidate i ≤ ReadBuffer_size)
    by (unfold ReadBuffer_size, MAX_SIZE; lia).
  destruct (EepromReadData_returns _ _ _ _ _ Hbytes Hok1 Hread)
    as (_ & _ & Hok2 & st2 & Hcase).
  rewrite G4, Hsizef, G3, Haddrf, Htr1, Hpage, Haddrf, Htrf in Hcase.
  fold size slave pointer page in Hcase.
  destruct Hcase as [(Hst2 & -> & _ & Htr2) | (-> & st3 & data & Htr2 & Hlen & Hrb2 & ->)].
  { rewrite failure_is_not_success in Hrun. change (negb false) with true in Hrun.
    cbv iota in Hrun. injection Hrun as <- <- <-.
    right. left. exists st2. rewrite Htr2, <- app_assoc. by repeat split. }
  destruct (st3 =? XST_SUCCESS) eqn:Hst3.
  2: { rewrite failure_is_not_success in Hrun. change (negb false) with true in Hrun.
       cbv iota in Hrun. injection Hrun as <- <- <-.
       apply Z.eqb_neq in Hst3.
       right. right. left. exists st3, data. rewrite Htr2, <- app_assoc. by repeat split. }
  apply Z.eqb_eq in Hst3. subst st3.
  rewrite Z.eqb_refl in Hrun. change (negb true) with false in Hrun. cbv iota in Hrun.
  rewrite bind_run in Hrun.
  destruct Hok2 as [_ Hlr2].
  destruct (count_matches_result (Z.to_nat (candidate i)) 0 i 0 w2)
    as (count & Hcount & _ & Hfull);
    [lia | unfold ReadBuffer_size, MAX_SIZE; lia | lia | lia |].
  rewrite Hcount in Hrun.
  assert (Hpat : take (Z.to_nat (candidate i)) (ReadBuffer w2) = pattern i (candidate i) ↔
                 count = candidate i).
  { rewrite pattern_bytes, <- Hfull; [lia | lia | lia | lia |].
    unfold ReadBuffer_size, MAX_SIZE in Hlr2. lia. }
  right. right. right. exists data.
  rewrite G2, Hrbf in Hrb2.
  destruct (count =? candidate i) eqn:Hacc; injection Hrun as <- <- <-.
  - apply Z.eqb_eq in Hacc. rewrite Htr2, <- app_assoc.
    split; [done|]. split; [done|]. split; [done|]. split; [done|].
    left. split; [done|]. by apply Hpat.
  - apply Z.eqb_neq in Hacc. rewrite Htr2, <- app_assoc.
    split; [done|]. split; [done|]. split; [done|]. split; [done|].
    right. split; [done|]. intros Hsame. apply Hacc. by apply Hpat.
Qed.

(** ** The two passes of the self-test, page by page *)

Lemma sizes_write_page page_count : keeps_sizes (write_page fuel page_count).
Proof.
  pose proof sizes_EepromWriteData.
  unfold write_page. cbv zeta. auto 30 with sizes.
Qed.

Lemma sizes_verify_page page_count : keeps_sizes (verify_page fuel page_count).
Proof.
  pose proof sizes_EepromReadData.
  unfold verify_page.
  apply sizes_bind; [apply sizes_get|]. intros size.
  apply sizes_bind; [done|]. intros Status. apply sizes_if; [apply sizes_ret|].
  apply sizes_for_count_flow. intros Index. auto 10 with sizes.
Qed.

(** What a returned round of the first pass has done. *)
Lemma write_page_returns page_count w r w' :
  0 ≤ page_count < 256 → buffers_ok w → page_size_ok (PageSize w) →
  write_page fuel page_count w = (Done r, w') →
  EepromSlvAddr w' = EepromSlvAddr w ∧ PageSize w' = PageSize w ∧
  match r with
  | Fallthrough =>
      trace w' = trace w ++ page_write_events (EepromSlvAddr w) (PageSize w) page_count
  | Return s => s = XST_FAILURE
  end.
Proof.
  intros Hp [Hlw Hlr] Hps Hrun.
  assert (Hsize : 0 ≤ PageSize w ≤ 64)
    by (unfold page_size_ok, PAGE_SIZE_16, PAGE_SIZE_32, PAGE_SIZE_64 in Hps; lia).
  assert (Hfill : ((λ _ : Z, u8 0xFF) <$> seqZ 0 (PageSize w)) =
                  replicate (Z.to_nat (PageSize w)) 0xFF).
  { rewrite <- (length_seqZ 0 (PageSize w)). by apply const_fmap. }
  unfold WriteBuffer_size, sizeof_AddressType, ReadBuffer_size, MAX_SIZE in Hlw, Hlr.
  unfold write_page in Hrun. rewrite bind_get, bind_run in Hrun.
  rewrite (u32_small (page_count * PageSize w)) in Hrun by nia.
  unfold page_write_events, address_field.
  destruct (PageSize w =? PAGE_SIZE_16) eqn:E;
    rewrite ?store_head_run, ?store_head2_run in Hrun; cbv beta iota in Hrun;
    rewrite bind_run in Hrun.
  all: match type of Hrun with
       | context [for_count _ 0 (λ Index, WriteBuffer_store (u32 (?off + Index)) _ ;; _) ?w1] =>
           rewrite (fill_run (λ _, 0xFF) off (Z.to_nat (PageSize w)) 0 w1) in Hrun
             by (simpl; rewrite ?length_insert;
                 unfold WriteBuffer_size, sizeof_AddressType, ReadBuffer_size, MAX_SIZE; lia)
       end.
  all: rewrite bind_run, u32_small, u16_small in Hrun by lia.
  all: match type of Hrun with
       | context [EepromWriteData fuel ?n ?w2] =>
           destruct (EepromWriteData fuel n w2) as [[st1|f] w3] eqn:Hw; [|done];
           destruct (EepromWriteData_returns n w2 st1 w3)
             as ((_ & _ & Haddr & Hpsz) & st & Hcase);
             [unfold WriteBuffer_size, sizeof_AddressType, MAX_SIZE; lia | exact Hw |]
       end.
  all: cbn [trace EepromSlvAddr PageSize WriteBuffer ReadBuffer set_ReadBuffer set_WriteBuffer]
         in Haddr, Hpsz, Hcase.
  all: rewrite Z2Nat.id, Hfill, Z.add_0_r in Hcase by lia.
  all: rewrite app_assoc, take_app_length' in Hcase
         by (rewrite length_app, length_take, length_replicate, ?length_insert; lia).
  all: rewrite ?u8_masked, ?u8_low_byte in Hcase.
  all: destruct (WriteBuffer w) as [|b0 [|b1 wb]] eqn:Hwb; [simpl in Hlw; lia..|].
  all: simpl take in Hcase.
  all: destruct Hcase as [(Hst & -> & Htr) | (-> & -> & Htr)].
  all: rewrite ?failure_is_not_success, ?Z.eqb_refl in Hrun.
  all: injection Hrun as <- <-.
  all: by split_and!.
Qed.

(** The compare loop of the second pass changes nothing; it falls through
    exactly when every byte it looks at is 0xFF, and returns failure
    otherwise. *)
Lemma verify_loop_result n Index w :
  0 ≤ Index → Index + Z.of_nat n ≤ ReadBuffer_size →
  ∃ r, for_count_flow n Index (λ Index,
         do b <- ReadBuffer_load Index;
         if negb (b =? 0xFF) then ret (Return XST_FAILURE) else ret Fallthrough) w =
       (Done r, w) ∧
       (r = Return XST_FAILURE ∨
        (r = Fallthrough ∧
         ∀ k, Index ≤ k < Index + Z.of_nat n →
              default 0 (ReadBuffer w !! Z.to_nat k) = 0xFF)).
Proof.
  revert Index. induction n as [|n IH]; intros Index HIndex Hn.
  - exists Fallthrough. split; [done|]. right. split; [done|]. intros k Hk. lia.
  - rewrite for_count_flow_S, bind_run. unfold ReadBuffer_load at 1.
    replace (in_range Index ReadBuffer_size) with true by (unfold in_range; lia).
    destruct (default 0 (ReadBuffer w !! Z.to_nat Index) =? 0xFF) eqn:Hb.
    + apply Z.eqb_eq in Hb. change (negb true) with false. cbv iota. unfold ret at 1.
      destruct (IH (Index + 1)) as (r & Hrun & Hr); [lia..|].
      exists r. split; [done|]. destruct Hr as [->|[-> Hall]]; [by left | right].
      split; [done|]. intros k Hk.
      destruct (decide (k = Index)) as [->|]; [done | apply Hall; lia].
    + exists (Return XST_FAILURE). split; [done | by left].
Qed.

(** What a returned round of the second pass has done. *)
Lemma verify_page_returns page_count w r w' :
  0 ≤ page_count < 256 → buffers_ok w → page_size_ok (PageSize w) →
  verify_page fuel page_count w = (Done r, w') →
  EepromSlvAddr w' = EepromSlvAddr w ∧ PageSize w' = PageSize w ∧
  match r with
  | Fallthrough =>
      ∃ data, Forall (λ b, b = 0xFF) data ∧
              trace w' = trace w ++
                page_read_events (EepromSlvAddr w) (PageSize w) page_count data
  | Return s => s = XST_FAILURE
  end.
Proof.
  intros Hp Hok Hps Hrun.
  assert (Hsize : 0 ≤ PageSize w ≤ 64)
    by (unfold page_size_ok, PAGE_SIZE_16, PAGE_SIZE_32, PAGE_SIZE_64 in Hps; lia).
  unfold verify_page in Hrun. rewrite bind_get, bind_run in Hrun.
  rewrite (u32_small (page_count * PageSize w)), !u16_small in Hrun by nia.
  destruct (EepromReadData fuel (PageSize w) (page_count * PageSize w) w)
    as [[st1|f] w1] eqn:Hread; [|done].
  destruct (EepromReadData_returns _ _ _ _ _ Hsize Hok Hread)
    as (Haddr & Hpsz & _ & st & Hcase).
  destruct Hcase as [(Hst & -> & _ & Htr) | (-> & st' & data & Htr & Hlen & Hrb & ->)].
  { rewrite failure_is_not_success in Hrun. by injection Hrun as <- <-. }
  destruct (st' =? XST_SUCCESS) eqn:Hst'.
  2: { rewrite failure_is_not_success in Hrun. by injection Hrun as <- <-. }
  apply Z.eqb_eq in Hst'. subst st'.
  rewrite Z.eqb_refl in Hrun. change (negb true) with false in Hrun. cbv iota in Hrun.
  destruct (verify_loop_result (Z.to_nat (PageSize w)) 0 w1) as (r' & Hloop & Hr');
    [lia | unfold ReadBuffer_size, MAX_SIZE; lia |].
  rewrite Hloop in Hrun. injection Hrun as <- <-.
  split; [done|]. split; [done|].
  destruct Hr' as [->|[-> Hall]]; [done|].
  exists data. split; [|exact Htr].
  apply Forall_lookup. intros j b Hb.
  assert (Hj : (j < length data)%nat) by (by eapply lookup_lt_Some).
  specialize (Hall (Z.of_nat j)). rewrite Nat2Z.id, Hrb in Hall.
  rewrite lookup_app_l, Hb in Hall by done. apply Hall. lia.
Qed.

(** A loop that runs to its end strings the events of its rounds together;
    one that returns gives what a round returned. *)
Lemma for_count_flow_events (Inv : World → Prop) (round : Z → list Event → Prop)
    n lo (body : Z → M Flow) w w' :
  (∀ p w1 w2, lo ≤ p < lo + Z.of_nat n → Inv w1 → body p w1 = (Done Fallthrough, w2) →
     Inv w2 ∧ ∃ evs, round p evs ∧ trace w2 = trace w1 ++ evs) →
  Inv w → for_count_flow n lo body w = (Done Fallthrough, w') →
  Inv w' ∧ ∃ rounds, Forall2 round (seqZ lo (Z.of_nat n)) rounds ∧
                     trace w' = trace w ++ concat rounds.
Proof.
  revert lo w. induction n as [|n IH]; intros lo w Hbody Hinv Hrun.
  - injection Hrun as <-. split; [done|]. exists []. split; [constructor|].
    by rewrite app_nil_r.
  - rewrite for_count_flow_S in Hrun.
    destruct (body lo w) as [[[s|]|f] w1] eqn:Hround; [done | | done].
    destruct (Hbody lo w w1) as (Hinv1 & evs & Hevs & Htr1); [lia | done..|].
    destruct (IH (lo + 1) w1) as (Hinv' & rounds & Hrounds & Htr'); [|done..|].
    { intros p wa wb Hp. apply Hbody. lia. }
    split; [done|]. exists (evs :: rounds). split.
    + replace (Z.of_nat (S n)) with (Z.succ (Z.of_nat n)) by lia.
      rewrite seqZ_cons by lia.
      replace (Z.pred (Z.succ (Z.of_nat n))) with (Z.of_nat n) by lia.
      replace (Z.succ lo) with (lo + 1) by lia. by constructor.
    + simpl. by rewrite Htr', Htr1, <- app_assoc.
Qed.

Lemma for_count_flow_returned (Inv : World → Prop) n lo (body : Z → M Flow) w s w' :
  (∀ p w1 r w2, lo ≤ p < lo + Z.of_nat n → Inv w1 → body p w1 = (Done r, w2) →
     Inv w2 ∧ (∀ s, r = Return s → s = XST_FAILURE)) →
  Inv w → for_count_flow n lo body w = (Done (Return s), w') → s = XST_FAILURE.
Proof.
  revert lo w. induction n as [|n IH]; intros lo w Hbody Hinv Hrun; [done|].
  rewrite for_count_flow_S in Hrun.
  destruct (body lo w) as [[[s1|]|f] w1] eqn:Hround; [| | done].
  - injection Hrun as <- <-. by eapply (Hbody lo w); [lia | done..].
  - destruct (Hbody lo w Fallthrough w1) as [Hinv1 _]; [lia | done..|].
    apply (IH (lo + 1) w1); [|done..]. intros p wa r wb Hp. apply Hbody. lia.
Qed.

Lemma Forall2_events {A B} (f : A → B) (l : list A) (k : list B) :
  Forall2 (λ a b, b = f a) l k → k = f <$> l.
Proof. induction 1 as [|a b l k -> _ IH]; [done|]. simpl. by rewrite IH. Qed.

(** X4.  What a passing self-test has done.  When
    [IicPsEepromPolledExample] returns [XST_SUCCESS], the locator had
    returned success and, after it, the run made exactly this: 256 page
    writes to the located slave, each a successful send of the address
    field and [PageSize] bytes 0xFF followed by a sleep of 250000
    microseconds, and then 256 page reads, each a successful send of the
    address field of [page_count * PageSize], the same sleep, and a
    successful receive of [PageSize] bytes, every byte received being
    0xFF.  So a passing run sleeps 512 times a quarter of a second behind
    the locator. *)
Theorem passing_self_test_trace w w' :
  buffers_ok w →
  IicPsEepromPolledExample fuel w = (Done XST_SUCCESS, w') →
  ∃ w1 reads,
    IicPsFindEeprom fuel w = (Done XST_SUCCESS, w1) ∧
    EepromSlvAddr w' = EepromSlvAddr w1 ∧ PageSize w' = PageSize w1 ∧
    Forall2 (λ page_count evs,
               ∃ data, Forall (λ b, b = 0xFF) data ∧
                       evs = page_read_events (EepromSlvAddr w1) (PageSize w1)
                               page_count data)
            (seqZ 0 256) reads ∧
    trace w' = trace w1 ++
      concat (page_write_events (EepromSlvAddr w1) (PageSize w1) <$> seqZ 0 256) ++
      concat reads.
Proof.
  intros Hok Hrun.
  pose proof (sizes_IicPsFindEeprom w Hok) as Hok1.
  destruct anything_goes as (Hcall & Htransfer & Hprobe).
  pose proof (run_IicPsFindEeprom_from _ _ _ Hcall Htransfer Hprobe (λ _ _, I)
                (Z.to_nat XPAR_XIICPS_NUM_INSTANCES) 0 w (since_start (λ _, True) w I))
    as Hfound.
  fold (IicPsFindEeprom fuel) in Hfound.
  unfold IicPsEepromPolledExample in Hrun. rewrite bind_run in Hrun.
  destruct (IicPsFindEeprom fuel w) as [[st|f] w1] eqn:Hloc; [|done].
  simpl in Hok1. destruct Hfound as [_ [_ Hfound]].
  destruct (st =? XST_SUCCESS) eqn:Hst.
  2: { change (negb false) with true in Hrun. injection Hrun as Heq _.
       by destruct XST_distinct. }
  apply Z.eqb_eq in Hst. subst st. destruct (Hfound eq_refl) as [_ Hps].
  change (negb true) with false in Hrun. cbv iota in Hrun.
  set (slave := EepromSlvAddr w1) in *. set (size := PageSize w1) in *.
  set (Inv := λ x : World, buffers_ok x ∧ EepromSlvAddr x = slave ∧ PageSize x = size).
  assert (Hinv1 : Inv w1) by done.
  assert (Hwrite : ∀ p wa r wb, 0 ≤ p < 0 + Z.of_nat 256 → Inv wa →
            write_page fuel p wa = (Done r, wb) →
            Inv wb ∧ match r with
                     | Fallthrough => trace wb = trace wa ++ page_write_events slave size p
                     | Return s => s = XST_FAILURE
                     end).
  { intros p wa r wb Hp (Hoka & Ha & Hs) Hround.
    pose proof (sizes_write_page p wa Hoka) as Hokb. rewrite Hround in Hokb.
    destruct (write_page_returns p wa r wb) as (Hb & Hsb & Hr);
      [lia | done | by rewrite Hs | done |].
    rewrite Ha, Hs in Hr. split; [|done]. split_and!; [done | congruence..]. }
  assert (Hverify : ∀ p wa r wb, 0 ≤ p < 0 + Z.of_nat 256 → Inv wa →
            verify_page fuel p wa = (Done r, wb) →
            Inv wb ∧ match r with
                     | Fallthrough =>
                         ∃ data, Forall (λ b, b = 0xFF) data ∧
                                 trace wb = trace wa ++ page_read_events slave size p data
                     | Return s => s = XST_FAILURE
                     end).
  { intros p wa r wb Hp (Hoka & Ha & Hs) Hround.
    pose proof (sizes_verify_page p wa Hoka) as Hokb. rewrite Hround in Hokb.
    destruct (verify_page_returns p wa r wb) as (Hb & Hsb & Hr);
      [lia | done | by rewrite Hs | done |].
    rewrite Ha, Hs in Hr. split; [|done]. split_and!; [done | congruence..]. }
  rewrite bind_run in Hrun.
  destruct (for_count_flow 256 0 (write_page fuel) w1) as [[[s|]|f] w2] eqn:Hwrites;
    [| | done].
  { injection Hrun as -> _.
    assert (XST_SUCCESS = XST_FAILURE); [|by destruct XST_distinct].
    eapply (for_count_flow_returned Inv); [| exact Hinv1 | exact Hwrites].
    intros p wa r wb Hp Hinva Hround.
    destruct (Hwrite p wa r wb Hp Hinva Hround) as [Hinvb Hr].
    split; [done|]. by intros s ->. }
  destruct (for_count_flow_events Inv (λ p evs, evs = page_write_events slave size p)
              256 0 (write_page fuel) w1 w2) as (Hinv2 & writes & Hwritten & Htr2);
    [|done..|].
  { intros p wa wb Hp Hinva Hround.
    destruct (Hwrite p wa _ wb Hp Hinva Hround) as [Hinvb Hr].
    split; [done|]. by eexists. }
  apply Forall2_events in Hwritten. change (Z.of_nat 256) with 256 in Hwritten.
  cbv iota in Hrun. rewrite bind_run in Hrun.
  destruct (for_count_flow 256 0 (verify_page fuel) w2) as [[[s|]|f] w3] eqn:Hreads;
    [| | done].
  { injection Hrun as -> _.
    assert (XST_SUCCESS = XST_FAILURE); [|by destruct XST_distinct].
    eapply (for_count_flow_returned Inv); [| exact Hinv2 | exact Hreads].
    intros p wa r wb Hp Hinva Hround.
    destruct (Hverify p wa r wb Hp Hinva Hround) as [Hinvb Hr].
    split; [done|]. by intros s ->. }
  destruct (for_count_flow_events Inv
              (λ p evs, ∃ data, Forall (λ b, b = 0xFF) data ∧
                                evs = page_read_events slave size p data)
              256 0 (verify_page fuel) w2 w3) as (Hinv3 & reads & Hread & Htr3);
    [|done..|].
  { intros p wa wb Hp Hinva Hround.
    destruct (Hverify p wa _ wb Hp Hinva Hround) as [Hinvb (data & Hdata & Htr)].
    split; [done|]. exists (page_read_events slave size p data).
    split; [by exists data | done]. }
  change (Z.of_nat 256) with 256 in Hread.
  injection Hrun as <-. destruct Hinv3 as (_ & Haddr3 & Hsize3).
  exists w1, reads. split_and!; [done..|].
  by rewrite Htr3, Htr2, Hwritten, <- app_assoc.
Qed.

(** X13.  When each of the three trials of the detector has made its two
    transfers and found a mismatch, [FindEepromPageSize] returns
    [XST_SUCCESS] and leaves 16, the candidate of the last trial, in
    [PageSize]: the [Status] it returns behind the loop is that of the last
    page read. *)
Theorem detector_without_match (EepromAddr : Z) w w' :
  trials_rejected fuel 3 w w' →
  FindEepromPageSize fuel EepromAddr w = (Done XST_SUCCESS, w') ∧
  PageSize w' = PAGE_SIZE_16.
Proof.
  intros H3. split; [by apply detector_exhausted_returns_success|].
  inversion H3 as [|i ? w2 Status ? H2 Hlast Hi]; subst.
  assert (i = 2) as -> by lia.
  by rewrite (page_trial_PageSize _ _ _ _ Hlast).
Qed.

(** ** A bus on which nothing answers *)

Section Silent.

(** No read of the interrupt-status register ever shows the ready bit. *)
Hypothesis silent :
  ∀ hw, slave_ready (u32 (fst (XIicPs_ReadReg XIICPS_ISR_OFFSET hw))) = false.

Lemma silent_probe addr DeviceId w :
  ∃ w', IicPsFindDevice addr DeviceId w = (Done XST_FAILURE, w') ∧
        same_globals w w' ∧ transfers (trace w') = transfers (trace w).
Proof.
  destruct (IicPsConfig_total DeviceId w) as (cfg & w1 & Hcfg & Hsame1 & _ & Htr1 & _).
  unfold IicPsFindDevice, IicPsSlaveMonitor. rewrite !bind_run, Hcfg.
  destruct (negb (cfg =? XST_SUCCESS)).
  { unfold ret. rewrite failure_is_not_success. by eexists. }
  rewrite bind_run. unfold EnableSlaveMonitor, modify.
  destruct (slave_monitor_poll_spec (Z.to_nat SLV_MON_LOOP_COUNT)
              (log (EvEnableSlaveMonitor addr)
                (set_IicInstance (XIicPs_EnableSlaveMonitor addr (IicInstance w1)) w1)))
    as (st & w2 & Hrun & Hsame2 & Hcase).
  rewrite Hrun.
  destruct Hcase as [(k & _ & _ & Hready & _) | (-> & _ & Htr2 & _)].
  { unfold isr_value in Hready. by rewrite silent in Hready. }
  unfold ret. rewrite failure_is_not_success. eexists. split; [done|]. split.
  - destruct Hsame1 as (G1 & G2 & G3 & G4), Hsame2 as (K1 & K2 & K3 & K4).
    simpl in K1, K2, K3, K4. unfold same_globals. split_and!; congruence.
  - rewrite Htr2. simpl. rewrite !transfers_app, Htr1. simpl. by rewrite !app_nil_r.
Qed.

Lemma silent_scan_instance DeviceId w :
  ∃ w', scan_instance fuel DeviceId w = (Done Fallthrough, w') ∧
        same_globals w w' ∧ transfers (trace w') = transfers (trace w).
Proof.
  destruct (silent_probe 0x74 DeviceId w) as (w1 & Hp1 & (A1 & B1 & C1 & D1) & Htr1).
  destruct (silent_probe 0x54 DeviceId w1) as (w2 & Hp2 & (A2 & B2 & C2 & D2) & Htr2).
  destruct (silent_probe 0x55 DeviceId w2) as (w3 & Hp3 & (A3 & B3 & C3 & D3) & Htr3).
  exists w3. split; [|split; [unfold same_globals; split_and!; congruence | congruence]].
  unfold scan_instance, scan_muxes, scan_direct, MuxAddr, EepromAddr.
  rewrite bind_run, for_sentinel_cons. change (0x74 =? 0) with false. cbv iota.
  rewrite bind_run, Hp1, failure_is_not_success.
  unfold ret at 1. cbv beta iota.
  rewrite for_sentinel_cons. change (0 =? 0) with true. cbv iota.
  rewrite for_sentinel_cons. change (0x54 =? 0) with false. cbv iota.
  rewrite bind_run, Hp2, failure_is_not_success.
  unfold ret at 1. cbv beta iota.
  rewrite for_sentinel_cons. change (0x55 =? 0) with false. cbv iota.
  rewrite bind_run, Hp3, failure_is_not_success.
  unfold ret at 1. cbv beta iota.
  rewrite for_sentinel_cons. by change (0 =? 0) with true.
Qed.

Lemma silent_scan n DeviceId w :
  ∃ w', for_count_flow n DeviceId (scan_instance fuel) w = (Done Fallthrough, w') ∧
        same_globals w w' ∧ transfers (trace w') = transfers (trace w).
Proof.
  revert DeviceId w. induction n as [|n IH]; intros DeviceId w.
  - exists w. by split.
  - destruct (silent_scan_instance DeviceId w) as (w1 & Hrun1 & (A1 & B1 & C1 & D1) & Htr1).
    destruct (IH (DeviceId + 1) w1) as (w2 & Hrun2 & (A2 & B2 & C2 & D2) & Htr2).
    exists w2. rewrite for_count_flow_S, Hrun1.
    split; [done|]. split; [unfold same_globals; split_and!; congruence | congruence].
Qed.

(** X7.  On a bus where no presence probe is ever answered (no read of the
    interrupt-status register shows the ready bit), with any number of
    controller instances below [2 ^ 16] (the [u16] counter [DeviceId] of
    the locator then reaches the bound), [main] returns [XST_FAILURE], and
    it has made no bus transfer and changed neither of the buffers, nor
    [EepromSlvAddr], nor [PageSize]: nothing is written to or read from
    any device. *)
Theorem silent_bus_fails_without_transfer w :
  XPAR_XIICPS_NUM_INSTANCES < 2 ^ 16 →
  ∃ w', main fuel w = (Done XST_FAILURE, w') ∧
        transfers (trace w') = transfers (trace w) ∧
        same_globals w w'.
Proof.
  intros ?.
  destruct (silent_scan (Z.to_nat XPAR_XIICPS_NUM_INSTANCES) 0 w) as (w' & Hrun & Hsame & Htr).
  exists w'. split; [|by split].
  unfold main, IicPsEepromPolledExample, IicPsFindEeprom, IicPsFindEeprom_from.
  rewrite !bind_run, Hrun. unfold ret at 1. cbv beta iota.
  rewrite failure_is_not_success. change (negb false) with true. cbv iota.
  unfold ret at 1. cbv beta iota.
  rewrite failure_is_not_success. by change (negb false) with true.
Qed.

End Silent.

End Facts.

(** * The program on the test bench *)

Module BenchFacts.

Import Bench.

#[local] Existing Instance chip.

(** On the bench a read of the status register changes nothing, so a probe
    is decided by its first poll. *)
Lemma poll_once :
  slave_monitor_poll (Z.to_nat SLV_MON_LOOP_COUNT) = slave_monitor_poll 1.
Proof.
  destruct SLV_MON_LOOP_COUNT_pos as [n ->].
  apply functional_extensionality. intros w.
  by eapply slave_monitor_poll_stable.
Qed.

(** Run a closed program on the bench: expose the poll loops, cut them to
    one round, compute. *)
Ltac bench :=
  unfold detector_entry, IicPsEepromPolledExample, IicPsFindEeprom, IicPsFindEeprom_from,
    scan_instance, scan_muxes, scan_direct, IicPsFindDevice, try_channel,
    FindEepromDevice, IicPsSlaveMonitor;
  rewrite ?poll_once;
  vm_compute.

Lemma pair_eta_fst {A B} (x : A * B) (a : A) : fst x = a → x = (a, snd x).
Proof. intros <-. by destruct x. Qed.

(** C1, at a failing input: an EEPROM whose write-protect pin is high,
    behind channel 4 of the multiplexer.  Each of the nine transfers of the
    detector succeeds; the three read-backs (64, 32 and 16 bytes of 0xFF)
    match the pattern in no byte; and the detector returns [XST_SUCCESS],
    with 16 left in [PageSize]: after the last trial it returns the local
    [Status], which holds the status of the last read. *)
Theorem detector_success_without_round_trip (n : nat) :
  let w := detector_entry protected_board in
  let '(r, w') := FindEepromPageSize (S n) 0x54 w in
  let evs := events_since w w' in
  transfer_statuses evs = replicate 9 XST_SUCCESS ∧
  read_backs 0x54 evs = [replicate 64 0xFF; replicate 32 0xFF; replicate 16 0xFF] ∧
  trial_matches (read_backs 0x54 evs) = [0; 0; 0] ∧
  r = Done XST_SUCCESS ∧
  PageSize w' = 16.
Proof. bench. by repeat split. Qed.

(** C4, at a failing input: an EEPROM with 8-byte pages behind channel 4.
    The trial at 16 bytes reads back with no byte matching, all transfers
    having succeeded, and yet the detector returns [XST_SUCCESS] with 16 in
    [PageSize], right after that trial: to its caller this is the
    acceptance of 16, the very outcome of a part with 16-byte pages, whose
    third trial matches in all 16 bytes.  (One defect with C1: the
    [return Status] behind the loop.) *)
Theorem detector_accepts_16_without_match (n : nat) :
  (let w := detector_entry tiny_board in
   let '(r, w') := FindEepromPageSize (S n) 0x54 w in
   let evs := events_since w w' in
   transfer_statuses evs = replicate 9 XST_SUCCESS ∧
   trial_matches (read_backs 0x54 evs) = [0; 0; 0] ∧
   r = Done XST_SUCCESS ∧ PageSize w' = 16) ∧
  (let w := detector_entry small_board in
   let '(r, w') := FindEepromPageSize (S n) 0x54 w in
   let evs := events_since w w' in
   transfer_statuses evs = replicate 9 XST_SUCCESS ∧
   trial_matches (read_backs 0x54 evs) = [0; 0; 16] ∧
   r = Done XST_SUCCESS ∧ PageSize w' = 16).
Proof. split; bench; by repeat split. Qed.

(** C2, at a failing input: an EEPROM with 16-byte pages behind channel 4.
    The locator leaves 16 in [PageSize]; every one of the 256 page writes
    of the first pass then carries the address byte 0, where page [p] is at
    address [p * 16] (16 for page 1): with a page size of 16 the write pass
    encodes the local [Address], which stays at [EEPROM_START_ADDRESS],
    while the other branch and the read pass use [page_count * PageSize].
    On a blank part the self-test still passes; on a good part that holds
    zeros it fails. *)
Theorem write_pass_address_at_16 (n : nat) :
  (let w1 := snd (IicPsFindEeprom (S n) (boot small_board)) in
   let w2 := snd (for_count_flow 256 0 (write_page (S n)) w1) in
   PageSize w1 = 16 ∧ EepromSlvAddr w1 = 0x54 ∧
   page_write_addresses 0x54 16 (events_since w1 w2) = replicate 256 [0] ∧
   u8 (1 * PageSize w1) = 16) ∧
  fst (IicPsEepromPolledExample (S n) (boot small_board)) = Done XST_SUCCESS ∧
  fst (IicPsEepromPolledExample (S n) (boot used_board)) = Done XST_FAILURE.
Proof. split_and!; bench; by repeat split. Qed.

(** C3 as stated fails.  On a board whose multiplexer acknowledges its
    address and then fails the channel selection, with an EEPROM at 0x54 on
    the bus itself: the multiplexer loop ends with no EEPROM found (the one
    address probed is the multiplexer's), a direct probe from there would
    find the EEPROM, and the locator returns [XST_FAILURE] without having
    probed any EEPROM address. *)
Lemma direct_fallback_fails_after_bad_mux :
  (let '(r, w1) := scan_muxes 1 0 (boot bad_mux_board) in
   r = Done (Return XST_FAILURE) ∧
   probes (trace w1) = [0x74] ∧
   fst (scan_direct 0 w1) = Done (Return XST_SUCCESS)) ∧
  (let '(r, w') := IicPsFindEeprom 1 (boot bad_mux_board) in
   r = Done XST_FAILURE ∧ probes (trace w') = [0x74] ∧ EepromSlvAddr w' = 0) ∧
  ¬ direct_fallback_claim 1 0 (boot bad_mux_board).
Proof.
  split_and!; [bench; by repeat split..|].
  intros Hclaim.
  specialize (Hclaim (Return XST_FAILURE) (snd (scan_muxes 1 0 (boot bad_mux_board)))).
  assert (Hne : Return XST_FAILURE ≠ Return XST_SUCCESS) by discriminate.
  assert (Hrun : scan_muxes 1 0 (boot bad_mux_board) =
                 (Done (Return XST_FAILURE), snd (scan_muxes 1 0 (boot bad_mux_board))))
    by (apply pair_eta_fst; bench; reflexivity).
  specialize (Hclaim Hrun Hne).
  apply (f_equal fst) in Hclaim. revert Hclaim. bench. discriminate.
Qed.

(** C6.  For a multiplexer and an EEPROM candidate the channel loop
    selects channel 4, then 2, then 1, and stops at the first round that
    returns; a round whose selection succeeds returns when the EEPROM
    answers on the channel (with what the detector finds) and falls through
    to the next channel when it does not.  In the scenario (multiplexer at
    0x74, candidates 0x54 and 0x55, a 64-byte-page EEPROM at 0x55 behind
    channel 2) the locator selects 4, 2, 1 for 0x54, which never answers,
    then 4 and 2 for 0x55, which answers on 2; it returns success with 0x55
    and the page size the detector finds, 64, accepted at its first trial
    with all 64 bytes matching. *)
Theorem channel_order_and_scenario :
  (∀ (Drv : Driver) (fuel : nat) (mux eeprom : Z),
     for_shr 8 MAX_CHANNELS (try_channel fuel mux eeprom) =
     (do r <- try_channel fuel mux eeprom 4;
      match r with
      | Return s => ret (Return s)
      | Fallthrough =>
          do r <- try_channel fuel mux eeprom 2;
          match r with
          | Return s => ret (Return s)
          | Fallthrough =>
              do r <- try_channel fuel mux eeprom 1;
              match r with
              | Return s => ret (Return s)
              | Fallthrough => ret Fallthrough
              end
          end
      end)) ∧
  (∀ (Drv : Driver) (fuel : nat) (mux eeprom MuxChannel : Z) (w w1 : World) (st : Z) (w2 : World),
     MuxInitChannel fuel mux MuxChannel w = (Done XST_SUCCESS, w1) →
     FindEepromDevice eeprom w1 = (Done st, w2) →
     try_channel fuel mux eeprom MuxChannel w =
     if st =? XST_SUCCESS then
       match FindEepromPageSize fuel eeprom (set_EepromSlvAddr eeprom w2) with
       | (Done st', w3) =>
           (Done (Return (if st' =? XST_SUCCESS then XST_SUCCESS else XST_FAILURE)), w3)
       | (Stuck f, w3) => (Stuck f, w3)
       end
     else (Done Fallthrough, w2)) ∧
  (∀ n : nat,
     let '(r, w') := IicPsFindEeprom (S n) (boot scenario_board) in
     r = Done XST_SUCCESS ∧
     EepromSlvAddr w' = 0x55 ∧
     channel_selects 0x74 (trace w') = [[4]; [2]; [1]; [4]; [2]] ∧
     probes (trace w') = [0x74; 0x54; 0x54; 0x54; 0x55; 0x55] ∧
     PageSize w' = 64 ∧
     trial_matches (read_backs 0x55 (trace w')) = [64]).
Proof.
  split_and!.
  - intros. apply for_shr_MAX_CHANNELS.
  - intros Drv fuel mux eeprom c w w1 st w2 Hsel Hprobe.
    exact (try_channel_selected fuel mux eeprom c w w1 st w2 Hsel Hprobe).
  - intros n. bench. by repeat split.
Qed.

(** The second part at work in the scenario: channel 4 is selected, 0x54
    does not answer, the round falls through. *)
Lemma channel_order_and_scenario_witness :
  let w := snd (IicPsFindDevice 0x74 0 (boot scenario_board)) in
  let w1 := snd (MuxInitChannel 1 0x74 4 w) in
  let w2 := snd (FindEepromDevice 0x54 w1) in
  try_channel 1 0x74 0x54 4 w = (Done Fallthrough, w2).
Proof.
  intros w w1 w2.
  assert (Hsel : fst (MuxInitChannel 1 0x74 4 w) = Done XST_SUCCESS)
    by (subst w; bench; reflexivity).
  assert (Hprobe : fst (FindEepromDevice 0x54 w1) = Done XST_FAILURE)
    by (subst w1 w; bench; reflexivity).
  apply (pair_eta_fst (MuxInitChannel 1 0x74 4 w)) in Hsel.
  apply (pair_eta_fst (FindEepromDevice 0x54 w1)) in Hprobe.
  fold w1 in Hsel. fold w2 in Hprobe. clearbody w2 w1 w.
  exact (proj1 (proj2 channel_order_and_scenario)
           chip 1%nat 0x74 0x54 4 w w1 XST_FAILURE w2 Hsel Hprobe).
Defined.

(** On a board whose multiplexer fails every transfer the first channel
    selection fails and the locator returns failure in the world that
    selection left; on a board with no multiplexer and an EEPROM at 0x55 on
    the bus itself the multiplexer loop falls through and the direct probes
    follow. *)
Lemma direct_scan_after_mux_scan_witness :
  (let w := boot bad_mux_board in
   let wm := snd (IicPsFindDevice 0x74 0 w) in
   let w2 := snd (MuxInitChannel 1 0x74 4 wm) in
   scan_muxes 1 0 w = (Done (Return XST_FAILURE), w2) ∧
   IicPsFindEeprom_from 1 2 0 w = (Done XST_FAILURE, w2)) ∧
  (let w := boot direct_board in
   let w1 := snd (scan_muxes 1 0 w) in
   ∃ s1 w2,
     IicPsFindDevice 0x54 0 w1 = (Done s1, w2) ∧
     transfers (trace w2) = transfers (trace w1) ∧
     if s1 =? XST_SUCCESS then
       IicPsFindEeprom_from 1 2 0 w =
         (Done XST_SUCCESS, set_PageSize PAGE_SIZE_32 (set_EepromSlvAddr 0x54 w2))
     else
       ∃ s2 w3,
         IicPsFindDevice 0x55 0 w2 = (Done s2, w3) ∧
         transfers (trace w3) = transfers (trace w1) ∧
         if s2 =? XST_SUCCESS then
           IicPsFindEeprom_from 1 2 0 w =
             (Done XST_SUCCESS, set_PageSize PAGE_SIZE_32 (set_EepromSlvAddr 0x55 w3))
         else
           scan_instance 1 0 w = (Done Fallthrough, w3) ∧
           IicPsFindEeprom_from 1 2 0 w = IicPsFindEeprom_from 1 1 (0 + 1) w3).
Proof.
  split.
  - intros w wm w2.
    assert (Hmux : fst (IicPsFindDevice 0x74 0 w) = Done XST_SUCCESS)
      by (subst w; bench; reflexivity).
    assert (Hsel : fst (MuxInitChannel 1 0x74 4 wm) = Done XST_FAILURE)
      by (subst wm w; bench; reflexivity).
    assert (Hst : XST_FAILURE ≠ XST_SUCCESS) by discriminate.
    apply (pair_eta_fst (IicPsFindDevice 0x74 0 w)) in Hmux.
    apply (pair_eta_fst (MuxInitChannel 1 0x74 4 wm)) in Hsel.
    fold wm in Hmux. fold w2 in Hsel. clearbody w2 wm w.
    exact (proj1 (proj2 (proj2 (direct_scan_after_mux_scan 1 0 1 w)))
             wm [] 0x54 4 (tail channel_rounds) wm XST_FAILURE w2
             Hmux eq_refl eq_refl Hsel Hst).
  - intros w w1.
    assert (Hmux : fst (scan_muxes 1 0 w) = Done Fallthrough)
      by (subst w; bench; reflexivity).
    apply (pair_eta_fst (scan_muxes 1 0 w)) in Hmux.
    fold w1 in Hmux. clearbody w1 w.
    exact (proj2 (proj2 (proj2 (direct_scan_after_mux_scan 1 0 1 w))) w1 Hmux).
Defined.

(** A read of 16 bytes at address 0x1234 with 16 in [PageSize]. *)
Lemma read_address_encoding_witness :
  let w := set_PageSize 16 (boot empty_board) in
  let w' := snd (EepromReadData 1 16 0x1234 w) in
  (PageSize w = PAGE_SIZE_16 →
     take 1 (WriteBuffer w') = [Z.land 0x1234 0xFF] ∧
     ∃ st evs, trace w' =
       trace w ++ EvSend [Z.land 0x1234 0xFF] (EepromSlvAddr w) st :: evs) ∧
  (PageSize w = PAGE_SIZE_32 ∨ PageSize w = PAGE_SIZE_64 →
     take 2 (WriteBuffer w') = [Z.shiftr 0x1234 8; Z.land 0x1234 0xFF] ∧
     ∃ st evs, trace w' =
       trace w ++ EvSend [Z.shiftr 0x1234 8; Z.land 0x1234 0xFF] (EepromSlvAddr w) st :: evs).
Proof.
  intros w.
  assert (HA : 0 ≤ 0x1234 < 2 ^ 16) by lia.
  assert (Hbuf : buffers_ok w) by (split; vm_compute; reflexivity).
  clearbody w.
  exact (read_address_encoding 1 16 0x1234 w HA Hbuf).
Defined.



(** With 16 in [PageSize]. *)
Lemma buffers_never_overrun_witness :
  in_bounds (IicPsEepromPolledExample 1 (set_PageSize 16 (boot empty_board))).
Proof.
  apply (buffers_never_overrun 1 (set_PageSize 16 (boot empty_board))).
  left. reflexivity.
Defined.

(** Nothing on the bus: the first page write fails, the detector returns
    failure, and [PageSize], 0 before the call, is 64. *)
Lemma detector_leaves_last_candidate_witness :
  let w := boot empty_board in
  let w' := snd (FindEepromPageSize 1 0x54 w) in
  PageSize w = 0 ∧
  ∃ i w_i r Status,
    0 ≤ i < 3 ∧
    trials_rejected 1 i w w_i ∧
    page_trial 1 i w_i = (Done (r, Status), w') ∧
    (r = Return XST_FAILURE ∨ (r = Fallthrough ∧ i = 2 ∧ XST_FAILURE = Status)) ∧
    PageSize w' = candidate i ∧
    (PageSize w' = 64 ∨ PageSize w' = 32 ∨ PageSize w' = 16).
Proof.
  intros w w'.
  assert (Hrun : fst (FindEepromPageSize 1 0x54 w) = Done XST_FAILURE)
    by (vm_compute; reflexivity).
  assert (Hbefore : PageSize w = 0) by reflexivity.
  apply (pair_eta_fst (FindEepromPageSize 1 0x54 w)) in Hrun.
  fold w' in Hrun. clearbody w' w.
  exact (conj Hbefore (detector_leaves_last_candidate 1 0x54 w XST_FAILURE w' Hrun)).
Defined.

(** ** The properties of the transfer functions, the detector and the
    self-test, at runs on the bench *)

(** A three-byte page write with nothing on the bus. *)
Lemma page_write_outcome_witness :
  let w := boot empty_board in
  let bytes := take (Z.to_nat 3) (WriteBuffer w) in
  let sent := XIicPs_MasterSendPolled bytes (EepromSlvAddr w) (IicInstance w) in
  let send := EvSend bytes (EepromSlvAddr w) (fst sent) in
  match EepromWriteData 1 3 w with
  | (Done s, w') =>
      same_globals w w' ∧
      if fst sent =? XST_SUCCESS
      then s = XST_SUCCESS ∧ trace w' = trace w ++ [send; EvUsleep 250000]
      else s = XST_FAILURE ∧ trace w' = trace w ++ [send] ∧ IicInstance w' = snd sent
  | (Stuck f, w') =>
      f = BusNeverIdle ∧ fst sent = XST_SUCCESS ∧
      spin_while_busy 1 (snd sent) = None ∧ trace w' = trace w ++ [send]
  end.
Proof.
  apply (page_write_outcome 1 3 (boot empty_board)).
  unfold WriteBuffer_size, sizeof_AddressType, MAX_SIZE. lia.
Defined.

(** A sixteen-byte page read at address 0x1234 with nothing on the bus. *)
Lemma page_read_outcome_witness :
  let w := boot empty_board in
  match EepromReadData 1 16 0x1234 w with
  | (Done s, w') =>
      EepromSlvAddr w' = EepromSlvAddr w ∧ PageSize w' = PageSize w ∧ buffers_ok w' ∧
      ∃ st,
        (st ≠ XST_SUCCESS ∧ s = XST_FAILURE ∧ ReadBuffer w' = ReadBuffer w ∧
         trace w' = trace w ++
           [EvSend (address_field (PageSize w) 0x1234) (EepromSlvAddr w) st]) ∨
        (st = XST_SUCCESS ∧
         ∃ st' data,
           trace w' = trace w ++
             [EvSend (address_field (PageSize w) 0x1234) (EepromSlvAddr w) st;
              EvUsleep 250000;
              EvRecv 16 (EepromSlvAddr w) st' data] ∧
           (length data ≤ Z.to_nat 16)%nat ∧
           ReadBuffer w' = data ++ drop (length data) (ReadBuffer w) ∧
           s = if st' =? XST_SUCCESS then XST_SUCCESS else XST_FAILURE)
  | (Stuck f, _) => f = BusNeverIdle
  end.
Proof.
  apply (page_read_outcome 1 16 0x1234 (boot empty_board)).
  - unfold ReadBuffer_size, MAX_SIZE. lia.
  - split; reflexivity.
Defined.

(** A part with 64-byte pages on the bus itself: the first trial reads
    back what it wrote and accepts 64. *)
Lemma trial_verdict_witness :
  let w := direct_entry large_direct_board in
  let w' := snd (page_trial 1 0 w) in
  let r := Return XST_SUCCESS in
  let Status := XST_SUCCESS in
  let size := candidate 0 in
  let slave := EepromSlvAddr w in
  let pointer := address_field size EEPROM_START_ADDRESS in
  let page := pointer ++ pattern 0 size in
  (∃ st, st ≠ XST_SUCCESS ∧
     trace w' = trace w ++ [EvSend page slave st] ∧
     r = Return XST_FAILURE ∧ Status = XST_FAILURE) ∨
  (∃ st, st ≠ XST_SUCCESS ∧
     trace w' = trace w ++
       [EvSend page slave XST_SUCCESS; EvUsleep 250000; EvSend pointer slave st] ∧
     r = Return XST_FAILURE ∧ Status = XST_FAILURE) ∨
  (∃ st data, st ≠ XST_SUCCESS ∧
     trace w' = trace w ++
       [EvSend page slave XST_SUCCESS; EvUsleep 250000;
        EvSend pointer slave XST_SUCCESS; EvUsleep 250000;
        EvRecv size slave st data] ∧
     r = Return XST_FAILURE ∧ Status = XST_FAILURE) ∨
  (∃ data,
     trace w' = trace w ++
       [EvSend page slave XST_SUCCESS; EvUsleep 250000;
        EvSend pointer slave XST_SUCCESS; EvUsleep 250000;
        EvRecv size slave XST_SUCCESS data] ∧
     (length data ≤ Z.to_nat size)%nat ∧
     ReadBuffer w' =
       data ++ drop (length data)
                 (replicate (Z.to_nat size) 0 ++ drop (Z.to_nat size) (ReadBuffer w)) ∧
     Status = XST_SUCCESS ∧
     ((r = Return XST_SUCCESS ∧
       take (Z.to_nat size) (ReadBuffer w') = pattern 0 size) ∨
      (r = Fallthrough ∧
       take (Z.to_nat size) (ReadBuffer w') ≠ pattern 0 size))).
Proof.
  intros w w' r Status.
  assert (Hrun : fst (page_trial 1 0 w) = Done (r, Status))
    by (vm_compute; reflexivity).
  apply (pair_eta_fst (page_trial 1 0 w)) in Hrun. fold w' in Hrun.
  assert (Hi : 0 ≤ 0 < 3) by lia.
  assert (Hok : buffers_ok w) by (split; reflexivity).
  clearbody w' w.
  exact (trial_verdict 1 0 w r Status w' Hi Hok Hrun).
Defined.

(** The second trial with nothing on the bus: what it sends first. *)
Lemma page_trial_sent_witness :
  let w := boot empty_board in
  ∃ st evs,
    trace (snd (page_trial 1 1 w)) =
      trace w ++
      EvSend (address_field (candidate 1) EEPROM_START_ADDRESS ++ pattern 1 (candidate 1))
             (EepromSlvAddr w) st :: evs.
Proof.
  apply (page_trial_sent 1 1 (boot empty_board)).
  - lia.
  - split; reflexivity.
Defined.

(** A write-protected part on the bus itself: three trials, each rejected,
    and the detector returns success with 16. *)
Lemma detector_without_match_witness :
  let w := direct_entry protected_direct_board in
  let w1 := snd (page_trial 1 0 w) in
  let w2 := snd (page_trial 1 1 w1) in
  let w3 := snd (page_trial 1 2 w2) in
  FindEepromPageSize 1 0x54 w = (Done XST_SUCCESS, w3) ∧ PageSize w3 = PAGE_SIZE_16.
Proof.
  intros w w1 w2 w3.
  assert (E0 : fst (page_trial 1 0 w) = Done (Fallthrough, XST_SUCCESS))
    by (vm_compute; reflexivity).
  assert (E1 : fst (page_trial 1 1 w1) = Done (Fallthrough, XST_SUCCESS))
    by (vm_compute; reflexivity).
  assert (E2 : fst (page_trial 1 2 w2) = Done (Fallthrough, XST_SUCCESS))
    by (vm_compute; reflexivity).
  apply (pair_eta_fst (page_trial 1 0 w)) in E0. fold w1 in E0.
  apply (pair_eta_fst (page_trial 1 1 w1)) in E1. fold w2 in E1.
  apply (pair_eta_fst (page_trial 1 2 w2)) in E2. fold w3 in E2.
  clearbody w3. clearbody w2. clearbody w1. clearbody w.
  apply (detector_without_match 1 0x54 w w3).
  change 3 with (2 + 1). eapply rejected_next; [|exact E2].
  change 2 with (1 + 1). eapply rejected_next; [|exact E1].
  change 1 with (0 + 1). eapply rejected_next; [|exact E0].
  apply rejected_none.
Defined.

(** Page 1 of the write pass at a page size of 16, nothing on the bus. *)
Lemma write_page_sent_witness :
  let w := set_PageSize 16 (boot empty_board) in
  ∃ st evs,
    trace (snd (write_page 1 1 w)) =
      trace w ++
      EvSend (address_field (PageSize w)
                (if PageSize w =? PAGE_SIZE_16 then EEPROM_START_ADDRESS
                 else 1 * PageSize w) ++
              replicate (Z.to_nat (PageSize w)) 0xFF)
             (EepromSlvAddr w) st :: evs.
Proof.
  apply (write_page_sent 1 1 (set_PageSize 16 (boot empty_board))).
  - lia.
  - split; reflexivity.
  - left. reflexivity.
Defined.

(** A blank part with 16-byte pages behind channel 4: the self-test
    passes. *)
Lemma passing_self_test_trace_witness :
  let w := boot small_board in
  let w' := snd (IicPsEepromPolledExample 1 w) in
  ∃ w1 reads,
    IicPsFindEeprom 1 w = (Done XST_SUCCESS, w1) ∧
    EepromSlvAddr w' = EepromSlvAddr w1 ∧ PageSize w' = PageSize w1 ∧
    Forall2 (λ page_count evs,
               ∃ data, Forall (λ b, b = 0xFF) data ∧
                       evs = page_read_events (EepromSlvAddr w1) (PageSize w1)
                               page_count data)
            (seqZ 0 256) reads ∧
    trace w' = trace w1 ++
      concat (page_write_events (EepromSlvAddr w1) (PageSize w1) <$> seqZ 0 256) ++
      concat reads.
Proof.
  intros w w'.
  assert (Hrun : fst (IicPsEepromPolledExample 1 w) = Done XST_SUCCESS)
    by (subst w; bench; reflexivity).
  apply (pair_eta_fst (IicPsEepromPolledExample 1 w)) in Hrun. fold w' in Hrun.
  assert (Hok : buffers_ok w) by (split; reflexivity).
  clearbody w' w.
  exact (passing_self_test_trace 1 w w' Hok Hrun).
Defined.

End BenchFacts.

(** * A chip on which nothing answers *)

Module UnansweredBench.

Import Bench.

#[local] Existing Instance unanswered.

(** Two controllers, nothing answers: [main] fails and has moved nothing. *)
Lemma silent_bus_fails_without_transfer_witness :
  XPAR_XIICPS_NUM_INSTANCES < 2 ^ 16 ∧
  ∃ w', main 1 unanswered_boot = (Done XST_FAILURE, w') ∧
        transfers (trace w') = transfers (trace unanswered_boot) ∧
        same_globals unanswered_boot w'.
Proof.
  assert (Hbound : XPAR_XIICPS_NUM_INSTANCES < 2 ^ 16) by reflexivity.
  exact (conj Hbound
           (silent_bus_fails_without_transfer 1 (λ hw, eq_refl) unanswered_boot Hbound)).
Defined.

End UnansweredBench.
